(** * Persona generator: uniqueness-preserving generation of test personas

    A shallow embedding of [PersonaGenerator] (src/dataGenerator.py) and the
    properties of its bounded-retry generators.

    Conventions of the embedding.
    - Python [str] values are [string]s (byte strings).  Every string of the
      reference catalog is pure ASCII, so [encode()], [lower()], [len] and
      indexing agree with their byte-wise versions.
    - Python [set]s of strings are [gset string]; [len] is [size].
    - The [dict]s of the catalog are association lists in source order (the
      order matters for [random.choice(list(d.keys()))]).
    - [random] is an oracle [rand : N -> N] of raw draws, read through a
      cursor kept in the world; [datetime.now()] is an oracle [clock] of
      millisecond readings, read through its own cursor.
    - A method is a function from the world to a result and a new world; an
      exception leaves the mutations made before it in place, as in Python. *)

From Stdlib Require Import ZArith Lia Ascii Uint63.
From stdpp Require Import gmap mapset strings list pretty.

(** ** Python string primitives *)

Module Py.

(** [str.lower()] on ASCII. *)
Definition lower_char (c : ascii) : ascii :=
  let n := Ascii.nat_of_ascii c in
  if (65 <=? n)%nat && (n <=? 90)%nat then Ascii.ascii_of_nat (n + 32) else c.

Fixpoint lower (s : string) : string :=
  match s with
  | EmptyString => EmptyString
  | String c s' => String (lower_char c) (lower s')
  end.

(** [str.isspace()] on ASCII: TAB..CR, FS..US and the blank. *)
Definition isspace (c : ascii) : bool :=
  let n := Ascii.nat_of_ascii c in
  ((9 <=? n)%nat && (n <=? 13)%nat) || ((28 <=? n)%nat && (n <=? 32)%nat).

Fixpoint lstrip (s : string) : string :=
  match s with
  | String c s' => if isspace c then lstrip s' else s
  | EmptyString => EmptyString
  end.

Fixpoint take_word (s : string) : string :=
  match s with
  | String c s' => if isspace c then EmptyString else String c (take_word s')
  | EmptyString => EmptyString
  end.

(** [s.split()[0]]: the first whitespace-delimited token, [None] where
    Python raises [IndexError] (no token at all). *)
Definition split_first (s : string) : option string :=
  match lstrip s with
  | EmptyString => None
  | w => Some (take_word w)
  end.

(** [s[0]], [None] where Python raises [IndexError]. *)
Definition head_char (s : string) : option ascii :=
  match s with
  | String c _ => Some c
  | EmptyString => None
  end.

(** [str(n)] for a non-negative [int]. *)
Definition str (n : N) : string := pretty n.

Fixpoint zeros (k : nat) : string :=
  match k with
  | O => EmptyString
  | S k' => String "0"%char (zeros k')
  end.

(** [f"{n:0wd}"] for a non-negative [int]: left-padded with zeros up to
    width [w], never truncated. *)
Definition zfill (w : nat) (n : N) : string :=
  zeros (w - String.length (str n)) +:+ str n.

(** ['|'.join(args)]. *)
Fixpoint join_bar (args : list string) : string :=
  match args with
  | [] => EmptyString
  | [a] => a
  | a :: rest => a +:+ "|" +:+ join_bar rest
  end.

(** [chr(n)]. *)
Definition chr (n : N) : ascii := Ascii.ascii_of_N n.

End Py.

(** ** MD5 (RFC 1321), as computed by [hashlib.md5(...).hexdigest()]

    32-bit words are kept in primitive 63-bit integers and masked after
    every addition and rotation. *)

Module MD5.

Local Open Scope uint63_scope.

Definition mask32 (x : int) : int := x land 0xffffffff.

Definition rotl32 (x : int) (c : int) : int :=
  mask32 ((x << c) lor (x >> (32 - c))).

Definition lnot32 (x : int) : int := x lxor 0xffffffff.

(** The auxiliary functions of the four rounds. *)
Definition F1 (b c d : int) : int := (b land c) lor (lnot32 b land d).
Definition F2 (b c d : int) : int := (d land b) lor (lnot32 d land c).
Definition F3 (b c d : int) : int := (b lxor c) lxor d.
Definition F4 (b c d : int) : int := c lxor (b lor lnot32 d).

(** Per step: the sine-derived constant, the rotation amount, and the
    index of the message word. *)
Definition rounds : list (list (int * int * nat)) :=
  [
   [(0xd76aa478, 7, 0%nat); (0xe8c7b756, 12, 1%nat); (0x242070db, 17, 2%nat); (0xc1bdceee, 22, 3%nat);
    (0xf57c0faf, 7, 4%nat); (0x4787c62a, 12, 5%nat); (0xa8304613, 17, 6%nat); (0xfd469501, 22, 7%nat);
    (0x698098d8, 7, 8%nat); (0x8b44f7af, 12, 9%nat); (0xffff5bb1, 17, 10%nat); (0x895cd7be, 22, 11%nat);
    (0x6b901122, 7, 12%nat); (0xfd987193, 12, 13%nat); (0xa679438e, 17, 14%nat); (0x49b40821, 22, 15%nat)];
   [(0xf61e2562, 5, 1%nat); (0xc040b340, 9, 6%nat); (0x265e5a51, 14, 11%nat); (0xe9b6c7aa, 20, 0%nat);
    (0xd62f105d, 5, 5%nat); (0x02441453, 9, 10%nat); (0xd8a1e681, 14, 15%nat); (0xe7d3fbc8, 20, 4%nat);
    (0x21e1cde6, 5, 9%nat); (0xc33707d6, 9, 14%nat); (0xf4d50d87, 14, 3%nat); (0x455a14ed, 20, 8%nat);
    (0xa9e3e905, 5, 13%nat); (0xfcefa3f8, 9, 2%nat); (0x676f02d9, 14, 7%nat); (0x8d2a4c8a, 20, 12%nat)];
   [(0xfffa3942, 4, 5%nat); (0x8771f681, 11, 8%nat); (0x6d9d6122, 16, 11%nat); (0xfde5380c, 23, 14%nat);
    (0xa4beea44, 4, 1%nat); (0x4bdecfa9, 11, 4%nat); (0xf6bb4b60, 16, 7%nat); (0xbebfbc70, 23, 10%nat);
    (0x289b7ec6, 4, 13%nat); (0xeaa127fa, 11, 0%nat); (0xd4ef3085, 16, 3%nat); (0x04881d05, 23, 6%nat);
    (0xd9d4d039, 4, 9%nat); (0xe6db99e5, 11, 12%nat); (0x1fa27cf8, 16, 15%nat); (0xc4ac5665, 23, 2%nat)];
   [(0xf4292244, 6, 0%nat); (0x432aff97, 10, 7%nat); (0xab9423a7, 15, 14%nat); (0xfc93a039, 21, 5%nat);
    (0x655b59c3, 6, 12%nat); (0x8f0ccc92, 10, 3%nat); (0xffeff47d, 15, 10%nat); (0x85845dd1, 21, 1%nat);
    (0x6fa87e4f, 6, 8%nat); (0xfe2ce6e0, 10, 15%nat); (0xa3014314, 15, 6%nat); (0x4e0811a1, 21, 13%nat);
    (0xf7537e82, 6, 4%nat); (0xbd3af235, 10, 11%nat); (0x2ad7d2bb, 15, 2%nat); (0xeb86d391, 21, 9%nat)]
  ].

Definition byte_of_ascii (c : ascii) : int :=
  let '(Ascii b0 b1 b2 b3 b4 b5 b6 b7) := c in
  (if b0 then 1 else 0) + (if b1 then 2 else 0) + (if b2 then 4 else 0)
  + (if b3 then 8 else 0) + (if b4 then 16 else 0) + (if b5 then 32 else 0)
  + (if b6 then 64 else 0) + (if b7 then 128 else 0).

Fixpoint bytes_of_string (s : string) : list int :=
  match s with
  | EmptyString => []
  | String c s' => byte_of_ascii c :: bytes_of_string s'
  end.

(** Little-endian bytes of the low [8 * k] bits of [x]. *)
Fixpoint le_bytes (k : nat) (x : int) : list int :=
  match k with
  | O => []
  | S k' => (x land 0xff) :: le_bytes k' (x >> 8)
  end.

Fixpoint le_word (bs : list int) : int :=
  match bs with
  | [] => 0
  | b :: bs' => b lor (le_word bs' << 8)
  end.

(** The message followed by 0x80, zeros up to 56 mod 64, and the bit
    length as a 64-bit little-endian integer. *)
Definition pad (msg : list int) : list int :=
  let len := length msg in
  let k := ((119 - len mod 64) mod 64)%nat in
  msg ++ [0x80] ++ replicate k 0 ++ le_bytes 8 (8 * Uint63.of_Z (Z.of_nat len)).

Fixpoint words_of (n : nat) (bs : list int) : list int :=
  match n with
  | O => []
  | S n' => le_word (take 4 bs) :: words_of n' (drop 4 bs)
  end.

Fixpoint chunks (n : nat) (bs : list int) : list (list int) :=
  match n with
  | O => []
  | S n' => words_of 16 (take 64 bs) :: chunks n' (drop 64 bs)
  end.

Definition step (F : int → int → int → int) (m : list int)
    (st : int * int * int * int) (r : int * int * nat) : int * int * int * int :=
  let '(a, b, c, d) := st in
  let '(k, s, g) := r in
  let f := mask32 (F b c d + a + k + nth g m 0) in
  (d, mask32 (b + rotl32 f s), b, c).

Definition compress (h : int * int * int * int) (m : list int)
  : int * int * int * int :=
  let '(a0, b0, c0, d0) := h in
  let '(a, b, c, d) :=
    foldl (λ st Fr, foldl (step Fr.1 m) st Fr.2) h (zip [F1; F2; F3; F4] rounds) in
  (mask32 (a0 + a), mask32 (b0 + b), mask32 (c0 + c), mask32 (d0 + d)).

Definition digest (msg : list int) : list int :=
  let p := pad msg in
  let '(a, b, c, d) :=
    foldl compress (0x67452301, 0xefcdab89, 0x98badcfe, 0x10325476)
          (chunks (length p `div` 64)%nat p) in
  le_bytes 4 a ++ le_bytes 4 b ++ le_bytes 4 c ++ le_bytes 4 d.

Definition bit (x : int) (k : int) : bool := negb ((x >> k) land 1 =? 0).

(** The lowercase hexadecimal digit of a 4-bit value. *)
Definition hex_digit (x : int) : ascii :=
  if bit x 3 then
    if bit x 2 then
      if bit x 1 then (if bit x 0 then "f" else "e") else (if bit x 0 then "d" else "c")
    else
      if bit x 1 then (if bit x 0 then "b" else "a") else (if bit x 0 then "9" else "8")
  else
    if bit x 2 then
      if bit x 1 then (if bit x 0 then "7" else "6") else (if bit x 0 then "5" else "4")
    else
      if bit x 1 then (if bit x 0 then "3" else "2") else (if bit x 0 then "1" else "0").

Fixpoint hex (bs : list int) : string :=
  match bs with
  | [] => EmptyString
  | b :: bs' =>
      String (hex_digit (b >> 4)) (String (hex_digit (b land 0xf)) (hex bs'))
  end.

Definition hexdigest (s : string) : string := hex (digest (bytes_of_string s)).

End MD5.

(** The test suite of RFC 1321 (appendix A.5), and one name key. *)
Example md5_empty : MD5.hexdigest "" = "d41d8cd98f00b204e9800998ecf8427e".
Proof. vm_compute. reflexivity. Qed.

Example md5_abc : MD5.hexdigest "abc" = "900150983cd24fb0d6963f7d28e17f72".
Proof. vm_compute. reflexivity. Qed.

Example md5_name_key : MD5.hexdigest "James|Smith" = "7e74351bac8d1a1054179557955aa3be".
Proof. vm_compute. reflexivity. Qed.

Example md5_two_blocks :
  MD5.hexdigest
    "12345678901234567890123456789012345678901234567890123456789012345678901234567890"
  = "57edf4a22be3c955ac49da2e2107b67a".
Proof. vm_compute. reflexivity. Qed.

(** ** The reference catalog ([PersonaGenerator.__init__]) *)

Record Place := mkPlace {
  place_name : string;
  place_address : string;
  place_city : string;
  place_zip : string
}.

Module Catalog.

Definition male_names : list string :=
 ["James"; "John"; "Robert"; "Michael"; "William"; "David"; "Richard"; "Joseph";
  "Thomas"; "Christopher"; "Daniel"; "Matthew"; "Anthony"; "Mark"; "Donald"; "Kenneth";
  "Steven"; "Edward"; "Brian"; "Ronald"; "Kevin"; "Jason"; "Jeffrey"; "Ryan"; "Jacob";
  "Gary"; "Nicholas"; "Eric"; "Jonathan"; "Stephen"; "Larry"; "Justin"; "Scott";
  "Brandon"; "Benjamin"; "Samuel"; "Frank"; "Gregory"; "Raymond"; "Alexander"; "Patrick";
  "Jack"].

Definition female_names : list string :=
 ["Mary"; "Patricia"; "Jennifer"; "Linda"; "Elizabeth"; "Barbara"; "Susan"; "Jessica";
  "Sarah"; "Karen"; "Nancy"; "Margaret"; "Lisa"; "Betty"; "Dorothy"; "Sandra"; "Ashley";
  "Kimberly"; "Donna"; "Emily"; "Michelle"; "Carol"; "Amanda"; "Melissa"; "Deborah";
  "Stephanie"; "Rebecca"; "Laura"; "Sharon"; "Cynthia"; "Kathleen"; "Amy"; "Shirley";
  "Angela"; "Helen"; "Anna"; "Brenda"; "Pamela"; "Nicole"; "Emma"; "Samantha"; "Katherine"].

(** [self.first_names], keyed by gender. *)
Definition first_names : list (string * list string) :=
  [("male", male_names); ("female", female_names)].

Definition last_names : list string :=
 ["Smith"; "Johnson"; "Williams"; "Brown"; "Jones"; "Garcia"; "Miller"; "Davis";
  "Rodriguez"; "Martinez"; "Hernandez"; "Lopez"; "Gonzalez"; "Wilson"; "Anderson";
  "Thomas"; "Taylor"; "Moore"; "Jackson"; "Martin"; "Lee"; "Perez"; "Thompson"; "White";
  "Harris"; "Sanchez"; "Clark"; "Ramirez"; "Lewis"; "Robinson"; "Walker"; "Young";
  "Allen"; "King"; "Wright"; "Scott"; "Torres"; "Nguyen"; "Hill"; "Flores"; "Green";
  "Adams"; "Nelson"; "Baker"; "Hall"; "Rivera"; "Campbell"; "Mitchell"].

Definition public_places : list (string * list Place) :=
  [
   ("Alabama",
    [mkPlace "Birmingham Public Library" "2100 Park Place" "Birmingham" "35203";
     mkPlace "Montgomery City Hall" "103 N Perry St" "Montgomery" "36104";
     mkPlace "Railroad Park" "1600 1st Ave S" "Birmingham" "35233";
     mkPlace "Mobile Public Library" "701 Government St" "Mobile" "36602";
     mkPlace "Huntsville Public Library" "915 Monroe St SW" "Huntsville" "35801"]);
   ("Alaska",
    [mkPlace "Anchorage Public Library" "3600 Denali St" "Anchorage" "99503";
     mkPlace "Alaska State Capitol" "120 4th St" "Juneau" "99801";
     mkPlace "Fairbanks Public Library" "1215 Cowles St" "Fairbanks" "99701";
     mkPlace "Town Square Park" "540 W 5th Ave" "Anchorage" "99501";
     mkPlace "Juneau Public Library" "292 Marine Way" "Juneau" "99801"]);
   ("Arizona",
    [mkPlace "Phoenix Public Library" "1221 N Central Ave" "Phoenix" "85004";
     mkPlace "Arizona State Capitol" "1700 W Washington St" "Phoenix" "85007";
     mkPlace "Tucson City Hall" "255 W Alameda St" "Tucson" "85701";
     mkPlace "Scottsdale Public Library" "3839 N Drinkwater Blvd" "Scottsdale" "85251";
     mkPlace "Mesa Public Library" "64 E 1st St" "Mesa" "85201"]);
   ("Arkansas",
    [mkPlace "Little Rock Central Library" "100 Rock St" "Little Rock" "72201";
     mkPlace "Arkansas State Capitol" "500 Woodlane St" "Little Rock" "72201";
     mkPlace "Riverfront Park" "400 President Clinton Ave" "Little Rock" "72201";
     mkPlace "Fayetteville Public Library" "401 W Mountain St" "Fayetteville" "72701";
     mkPlace "Fort Smith Public Library" "3201 Rogers Ave" "Fort Smith" "72903"]);
   ("California",
    [mkPlace "Los Angeles Central Library" "630 W 5th St" "Los Angeles" "90071";
     mkPlace "San Francisco Public Library" "100 Larkin St" "San Francisco" "94102";
     mkPlace "Golden Gate Park" "501 Stanyan St" "San Francisco" "94117";
     mkPlace "San Diego Central Library" "330 Park Blvd" "San Diego" "92101";
     mkPlace "California State Capitol" "1315 10th St" "Sacramento" "95814"]);
   ("Colorado",
    [mkPlace "Denver Public Library" "10 W 14th Ave Pkwy" "Denver" "80204";
     mkPlace "Denver Botanic Gardens" "1007 York St" "Denver" "80206";
     mkPlace "Boulder Public Library" "1001 Arapahoe Ave" "Boulder" "80302";
     mkPlace "Colorado State Capitol" "200 E Colfax Ave" "Denver" "80203";
     mkPlace "Pikes Peak Library" "20 N Cascade Ave" "Colorado Springs" "80903"]);
   ("Connecticut",
    [mkPlace "Hartford Public Library" "500 Main St" "Hartford" "06103";
     mkPlace "Connecticut State Capitol" "210 Capitol Ave" "Hartford" "06106";
     mkPlace "New Haven Free Library" "133 Elm St" "New Haven" "06510";
     mkPlace "Bushnell Park" "1 Jewell St" "Hartford" "06103";
     mkPlace "Stamford Public Library" "1 Public Library Plaza" "Stamford" "06904"]);
   ("Delaware",
    [mkPlace "Wilmington Library" "10 E 10th St" "Wilmington" "19801";
     mkPlace "Delaware Legislative Hall" "411 Legislative Ave" "Dover" "19901";
     mkPlace "Brandywine Park" "1080 N Park Dr" "Wilmington" "19802";
     mkPlace "Dover Public Library" "35 E Loockerman St" "Dover" "19901";
     mkPlace "Newark Free Library" "750 Library Ave" "Newark" "19711"]);
   ("Florida",
    [mkPlace "Miami-Dade Public Library" "101 W Flagler St" "Miami" "33130";
     mkPlace "Orlando Public Library" "101 E Central Blvd" "Orlando" "32801";
     mkPlace "Tampa-Hillsborough Library" "900 N Ashley Dr" "Tampa" "33602";
     mkPlace "Jacksonville Public Library" "303 N Laura St" "Jacksonville" "32202";
     mkPlace "Lake Eola Park" "512 E Washington St" "Orlando" "32801"]);
   ("Georgia",
    [mkPlace "Atlanta-Fulton Library" "1 Margaret Mitchell Square" "Atlanta" "30303";
     mkPlace "Piedmont Park" "1320 Monroe Dr NE" "Atlanta" "30306";
     mkPlace "Georgia State Capitol" "206 Washington St SW" "Atlanta" "30334";
     mkPlace "Savannah Public Library" "2002 Bull St" "Savannah" "31401";
     mkPlace "Columbus Public Library" "3000 Macon Rd" "Columbus" "31906"]);
   ("Hawaii",
    [mkPlace "Hawaii State Library" "478 S King St" "Honolulu" "96813";
     mkPlace "Hawaii State Capitol" "415 S Beretania St" "Honolulu" "96813";
     mkPlace "Kapiolani Park" "3840 Paki Ave" "Honolulu" "96815";
     mkPlace "Maui Public Library" "251 S High St" "Wailuku" "96793";
     mkPlace "Hilo Public Library" "300 Waianuenue Ave" "Hilo" "96720"]);
   ("Idaho",
    [mkPlace "Boise Public Library" "715 S Capitol Blvd" "Boise" "83702";
     mkPlace "Idaho State Capitol" "700 W Jefferson St" "Boise" "83720";
     mkPlace "Julia Davis Park" "700 S Capitol Blvd" "Boise" "83702";
     mkPlace "Coeur d'Alene Library" "702 E Front Ave" "Coeur d'Alene" "83814";
     mkPlace "Idaho Falls Library" "457 W Broadway St" "Idaho Falls" "83402"]);
   ("Illinois",
    [mkPlace "Chicago Public Library" "400 S State St" "Chicago" "60605";
     mkPlace "Millennium Park" "201 E Randolph St" "Chicago" "60602";
     mkPlace "Illinois State Capitol" "401 S 2nd St" "Springfield" "62701";
     mkPlace "Grant Park" "337 E Randolph St" "Chicago" "60601";
     mkPlace "Navy Pier" "600 E Grand Ave" "Chicago" "60611"]);
   ("Indiana",
    [mkPlace "Indianapolis Public Library" "40 E St Clair St" "Indianapolis" "46204";
     mkPlace "Indiana State Capitol" "200 W Washington St" "Indianapolis" "46204";
     mkPlace "White River State Park" "801 W Washington St" "Indianapolis" "46204";
     mkPlace "Fort Wayne Library" "900 Library Plaza" "Fort Wayne" "46802";
     mkPlace "Evansville Public Library" "200 SE Martin Luther King Jr Blvd" "Evansville" "47713"]);
   ("Iowa",
    [mkPlace "Des Moines Public Library" "1000 Grand Ave" "Des Moines" "50309";
     mkPlace "Iowa State Capitol" "1007 E Grand Ave" "Des Moines" "50319";
     mkPlace "Gray's Lake Park" "2101 Fleur Dr" "Des Moines" "50321";
     mkPlace "Cedar Rapids Library" "450 5th Ave SE" "Cedar Rapids" "52401";
     mkPlace "Davenport Public Library" "321 Main St" "Davenport" "52801"]);
   ("Kansas",
    [mkPlace "Wichita Public Library" "223 S Main St" "Wichita" "67202";
     mkPlace "Kansas State Capitol" "300 SW 10th Ave" "Topeka" "66612";
     mkPlace "Topeka Public Library" "1515 SW 10th Ave" "Topeka" "66604";
     mkPlace "Kansas City Library" "625 Minnesota Ave" "Kansas City" "66101";
     mkPlace "Lawrence Public Library" "707 Vermont St" "Lawrence" "66044"]);
   ("Kentucky",
    [mkPlace "Louisville Free Library" "301 York St" "Louisville" "40203";
     mkPlace "Kentucky State Capitol" "700 Capitol Ave" "Frankfort" "40601";
     mkPlace "Cherokee Park" "745 Cochran Hill Rd" "Louisville" "40206";
     mkPlace "Lexington Public Library" "140 E Main St" "Lexington" "40507";
     mkPlace "Bowling Green Library" "1225 State St" "Bowling Green" "42101"]);
   ("Louisiana",
    [mkPlace "New Orleans Public Library" "219 Loyola Ave" "New Orleans" "70112";
     mkPlace "Louisiana State Capitol" "900 N 3rd St" "Baton Rouge" "70802";
     mkPlace "City Park" "1 Palm Dr" "New Orleans" "70124";
     mkPlace "Baton Rouge Library" "7711 Goodwood Blvd" "Baton Rouge" "70806";
     mkPlace "Lafayette Public Library" "301 W Congress St" "Lafayette" "70501"]);
   ("Maine",
    [mkPlace "Portland Public Library" "5 Monument Square" "Portland" "04101";
     mkPlace "Maine State House" "2 State House Station" "Augusta" "04333";
     mkPlace "Deering Oaks Park" "20 Deering Ave" "Portland" "04102";
     mkPlace "Bangor Public Library" "145 Harlow St" "Bangor" "04401";
     mkPlace "Lewiston Public Library" "200 Lisbon St" "Lewiston" "04240"]);
   ("Maryland",
    [mkPlace "Enoch Pratt Library" "400 Cathedral St" "Baltimore" "21201";
     mkPlace "Maryland State House" "100 State Cir" "Annapolis" "21401";
     mkPlace "Inner Harbor" "401 Light St" "Baltimore" "21202";
     mkPlace "Rockville Library" "21 Maryland Ave" "Rockville" "20850";
     mkPlace "Silver Spring Library" "900 Wayne Ave" "Silver Spring" "20910"]);
   ("Massachusetts",
    [mkPlace "Boston Public Library" "700 Boylston St" "Boston" "02116";
     mkPlace "Boston Common" "139 Tremont St" "Boston" "02111";
     mkPlace "Massachusetts State House" "24 Beacon St" "Boston" "02133";
     mkPlace "Cambridge Public Library" "449 Broadway" "Cambridge" "02138";
     mkPlace "Worcester Public Library" "3 Salem Square" "Worcester" "01608"]);
   ("Michigan",
    [mkPlace "Detroit Public Library" "5201 Woodward Ave" "Detroit" "48202";
     mkPlace "Michigan State Capitol" "100 N Capitol Ave" "Lansing" "48933";
     mkPlace "Belle Isle Park" "2 Inselruhe Ave" "Detroit" "48207";
     mkPlace "Grand Rapids Library" "111 Library St NE" "Grand Rapids" "49503";
     mkPlace "Ann Arbor Library" "343 S 5th Ave" "Ann Arbor" "48104"]);
   ("Minnesota",
    [mkPlace "Minneapolis Central Library" "300 Nicollet Mall" "Minneapolis" "55401";
     mkPlace "Minnesota State Capitol" "75 Rev Dr Martin Luther King Jr Blvd" "St Paul" "55155";
     mkPlace "Lake Harriet Park" "4135 W Lake Harriet Pkwy" "Minneapolis" "55409";
     mkPlace "St Paul Public Library" "90 W 4th St" "St Paul" "55102";
     mkPlace "Duluth Public Library" "520 W Superior St" "Duluth" "55802"]);
   ("Mississippi",
    [mkPlace "Jackson Library" "300 N State St" "Jackson" "39201";
     mkPlace "Mississippi State Capitol" "400 High St" "Jackson" "39201";
     mkPlace "LeFleur's Bluff State Park" "2140 Riverside Dr" "Jackson" "39202";
     mkPlace "Gulfport Library" "1708 25th Ave" "Gulfport" "39501";
     mkPlace "Biloxi Public Library" "580 Howard Ave" "Biloxi" "39530"]);
   ("Missouri",
    [mkPlace "Kansas City Public Library" "14 W 10th St" "Kansas City" "64105";
     mkPlace "Missouri State Capitol" "201 W Capitol Ave" "Jefferson City" "65101";
     mkPlace "Forest Park" "5595 Grand Dr" "St Louis" "63112";
     mkPlace "St Louis Public Library" "1301 Olive St" "St Louis" "63103";
     mkPlace "Springfield Library" "4653 S Campbell Ave" "Springfield" "65810"]);
   ("Montana",
    [mkPlace "Billings Public Library" "510 N Broadway" "Billings" "59101";
     mkPlace "Montana State Capitol" "1301 E 6th Ave" "Helena" "59601";
     mkPlace "Pioneer Park" "401 Parkhill Dr" "Billings" "59101";
     mkPlace "Missoula Public Library" "301 E Main St" "Missoula" "59802";
     mkPlace "Great Falls Library" "301 2nd Ave N" "Great Falls" "59401"]);
   ("Nebraska",
    [mkPlace "Omaha Public Library" "215 S 15th St" "Omaha" "68102";
     mkPlace "Nebraska State Capitol" "1445 K St" "Lincoln" "68509";
     mkPlace "Memorial Park" "6005 Underwood Ave" "Omaha" "68132";
     mkPlace "Lincoln City Libraries" "136 S 14th St" "Lincoln" "68508";
     mkPlace "Grand Island Library" "211 N Washington St" "Grand Island" "68801"]);
   ("Nevada",
    [mkPlace "Las Vegas Library" "833 Las Vegas Blvd N" "Las Vegas" "89101";
     mkPlace "Nevada State Capitol" "101 N Carson St" "Carson City" "89701";
     mkPlace "Sunset Park" "2601 E Sunset Rd" "Las Vegas" "89120";
     mkPlace "Reno Library" "301 S Center St" "Reno" "89501";
     mkPlace "Henderson Libraries" "280 S Green Valley Pkwy" "Henderson" "89012"]);
   ("New Hampshire",
    [mkPlace "Manchester City Library" "405 Pine St" "Manchester" "03104";
     mkPlace "New Hampshire State House" "107 N Main St" "Concord" "03301";
     mkPlace "White Park" "125 White St" "Concord" "03301";
     mkPlace "Nashua Public Library" "2 Court St" "Nashua" "03060";
     mkPlace "Portsmouth Library" "175 Parrott Ave" "Portsmouth" "03801"]);
   ("New Jersey",
    [mkPlace "Newark Public Library" "5 Washington St" "Newark" "07101";
     mkPlace "New Jersey State House" "125 W State St" "Trenton" "08608";
     mkPlace "Liberty State Park" "1 Audrey Zapp Dr" "Jersey City" "07305";
     mkPlace "Jersey City Library" "472 Jersey Ave" "Jersey City" "07302";
     mkPlace "Camden County Library" "203 Laurel Rd" "Voorhees" "08043"]);
   ("New Mexico",
    [mkPlace "Albuquerque Library" "501 Copper Ave NW" "Albuquerque" "87102";
     mkPlace "New Mexico State Capitol" "490 Old Santa Fe Trail" "Santa Fe" "87501";
     mkPlace "Roosevelt Park" "500 Spruce St SE" "Albuquerque" "87106";
     mkPlace "Santa Fe Public Library" "145 Washington Ave" "Santa Fe" "87501";
     mkPlace "Las Cruces Library" "200 E Picacho Ave" "Las Cruces" "88001"]);
   ("New York",
    [mkPlace "New York Public Library" "476 5th Ave" "New York" "10018";
     mkPlace "Central Park" "59th to 110th St" "New York" "10022";
     mkPlace "Brooklyn Public Library" "10 Grand Army Plaza" "Brooklyn" "11238";
     mkPlace "Buffalo Central Library" "1 Lafayette Square" "Buffalo" "14203";
     mkPlace "Albany Public Library" "161 Washington Ave" "Albany" "12210"]);
   ("North Carolina",
    [mkPlace "Charlotte Library" "310 N Tryon St" "Charlotte" "28202";
     mkPlace "North Carolina State Capitol" "1 E Edenton St" "Raleigh" "27601";
     mkPlace "Freedom Park" "1900 East Blvd" "Charlotte" "28203";
     mkPlace "Wake County Library" "4020 Carya Dr" "Raleigh" "27610";
     mkPlace "Durham County Library" "300 N Roxboro St" "Durham" "27701"]);
   ("North Dakota",
    [mkPlace "Bismarck Library" "515 N 5th St" "Bismarck" "58501";
     mkPlace "North Dakota State Capitol" "600 E Boulevard Ave" "Bismarck" "58505";
     mkPlace "Sertoma Park" "2400 Longspur Trail" "Bismarck" "58504";
     mkPlace "Fargo Public Library" "102 3rd St N" "Fargo" "58102";
     mkPlace "Grand Forks Library" "2110 Library Cir" "Grand Forks" "58201"]);
   ("Ohio",
    [mkPlace "Columbus Library" "96 S Grant Ave" "Columbus" "43215";
     mkPlace "Ohio Statehouse" "1 Capitol Square" "Columbus" "43215";
     mkPlace "Goodale Park" "120 W Goodale St" "Columbus" "43215";
     mkPlace "Cleveland Public Library" "325 Superior Ave E" "Cleveland" "44114";
     mkPlace "Cincinnati Library" "800 Vine St" "Cincinnati" "45202"]);
   ("Oklahoma",
    [mkPlace "Metropolitan Library" "300 Park Ave" "Oklahoma City" "73102";
     mkPlace "Oklahoma State Capitol" "2300 N Lincoln Blvd" "Oklahoma City" "73105";
     mkPlace "Scissortail Park" "300 SW 7th St" "Oklahoma City" "73109";
     mkPlace "Tulsa City Library" "400 Civic Center" "Tulsa" "74103";
     mkPlace "Norman Public Library" "225 N Webster Ave" "Norman" "73069"]);
   ("Oregon",
    [mkPlace "Multnomah County Library" "801 SW 10th Ave" "Portland" "97204";
     mkPlace "Oregon State Capitol" "900 Court St NE" "Salem" "97301";
     mkPlace "Tom McCall Waterfront Park" "98 SW Naito Pkwy" "Portland" "97204";
     mkPlace "Eugene Public Library" "100 W 10th Ave" "Eugene" "97401";
     mkPlace "Salem Public Library" "585 Liberty St SE" "Salem" "97301"]);
   ("Pennsylvania",
    [mkPlace "Free Library Philadelphia" "1901 Vine St" "Philadelphia" "19103";
     mkPlace "Pennsylvania State Capitol" "501 N 3rd St" "Harrisburg" "17120";
     mkPlace "Rittenhouse Square" "1800 Walnut St" "Philadelphia" "19103";
     mkPlace "Carnegie Library Pittsburgh" "4400 Forbes Ave" "Pittsburgh" "15213";
     mkPlace "Allentown Public Library" "1210 Hamilton St" "Allentown" "18102"]);
   ("Rhode Island",
    [mkPlace "Providence Public Library" "150 Empire St" "Providence" "02903";
     mkPlace "Rhode Island State House" "82 Smith St" "Providence" "02903";
     mkPlace "Roger Williams Park" "1000 Elmwood Ave" "Providence" "02907";
     mkPlace "Warwick Public Library" "600 Sandy Ln" "Warwick" "02886";
     mkPlace "Newport Public Library" "300 Spring St" "Newport" "02840"]);
   ("South Carolina",
    [mkPlace "Charleston County Library" "68 Calhoun St" "Charleston" "29401";
     mkPlace "South Carolina State House" "1100 Gervais St" "Columbia" "29201";
     mkPlace "Marion Square" "329 Meeting St" "Charleston" "29403";
     mkPlace "Richland Library" "1431 Assembly St" "Columbia" "29201";
     mkPlace "Greenville County Library" "25 Heritage Green Pl" "Greenville" "29601"]);
   ("South Dakota",
    [mkPlace "Siouxland Libraries" "200 N Dakota Ave" "Sioux Falls" "57104";
     mkPlace "South Dakota State Capitol" "500 E Capitol Ave" "Pierre" "57501";
     mkPlace "Falls Park" "131 E Falls Park Dr" "Sioux Falls" "57104";
     mkPlace "Rapid City Library" "610 Quincy St" "Rapid City" "57701";
     mkPlace "Aberdeen Library" "215 SE 4th Ave" "Aberdeen" "57401"]);
   ("Tennessee",
    [mkPlace "Nashville Public Library" "615 Church St" "Nashville" "37219";
     mkPlace "Tennessee State Capitol" "600 Dr MLK Jr Blvd" "Nashville" "37243";
     mkPlace "Centennial Park" "2500 West End Ave" "Nashville" "37203";
     mkPlace "Memphis Public Library" "3030 Poplar Ave" "Memphis" "38111";
     mkPlace "Knox County Library" "500 W Church Ave" "Knoxville" "37902"]);
   ("Texas",
    [mkPlace "Houston Public Library" "500 McKinney St" "Houston" "77002";
     mkPlace "Dallas Public Library" "1515 Young St" "Dallas" "75201";
     mkPlace "Austin Central Library" "710 W Cesar Chavez St" "Austin" "78701";
     mkPlace "San Antonio Library" "600 Soledad St" "San Antonio" "78205";
     mkPlace "Fort Worth Library" "500 W 3rd St" "Fort Worth" "76102"]);
   ("Utah",
    [mkPlace "Salt Lake City Library" "210 E 400 S" "Salt Lake City" "84111";
     mkPlace "Utah State Capitol" "350 State St" "Salt Lake City" "84103";
     mkPlace "Liberty Park" "600 E 900 S" "Salt Lake City" "84105";
     mkPlace "Provo City Library" "550 N University Ave" "Provo" "84601";
     mkPlace "Park City Library" "1255 Park Ave" "Park City" "84060"]);
   ("Vermont",
    [mkPlace "Fletcher Free Library" "235 College St" "Burlington" "05401";
     mkPlace "Vermont State House" "115 State St" "Montpelier" "05633";
     mkPlace "Waterfront Park" "1 College St" "Burlington" "05401";
     mkPlace "Rutland Free Library" "10 Court St" "Rutland" "05701";
     mkPlace "Kellogg-Hubbard Library" "135 Main St" "Montpelier" "05602"]);
   ("Virginia",
    [mkPlace "Richmond Public Library" "101 E Franklin St" "Richmond" "23219";
     mkPlace "Virginia State Capitol" "1000 Bank St" "Richmond" "23219";
     mkPlace "Byrd Park" "600 S Boulevard" "Richmond" "23220";
     mkPlace "Virginia Beach Library" "4100 Virginia Beach Blvd" "Virginia Beach" "23452";
     mkPlace "Norfolk Public Library" "235 E Plume St" "Norfolk" "23510"]);
   ("Washington",
    [mkPlace "Seattle Central Library" "1000 4th Ave" "Seattle" "98104";
     mkPlace "Washington State Capitol" "416 Sid Snyder Ave SW" "Olympia" "98504";
     mkPlace "Discovery Park" "3801 Discovery Park Blvd" "Seattle" "98199";
     mkPlace "Spokane Public Library" "906 W Main Ave" "Spokane" "99201";
     mkPlace "Tacoma Public Library" "1102 Tacoma Ave S" "Tacoma" "98402"]);
   ("West Virginia",
    [mkPlace "Charleston Library" "123 Capitol St" "Charleston" "25301";
     mkPlace "West Virginia State Capitol" "1900 Kanawha Blvd E" "Charleston" "25305";
     mkPlace "Coonskin Park" "2000 Coonskin Dr" "Charleston" "25311";
     mkPlace "Huntington Library" "1445 5th Ave" "Huntington" "25701";
     mkPlace "Morgantown Library" "373 Spruce St" "Morgantown" "26505"]);
   ("Wisconsin",
    [mkPlace "Milwaukee Public Library" "814 W Wisconsin Ave" "Milwaukee" "53233";
     mkPlace "Wisconsin State Capitol" "2 E Main St" "Madison" "53703";
     mkPlace "Lake Park" "2975 N Lake Park Rd" "Milwaukee" "53211";
     mkPlace "Madison Public Library" "201 W Mifflin St" "Madison" "53703";
     mkPlace "Green Bay Library" "515 Pine St" "Green Bay" "54301"]);
   ("Wyoming",
    [mkPlace "Laramie County Library" "2200 Pioneer Ave" "Cheyenne" "82001";
     mkPlace "Wyoming State Capitol" "200 W 24th St" "Cheyenne" "82002";
     mkPlace "Lions Park" "1100 S Lions Park Dr" "Cheyenne" "82001";
     mkPlace "Natrona County Library" "307 E 2nd St" "Casper" "82601";
     mkPlace "Teton County Library" "125 Virginian Ln" "Jackson" "83001"])
  ].

Definition state_codes : list (string * string) :=
 [("Alabama", "AL"); ("Alaska", "AK"); ("Arizona", "AZ"); ("Arkansas", "AR");
  ("California", "CA"); ("Colorado", "CO"); ("Connecticut", "CT"); ("Delaware", "DE");
  ("Florida", "FL"); ("Georgia", "GA"); ("Hawaii", "HI"); ("Idaho", "ID");
  ("Illinois", "IL"); ("Indiana", "IN"); ("Iowa", "IA"); ("Kansas", "KS");
  ("Kentucky", "KY"); ("Louisiana", "LA"); ("Maine", "ME"); ("Maryland", "MD");
  ("Massachusetts", "MA"); ("Michigan", "MI"); ("Minnesota", "MN");
  ("Mississippi", "MS"); ("Missouri", "MO"); ("Montana", "MT"); ("Nebraska", "NE");
  ("Nevada", "NV"); ("New Hampshire", "NH"); ("New Jersey", "NJ"); ("New Mexico", "NM");
  ("New York", "NY"); ("North Carolina", "NC"); ("North Dakota", "ND"); ("Ohio", "OH");
  ("Oklahoma", "OK"); ("Oregon", "OR"); ("Pennsylvania", "PA"); ("Rhode Island", "RI");
  ("South Carolina", "SC"); ("South Dakota", "SD"); ("Tennessee", "TN"); ("Texas", "TX");
  ("Utah", "UT"); ("Vermont", "VT"); ("Virginia", "VA"); ("Washington", "WA");
  ("West Virginia", "WV"); ("Wisconsin", "WI"); ("Wyoming", "WY")].

Definition area_codes : list (string * list string) :=
  [
   ("Alabama", ["205"; "251"; "256"; "334"; "938"]);
   ("Alaska", ["907"]);
   ("Arizona", ["480"; "520"; "602"; "623"; "928"]);
   ("Arkansas", ["479"; "501"; "870"]);
   ("California", ["209"; "213"; "310"; "323"; "408"; "415"; "424"; "442"; "510"; "530"; "559"; "562"; "619"; "626"; "628"; "650"; "657"; "661"; "669"; "707"; "714"; "747"; "760"; "805"; "818"; "831"; "858"; "909"; "916"; "925"; "949"; "951"]);
   ("Colorado", ["303"; "719"; "720"; "970"]);
   ("Connecticut", ["203"; "475"; "860"; "959"]);
   ("Delaware", ["302"]);
   ("Florida", ["239"; "305"; "321"; "352"; "386"; "407"; "561"; "727"; "754"; "772"; "786"; "813"; "850"; "863"; "904"; "941"; "954"]);
   ("Georgia", ["229"; "404"; "470"; "478"; "678"; "706"; "762"; "770"; "912"]);
   ("Hawaii", ["808"]);
   ("Idaho", ["208"; "986"]);
   ("Illinois", ["217"; "224"; "309"; "312"; "618"; "630"; "708"; "773"; "779"; "815"; "847"; "872"]);
   ("Indiana", ["219"; "260"; "317"; "463"; "574"; "765"; "812"; "930"]);
   ("Iowa", ["319"; "515"; "563"; "641"; "712"]);
   ("Kansas", ["316"; "620"; "785"; "913"]);
   ("Kentucky", ["270"; "364"; "502"; "606"; "859"]);
   ("Louisiana", ["225"; "318"; "337"; "504"; "985"]);
   ("Maine", ["207"]);
   ("Maryland", ["240"; "301"; "410"; "443"; "667"]);
   ("Massachusetts", ["339"; "351"; "413"; "508"; "617"; "774"; "781"; "857"; "978"]);
   ("Michigan", ["231"; "248"; "269"; "313"; "517"; "586"; "616"; "734"; "810"; "906"; "947"; "989"]);
   ("Minnesota", ["218"; "320"; "507"; "612"; "651"; "763"; "952"]);
   ("Mississippi", ["228"; "601"; "662"; "769"]);
   ("Missouri", ["314"; "417"; "573"; "636"; "660"; "816"]);
   ("Montana", ["406"]);
   ("Nebraska", ["308"; "402"; "531"]);
   ("Nevada", ["702"; "725"; "775"]);
   ("New Hampshire", ["603"]);
   ("New Jersey", ["201"; "551"; "609"; "732"; "848"; "856"; "862"; "908"; "973"]);
   ("New Mexico", ["505"; "575"]);
   ("New York", ["212"; "315"; "332"; "347"; "516"; "518"; "585"; "607"; "631"; "646"; "680"; "716"; "718"; "838"; "845"; "914"; "917"; "929"; "934"]);
   ("North Carolina", ["252"; "336"; "704"; "743"; "828"; "910"; "919"; "980"; "984"]);
   ("North Dakota", ["701"]);
   ("Ohio", ["216"; "234"; "330"; "380"; "419"; "440"; "513"; "567"; "614"; "740"; "937"]);
   ("Oklahoma", ["405"; "539"; "580"; "918"]);
   ("Oregon", ["458"; "503"; "541"; "971"]);
   ("Pennsylvania", ["215"; "223"; "267"; "272"; "412"; "484"; "570"; "610"; "717"; "724"; "814"; "878"]);
   ("Rhode Island", ["401"]);
   ("South Carolina", ["803"; "843"; "854"; "864"]);
   ("South Dakota", ["605"]);
   ("Tennessee", ["423"; "615"; "629"; "731"; "865"; "901"; "931"]);
   ("Texas", ["210"; "214"; "254"; "281"; "325"; "346"; "361"; "409"; "430"; "432"; "469"; "512"; "682"; "713"; "726"; "737"; "806"; "817"; "830"; "832"; "903"; "915"; "936"; "940"; "956"; "972"; "979"]);
   ("Utah", ["385"; "435"; "801"]);
   ("Vermont", ["802"]);
   ("Virginia", ["276"; "434"; "540"; "571"; "703"; "757"; "804"]);
   ("Washington", ["206"; "253"; "360"; "425"; "509"; "564"]);
   ("West Virginia", ["304"; "681"]);
   ("Wisconsin", ["262"; "414"; "534"; "608"; "715"; "920"]);
   ("Wyoming", ["307"])
  ].

End Catalog.

(** ** Generator state ([self.unique_tracker], [self.generation_stats]) *)

Record Tracker := mkTracker {
  full_names : gset string;
  emails : gset string;
  phones : gset string;
  addresses : gset string;
  name_hashes : gset string;
  person_hashes : gset string
}.

Record Stats := mkStats {
  collision_attempts : nat;
  unique_regenerations : nat;
  total_generated : nat
}.

Record Generator := mkGenerator {
  unique_tracker : Tracker;
  generation_stats : Stats
}.

(** The generator together with the cursors of the two oracles. *)
Record World := mkWorld {
  self : Generator;
  rng_pos : N;
  clock_pos : N
}.

(** [PersonaGenerator()]: empty sets, zero counters. *)
Definition new_generator : Generator :=
  mkGenerator (mkTracker ∅ ∅ ∅ ∅ ∅ ∅) (mkStats 0 0 0).

Abbreviation tracker w := (unique_tracker (self w)).
Abbreviation stats w := (generation_stats (self w)).

Definition with_tracker (f : Tracker → Tracker) (w : World) : World :=
  mkWorld (mkGenerator (f (tracker w)) (stats w)) (rng_pos w) (clock_pos w).

Definition with_stats (f : Stats → Stats) (w : World) : World :=
  mkWorld (mkGenerator (tracker w) (f (stats w))) (rng_pos w) (clock_pos w).

(** [s.add(x)]: an insertion. *)
Definition set_add (x : string) (X : gset string) : gset string :=
  Mapset (<[x:=tt]> (mapset_car X)).

Lemma set_add_union x X : set_add x X = {[x]} ∪ X.
Proof.
  apply leibniz_equiv. intros y. rewrite elem_of_union, elem_of_singleton.
  destruct X as [m]. unfold set_add, elem_of, gset_elem_of, mapset_elem_of. simpl.
  destruct (decide (x = y)) as [->|Hne].
  - rewrite lookup_insert_eq. split; [by left|done].
  - rewrite lookup_insert_ne by done. split; [by right|]. by intros [?|?].
Qed.

Definition add_full_name (x : string) (t : Tracker) : Tracker :=
  mkTracker (set_add x (full_names t)) (emails t) (phones t) (addresses t)
            (name_hashes t) (person_hashes t).
Definition add_email (x : string) (t : Tracker) : Tracker :=
  mkTracker (full_names t) (set_add x (emails t)) (phones t) (addresses t)
            (name_hashes t) (person_hashes t).
Definition add_phone (x : string) (t : Tracker) : Tracker :=
  mkTracker (full_names t) (emails t) (set_add x (phones t)) (addresses t)
            (name_hashes t) (person_hashes t).
Definition add_address (x : string) (t : Tracker) : Tracker :=
  mkTracker (full_names t) (emails t) (phones t) (set_add x (addresses t))
            (name_hashes t) (person_hashes t).
Definition add_name_hash (x : string) (t : Tracker) : Tracker :=
  mkTracker (full_names t) (emails t) (phones t) (addresses t)
            (set_add x (name_hashes t)) (person_hashes t).
Definition add_person_hash (x : string) (t : Tracker) : Tracker :=
  mkTracker (full_names t) (emails t) (phones t) (addresses t)
            (name_hashes t) (set_add x (person_hashes t)).

Definition bump_collisions (s : Stats) : Stats :=
  mkStats (S (collision_attempts s)) (unique_regenerations s) (total_generated s).
Definition bump_regenerations (s : Stats) : Stats :=
  mkStats (collision_attempts s) (S (unique_regenerations s)) (total_generated s).
Definition bump_total (s : Stats) : Stats :=
  mkStats (collision_attempts s) (unique_regenerations s) (S (total_generated s)).

(** ** Methods as state transformers that may raise *)

Inductive exn :=
  | KeyError (key : string)
  | IndexError
  | UnboundLocalError.

Inductive result (A : Type) :=
  | Ok (a : A)
  | Raise (e : exn).
Arguments Ok {A} a.
Arguments Raise {A} e.

Definition M (A : Type) : Type := World → result A * World.

Definition raise {A} (e : exn) : M A := λ w, (Raise e, w).

Global Instance M_ret : MRet M := λ A a w, (Ok a, w).
Global Instance M_bind : MBind M := λ A B k m w,
  match m w with
  | (Ok a, w') => k a w'
  | (Raise e, w') => (Raise e, w')
  end.

Definition get : M World := λ w, (Ok w, w).
Definition modify (f : World → World) : M unit := λ w, (Ok tt, f w).

(** [d[key]] and [d.get(key, default)] on a dict given in source order. *)
Fixpoint dict_lookup {V} (d : list (string * V)) (key : string) : option V :=
  match d with
  | [] => None
  | (k, v) :: d' => if decide (k = key) then Some v else dict_lookup d' key
  end.

Definition dict_item {V} (d : list (string * V)) (key : string) : M V :=
  match dict_lookup d key with
  | Some v => mret v
  | None => raise (KeyError key)
  end.

Definition dict_get {V} (d : list (string * V)) (key : string) (dflt : V) : V :=
  default dflt (dict_lookup d key).

(** A [for attempt in range(n)] loop whose body may [return]: the body
    answers [inl r] when it returned [r] and [inr l] when it fell through,
    [l] being the loop-local variables that stay bound after the loop. *)
Inductive loop_result (R L : Type) :=
  | Returned (r : R)
  | Exhausted (last : option L).
Arguments Returned {R L} r.
Arguments Exhausted {R L} last.

Fixpoint for_from {R L} (body : nat → M (R + L)) (attempt n : nat) (last : option L)
  : M (loop_result R L) :=
  match n with
  | O => mret (Exhausted last)
  | S n' =>
      r ← body attempt;
      match r with
      | inl x => mret (Returned x)
      | inr l => for_from body (S attempt) n' (Some l)
      end
  end.

Definition for_range {R L} (n : nat) (body : nat → M (R + L)) : M (loop_result R L) :=
  for_from body 0 n None.

(** ** The generator's methods *)

(** [x > y] on [nat], decided as the source writes it. *)
Global Instance nat_gt_dec : RelDecision gt := λ x y, decide (y < x)%nat.

Section Methods.

(** The raw draws of [random] and the readings of the clock, in
    milliseconds since the epoch. *)
Variable rand : N → N.
Variable clock : N → N.

Local Open Scope N_scope.

Definition draw : M N := λ w,
  (Ok (rand (rng_pos w)), mkWorld (self w) (N.succ (rng_pos w)) (clock_pos w)).

(** [int(datetime.now().timestamp() * 1000)]. *)
Definition now_ms : M N := λ w,
  (Ok (clock (clock_pos w)), mkWorld (self w) (rng_pos w) (N.succ (clock_pos w))).

(** [random.choice(seq)]: [IndexError] on an empty sequence. *)
Definition choice {A} (l : list A) : M A :=
  match l with
  | [] => raise IndexError
  | x :: _ => r ← draw; mret (nth (N.to_nat (r mod N.of_nat (length l))) l x)
  end.

(** [random.randint(a, b)], both ends included. *)
Definition randint (a b : N) : M N :=
  r ← draw; mret (a + r mod (b - a + 1)).

(** [generate_unique_hash]: the MD5 of the arguments joined with a bar. *)
Definition generate_unique_hash (args : list string) : string :=
  MD5.hexdigest (Py.join_bar args).

(** *** [generate_phone_number] *)

Definition format_phone (area_code exchange subscriber : string) : string :=
  "(" +:+ area_code +:+ ") " +:+ exchange +:+ "-" +:+ subscriber.

Definition phone_attempt (state : string) (attempt : nat) : M (string + string) :=
  area_code ← choice (dict_get Catalog.area_codes state ["555"]);
  exchange ← randint 200 999;
  subscriber ← randint 1000 9999;
  let phone := format_phone area_code (Py.str exchange) (Py.str subscriber) in
  w ← get;
  if decide (phone ∉ phones (tracker w)) then
    modify (with_tracker (add_phone phone));;
    mret (inl phone)
  else
    modify (with_stats bump_collisions);;
    mret (inr area_code).

Definition generate_phone_number (state : string) : M string :=
  r ← for_range 100 (phone_attempt state);
  match r with
  | Returned phone => mret phone
  | Exhausted last =>
      (* Fallback with guaranteed uniqueness *)
      w ← get;
      let unique_num := N.of_nat (size (phones (tracker w))) in
      match last with
      | None => raise UnboundLocalError
      | Some area_code =>
          let phone := format_phone area_code "999" (Py.zfill 4 unique_num) in
          modify (with_tracker (add_phone phone));;
          mret phone
      end
  end.

(** *** [generate_unique_email] *)

Definition domains : list string :=
  ["email.com"; "mail.com"; "inbox.com"; "webmail.com"; "postbox.com";
   "fastmail.com"; "promail.com"; "workmail.com"].

(** The four patterns; [first_name[0]] and [last_name[0]] raise
    [IndexError] on an empty name. *)
Definition email_patterns (first_name last_name : string) : M (list string) :=
  match Py.head_char first_name, Py.head_char last_name with
  | Some f, Some l =>
      mret [Py.lower first_name +:+ "." +:+ Py.lower last_name;
            String (Py.lower_char f) (Py.lower last_name);
            Py.lower first_name +:+ String (Py.lower_char l) "";
            Py.lower first_name +:+ "_" +:+ Py.lower last_name]
  | _, _ => raise IndexError
  end.

(** The upper end of the suffix range of an attempt:
    [random.randint(1, 9999) if attempt > 10 else random.randint(1, 99)]. *)
Definition suffix_max (attempt : nat) : N :=
  if decide (attempt > 10)%nat then 9999 else 99.

Definition email_candidate (first_name last_name : string) (attempt : nat) : M string :=
  patterns ← email_patterns first_name last_name;
  pattern ← choice patterns;
  num ← randint 1 (suffix_max attempt);
  domain ← choice domains;
  mret (pattern +:+ Py.str num +:+ "@" +:+ domain).

Definition email_attempt (first_name last_name : string) (attempt : nat)
  : M (string + unit) :=
  email ← email_candidate first_name last_name attempt;
  w ← get;
  if decide (email ∉ emails (tracker w)) then
    modify (with_tracker (add_email email));;
    mret (inl email)
  else
    modify (with_stats bump_collisions);;
    mret (inr tt).

Definition generate_unique_email (first_name last_name : string) : M string :=
  r ← for_range 50 (email_attempt first_name last_name);
  match r with
  | Returned email => mret email
  | Exhausted _ =>
      (* Fallback with timestamp *)
      t ← now_ms;
      let timestamp := t mod 1000000 in
      let email := Py.lower first_name +:+ "." +:+ Py.lower last_name
                   +:+ Py.str timestamp +:+ "@" +:+ nth 0%nat domains "" in
      modify (with_tracker (add_email email));;
      mret email
  end.

(** *** [generate_unique_name] *)

Definition full_name_of (first_name last_name : string) : string :=
  first_name +:+ " " +:+ last_name.

Definition name_attempt (attempt : nat) : M (string * string + string * string) :=
  gender ← choice ["male"; "female"];
  firsts ← dict_item Catalog.first_names gender;
  first_name ← choice firsts;
  last_name ← choice Catalog.last_names;
  let full_name := full_name_of first_name last_name in
  (* Check both full name and hash *)
  let name_hash := generate_unique_hash [first_name; last_name] in
  w ← get;
  if decide ((full_name ∉ full_names (tracker w)) ∧
             (name_hash ∉ name_hashes (tracker w))) then
    modify (with_tracker (add_full_name full_name));;
    modify (with_tracker (add_name_hash name_hash));;
    mret (inl (first_name, last_name))
  else
    modify (with_stats bump_collisions);;
    mret (inr (first_name, last_name)).

Definition generate_unique_name : M (string * string) :=
  r ← for_range 200 name_attempt;
  match r with
  | Returned name => mret name
  | Exhausted last =>
      (* Fallback: add middle initial or number *)
      modify (with_stats bump_regenerations);;
      w ← get;
      let unique_id := N.of_nat (size (full_names (tracker w))) in
      let middle_initial := Py.chr (65 + unique_id mod 26) in
      match last with
      | None => raise UnboundLocalError
      | Some (first_name, last_name) =>
          let first_name := first_name +:+ " " +:+ String middle_initial "" in
          let full_name := full_name_of first_name last_name in
          modify (with_tracker (add_full_name full_name));;
          let name_hash := generate_unique_hash [first_name; last_name] in
          modify (with_tracker (add_name_hash name_hash));;
          mret (first_name, last_name)
      end
  end.

(** *** [generate_unique_address] *)

Definition full_address_of (place : Place) (state_code : string) : string :=
  place_address place +:+ ", " +:+ place_city place +:+ ", " +:+ state_code
  +:+ " " +:+ place_zip place.

Definition address_attempt (state : string) (places : list Place) (attempt : nat)
  : M (Place + unit) :=
  place ← choice places;
  code ← dict_item Catalog.state_codes state;
  let full_address := full_address_of place code in
  w ← get;
  (* Allow reuse of addresses but track for statistics *)
  if decide (full_address ∉ addresses (tracker w) ∨ (attempt > length places)%nat) then
    (if decide (full_address ∉ addresses (tracker w)) then
       modify (with_tracker (add_address full_address))
     else mret tt);;
    mret (inl place)
  else
    modify (with_stats bump_collisions);;
    mret (inr tt).

Definition generate_unique_address (state : string) : M Place :=
  places ← dict_item Catalog.public_places state;
  let max_attempts := (length places * 2)%nat in
  r ← for_range max_attempts (address_attempt state places);
  match r with
  | Returned place => mret place
  | Exhausted _ =>
      (* If all addresses used, allow reuse *)
      choice places
  end.

(** *** [generate_persona] *)

Record Persona := mkPersona {
  ID : string;
  First_Name : string;
  Last_Name : string;
  Email : string;
  Phone : string;
  Location_Name : string;
  Street_Address : string;
  City : string;
  State : string;
  ZIP_Code : string;
  Full_Address : string;
  Type_ : string;
  (** The clock reading that [strftime] would format. *)
  Generated_At : N
}.

Definition set_Email (p : Persona) (email : string) : Persona :=
  mkPersona (ID p) (First_Name p) (Last_Name p) email (Phone p) (Location_Name p)
            (Street_Address p) (City p) (State p) (ZIP_Code p) (Full_Address p)
            (Type_ p) (Generated_At p).

(** [first_name.split()[0]]. *)
Definition base_first_name (first_name : string) : M string :=
  match Py.split_first first_name with
  | Some b => mret b
  | None => raise IndexError
  end.

(** [state and state != 'Mixed']. *)
Definition state_given (state : option string) : option string :=
  match state with
  | Some s => if decide (s ≠ "" ∧ s ≠ "Mixed") then Some s else None
  | None => None
  end.

Definition generate_persona (state : option string) : M Persona :=
  (* Select state *)
  selected_state ←
    match state_given state with
    | Some s => mret s
    | None => choice (Catalog.public_places.*1)
    end;
  (* Generate unique components *)
  '(first_name, last_name) ← generate_unique_name;
  base ← base_first_name first_name;
  email ← generate_unique_email base last_name;
  phone ← generate_phone_number selected_state;
  place ← generate_unique_address selected_state;
  (* Create persona *)
  w ← get;
  code ← dict_item Catalog.state_codes selected_state;
  now ← now_ms;
  let persona :=
    mkPersona ("P" +:+ Py.zfill 6 (N.of_nat (total_generated (stats w)) + 1))
              first_name last_name email phone
              (place_name place) (place_address place) (place_city place)
              code (place_zip place) (full_address_of place code)
              "Public Place" now in
  (* Generate and check persona hash for complete uniqueness *)
  let persona_hash :=
    generate_unique_hash [first_name; last_name; email; phone; Full_Address persona] in
  w ← get;
  '(persona, persona_hash) ←
    (if decide (persona_hash ∈ person_hashes (tracker w)) then
       (* Extremely rare case - regenerate with modifications *)
       modify (with_stats bump_regenerations);;
       base ← base_first_name first_name;
       n ← randint 1 99;
       email' ← generate_unique_email (base +:+ Py.str n) last_name;
       let persona := set_Email persona email' in
       mret (persona,
             generate_unique_hash
               [first_name; last_name; Email persona; phone; Full_Address persona])
     else mret (persona, persona_hash));
  modify (with_tracker (add_person_hash persona_hash));;
  modify (with_stats bump_total);;
  mret persona.

(** *** [generate_multiple_personas] *)

Fixpoint personas_loop (n : nat) (state : option string) (personas : list Persona)
  : M (list Persona) :=
  match n with
  | O => mret personas
  | S n' =>
      p ← generate_persona state;
      personas_loop n' state (personas ++ [p])
  end.

(** [range(count)] is empty for a non-positive [count]. *)
Definition generate_multiple_personas (count : Z) (state : option string)
  : M (list Persona) :=
  personas_loop (Z.to_nat count) state [].

End Methods.

(** * Reasoning about methods *)

Arguments MD5.hexdigest : simpl never.
Arguments generate_unique_hash : simpl never.
Arguments Py.str : simpl never.
Arguments Py.zfill : simpl never.
Arguments Py.lower : simpl never.
Arguments Catalog.male_names : simpl never.
Arguments Catalog.female_names : simpl never.
Arguments Catalog.last_names : simpl never.
Arguments Catalog.public_places : simpl never.
Arguments Catalog.state_codes : simpl never.
Arguments Catalog.area_codes : simpl never.

(** [wp m Q w]: running [m] from [w] ends in a result and a world that
    satisfy [Q].  Methods are total functions of the world, so this is a
    total-correctness statement. *)
Definition wp {A} (m : M A) (Q : result A → World → Prop) (w : World) : Prop :=
  Q (m w).1 (m w).2.

(** The postcondition of a method that must not raise. *)
Definition returns {A} (P : A → World → Prop) : result A → World → Prop :=
  λ r w, match r with Ok a => P a w | Raise _ => False end.

Section WP.

Context {A B : Type}.

Lemma wp_bind (m : M A) (k : A → M B) Q w :
  wp m (λ r w', match r with
                | Ok a => wp (k a) Q w'
                | Raise e => Q (Raise e) w'
                end) w →
  wp (m ≫= k) Q w.
Proof.
  unfold wp, mbind, M_bind. destruct (m w) as [[a|e] w']; simpl; auto.
Qed.

Lemma wp_mono (m : M A) (Q Q' : result A → World → Prop) w :
  (∀ r w', Q r w' → Q' r w') → wp m Q w → wp m Q' w.
Proof. unfold wp. auto. Qed.

Lemma wp_ret (a : A) (Q : result A → World → Prop) w : Q (Ok a) w → wp (mret a) Q w.
Proof. unfold wp. auto. Qed.

Lemma wp_raise e (Q : result A → World → Prop) w : Q (Raise e) w → wp (raise e) Q w.
Proof. unfold wp. auto. Qed.

Lemma wp_run (m : M A) Q w r w' : m w = (r, w') → wp m Q w → Q r w'.
Proof. unfold wp. intros ->. auto. Qed.

Lemma wp_returns (m : M A) (P : A → World → Prop) w :
  wp m (returns P) w → ∃ a w', m w = (Ok a, w') ∧ P a w'.
Proof.
  unfold wp, returns. destruct (m w) as [[a|e] w']; simpl; [eauto | tauto].
Qed.

End WP.

(** The monad laws, pointwise. *)
Lemma bind_assoc_run {A B C} (m : M A) (f : A → M B) (g : B → M C) w :
  ((m ≫= f) ≫= g) w = (m ≫= (λ x, f x ≫= g)) w.
Proof. unfold mbind, M_bind. by destruct (m w) as [[a|e] w']. Qed.

Lemma ret_bind_run {A B} (a : A) (f : A → M B) w : (mret a ≫= f) w = f a w.
Proof. done. Qed.

Lemma get_bind_run {B} (f : World → M B) w : (get ≫= f) w = f w w.
Proof. done. Qed.

Lemma bind_ext_run {A B} (m : M A) (f g : A → M B) w :
  (∀ a w', f a w' = g a w') → (m ≫= f) w = (m ≫= g) w.
Proof. intros H. unfold mbind, M_bind. destruct (m w) as [[a|e] w']; auto. Qed.

Lemma wp_get (Q : result World → World → Prop) w : Q (Ok w) w → wp get Q w.
Proof. unfold wp. auto. Qed.

Lemma wp_modify f (Q : result unit → World → Prop) w : Q (Ok tt) (f w) → wp (modify f) Q w.
Proof. unfold wp. auto. Qed.

Lemma wp_dict_item {V} (d : list (string * V)) key (Q : result V → World → Prop) w :
  match dict_lookup d key with
  | Some v => Q (Ok v) w
  | None => Q (Raise (KeyError key)) w
  end →
  wp (dict_item d key) Q w.
Proof. unfold wp, dict_item. destruct (dict_lookup d key); auto. Qed.

(** A loop invariant [I] kept by every fall-through, a postcondition for
    the [return] inside the body and for an exception, and a property [P]
    of the attempt index and the loop-local variables of a fall-through. *)
Lemma wp_for_from {R L} (body : nat → M (R + L)) (I : World → Prop) (P : nat → L → Prop)
    (Qr : R → World → Prop) (Qe : exn → World → Prop) :
  (∀ i w, I w →
     wp (body i) (λ r w', match r with
                          | Ok (inl x) => Qr x w'
                          | Ok (inr l) => I w' ∧ P i l
                          | Raise e => Qe e w'
                          end) w) →
  ∀ n i last w, I w →
    wp (for_from body i n last)
       (λ r w', match r with
                | Ok (Returned x) => Qr x w'
                | Ok (Exhausted last') =>
                    I w' ∧
                    ((n = 0%nat ∧ last' = last) ∨
                     (∃ l, last' = Some l ∧ P (i + n - 1)%nat l ∧ (0 < n)%nat))
                | Raise e => Qe e w'
                end) w.
Proof.
  intros Hbody n. induction n as [|n IH]; intros i last w HI; cbn [for_from].
  - apply wp_ret. auto.
  - apply wp_bind. eapply wp_mono; [|apply (Hbody i w HI)].
    intros [[x|l]|e] w' H; cbn beta iota in *.
    + apply wp_ret. exact H.
    + destruct H as [HI' Hl]. eapply wp_mono; [|apply (IH (S i) (Some l) w' HI')].
      intros [[x|last']|e] w'' H; cbn beta iota in *; auto.
      destruct H as (? & [[-> ->]|(l' & -> & HP & Hn)]); (split; [done|]); right.
      * exists l. replace (i + 1 - 1)%nat with i by lia. split; [done|]. split; [done|lia].
      * exists l'. replace (i + S n - 1)%nat with (S i + n - 1)%nat by lia.
        split; [done|]. split; [done|lia].
    + exact H.
Qed.

Section Primitives.

Variable rand : N → N.
Variable clock : N → N.

(** The world after one draw. *)
Definition drawn (w : World) : World := mkWorld (self w) (N.succ (rng_pos w)) (clock_pos w).
(** The world after one reading of the clock. *)
Definition ticked (w : World) : World := mkWorld (self w) (rng_pos w) (N.succ (clock_pos w)).

Lemma wp_draw (Q : result N → World → Prop) w :
  Q (Ok (rand (rng_pos w))) (drawn w) → wp (draw rand) Q w.
Proof. unfold wp. auto. Qed.

Lemma wp_now_ms (Q : result N → World → Prop) w :
  Q (Ok (clock (clock_pos w))) (ticked w) → wp (now_ms clock) Q w.
Proof. unfold wp. auto. Qed.

Lemma wp_choice {A} (l : list A) (Q : result A → World → Prop) w :
  l ≠ [] → (∀ x, x ∈ l → Q (Ok x) (drawn w)) → wp (choice rand l) Q w.
Proof.
  intros Hne HQ. destruct l as [|x0 l]; [done|].
  unfold choice. apply wp_bind, wp_draw, wp_ret, HQ.
  apply list_elem_of_In, nth_In.
  assert (rand (rng_pos w) `mod` N.of_nat (length (x0 :: l))
          < N.of_nat (length (x0 :: l)))%N as Hlt
    by (apply N.mod_upper_bound; simpl length; lia).
  revert Hlt. generalize (rand (rng_pos w) `mod` N.of_nat (length (x0 :: l)))%N.
  intros k Hk. lia.
Qed.

Lemma wp_choice_nil {A} (Q : result A → World → Prop) w :
  Q (Raise IndexError) w → wp (choice rand []) Q w.
Proof. unfold wp. auto. Qed.

Lemma wp_randint a b (Q : result N → World → Prop) w :
  (a ≤ b)%N → (∀ n, (a ≤ n ≤ b)%N → Q (Ok n) (drawn w)) → wp (randint rand a b) Q w.
Proof.
  intros Hab HQ. unfold randint. apply wp_bind, wp_draw, wp_ret, HQ.
  assert (rand (rng_pos w) `mod` (b - a + 1) < b - a + 1)%N as Hlt
    by (apply N.mod_upper_bound; lia).
  revert Hlt. generalize (rand (rng_pos w) `mod` (b - a + 1))%N.
  intros k Hk. lia.
Qed.

End Primitives.

Ltac wp_step :=
  lazymatch goal with
  | |- wp (_ ≫= _) _ _ => apply wp_bind
  | |- wp (mret _) _ _ => apply wp_ret
  | |- wp (raise _) _ _ => apply wp_raise
  | |- wp get _ _ => apply wp_get
  | |- wp (modify _) _ _ => apply wp_modify
  | |- wp (draw _) _ _ => apply wp_draw
  | |- wp (now_ms _) _ _ => apply wp_now_ms
  | |- wp (if decide ?P then _ else _) _ _ => destruct (decide P)
  end.

Ltac wp_steps := repeat wp_step.

(** Expose the components of every world in sight. *)
Ltac world_simpl :=
  unfold returns, with_tracker, with_stats in *; simpl in *.

(** ** Facts about the catalog, by evaluation *)

Ltac by_evaluation := apply (bool_decide_unpack _); vm_compute; reflexivity.

Lemma dict_lookup_elem {V} (d : list (string * V)) k v :
  dict_lookup d k = Some v → (k, v) ∈ d.
Proof.
  induction d as [|[k' v'] d IH]; simpl; [done|].
  destruct (decide (k' = k)) as [->|_].
  - intros [= ->]. apply list_elem_of_here.
  - intros H. apply list_elem_of_further. auto.
Qed.

Lemma dict_lookup_Forall {V} (P : string → V → Prop) (d : list (string * V)) k v :
  Forall (λ kv, P kv.1 kv.2) d → dict_lookup d k = Some v → P k v.
Proof.
  intros HF Hk. apply dict_lookup_elem in Hk.
  rewrite Forall_forall in HF. apply (HF _ Hk).
Qed.

Lemma dict_lookup_keys {V} (d : list (string * V)) k :
  k ∈ d.*1 → is_Some (dict_lookup d k).
Proof.
  induction d as [|[k' v'] d IH]; simpl.
  - intros H. by apply not_elem_of_nil in H.
  - intros H. destruct (decide (k' = k)); [eauto|].
    apply IH. apply elem_of_cons in H as [->|H]; [done|exact H].
Qed.

Lemma dict_lookup_in_keys {V} (d : list (string * V)) k v :
  dict_lookup d k = Some v → k ∈ d.*1.
Proof.
  intros H. apply dict_lookup_elem in H.
  apply list_elem_of_fmap. exists (k, v). auto.
Qed.

(** Every state has exactly five places. *)
Lemma public_places_five :
  Forall (λ kv : string * list Place, length kv.2 = 5%nat) Catalog.public_places.
Proof. by_evaluation. Qed.

(** Every state with places has a two-letter code. *)
Lemma public_places_coded :
  Forall (λ kv : string * list Place, is_Some (dict_lookup Catalog.state_codes kv.1))
         Catalog.public_places.
Proof.
  apply Forall_forall. intros [k v] Hk. apply dict_lookup_keys. simpl.
  assert (Hincl : Catalog.public_places.*1 ⊆ Catalog.state_codes.*1).
  { by_evaluation. }
  apply Hincl. apply list_elem_of_fmap. by exists (k, v).
Qed.

(** No list of area codes is empty, so neither is the list that
    [area_codes.get(state, ['555'])] yields. *)
Lemma area_codes_nonempty state : dict_get Catalog.area_codes state ["555"] ≠ [].
Proof.
  unfold dict_get. destruct (dict_lookup Catalog.area_codes state) as [v|] eqn:E; [|done].
  simpl. revert E. apply (dict_lookup_Forall (λ _ v, v ≠ [])).
  by_evaluation.
Qed.

Arguments dict_lookup : simpl never.

(** ** What each method does to the world *)

(** Only the collision counter and the cursor of [random] moved. *)
Definition quiet (w w' : World) : Prop :=
  tracker w' = tracker w ∧
  unique_regenerations (stats w') = unique_regenerations (stats w) ∧
  total_generated (stats w') = total_generated (stats w) ∧
  clock_pos w' = clock_pos w.

Lemma quiet_refl w : quiet w w.
Proof. by repeat split. Qed.

Lemma quiet_trans w1 w2 w3 : quiet w1 w2 → quiet w2 w3 → quiet w1 w3.
Proof. unfold quiet. intros (-> & -> & -> & ->) (-> & -> & -> & ->). done. Qed.

Lemma quiet_drawn w w' : quiet w w' → quiet w (drawn w').
Proof. done. Qed.

Lemma quiet_collision w w' : quiet w w' → quiet w (with_stats bump_collisions w').
Proof. done. Qed.

Definition first_name_pool : list string := Catalog.male_names ++ Catalog.female_names.

(** A pair that an attempt of the name generator can draw. *)
Definition catalog_name (f l : string) : Prop :=
  f ∈ first_name_pool ∧ l ∈ Catalog.last_names.

Definition name_key (f l : string) : string := generate_unique_hash [f; l].

(** Both name sets updated together. *)
Definition record_name (f l : string) (t : Tracker) : Tracker :=
  add_name_hash (name_key f l) (add_full_name (full_name_of f l) t).

(** The middle initial the fallback derives from the number of tracked names. *)
Definition middle_initial_of (t : Tracker) : string :=
  String (Py.chr (65 + N.of_nat (size (full_names t)) `mod` 26)) "".

Section NameSpec.

Variable rand : N → N.

Lemma first_names_lookup gender firsts :
  gender ∈ ["male"; "female"] →
  dict_lookup Catalog.first_names gender = Some firsts →
  firsts ≠ [] ∧ firsts ⊆ first_name_pool.
Proof.
  intros Hg. unfold first_name_pool.
  repeat (apply elem_of_cons in Hg as [->|Hg]);
    [| |by apply not_elem_of_nil in Hg];
    (intros [= <-]; split; [done|]); intros x Hx; apply elem_of_app; auto.
Qed.

Lemma name_attempt_spec i w :
  wp (name_attempt rand i)
     (returns (λ r w',
        match r with
        | inl (f, l) =>
            catalog_name f l ∧
            (full_name_of f l ∉ full_names (tracker w)) ∧
            (name_key f l ∉ name_hashes (tracker w)) ∧
            tracker w' = record_name f l (tracker w) ∧
            stats w' = stats w ∧ clock_pos w' = clock_pos w
        | inr (f, l) => catalog_name f l ∧ quiet w w'
        end)) w.
Proof.
  unfold name_attempt.
  wp_step. apply wp_choice; [done|]. intros gender Hg.
  wp_step. apply wp_dict_item.
  destruct (dict_lookup Catalog.first_names gender) as [firsts|] eqn:Hf.
  2:{ exfalso. repeat (apply elem_of_cons in Hg as [->|Hg]); try discriminate.
      by apply not_elem_of_nil in Hg. }
  destruct (first_names_lookup _ _ Hg Hf) as [Hne Hsub].
  wp_step. apply wp_choice; [done|]. intros f Hfirst.
  wp_step. apply wp_choice; [done|]. intros l Hlast.
  wp_steps; unfold quiet; world_simpl.
  - repeat split; try tauto. by apply Hsub.
  - repeat split; try tauto. by apply Hsub.
Qed.

(** The retry loop: a [return] hands out a pair that both membership
    tests found new; a loop that runs out leaves the tracker as it was. *)
Lemma name_loop_spec w :
  wp (for_range 200 (name_attempt rand))
     (returns (λ r w',
        match r with
        | Returned (f, l) =>
            catalog_name f l ∧
            (full_name_of f l ∉ full_names (tracker w)) ∧
            (name_key f l ∉ name_hashes (tracker w)) ∧
            tracker w' = record_name f l (tracker w) ∧
            unique_regenerations (stats w') = unique_regenerations (stats w) ∧
            total_generated (stats w') = total_generated (stats w) ∧
            clock_pos w' = clock_pos w
        | Exhausted last =>
            quiet w w' ∧ ∃ c l, last = Some (c, l) ∧ catalog_name c l
        end)) w.
Proof.
  unfold for_range.
  eapply wp_mono;
    [|apply (wp_for_from (name_attempt rand) (quiet w)
               (λ _ '(f, l), catalog_name f l)
               (λ '(f, l) w',
                  ∃ w1, quiet w w1 ∧ catalog_name f l ∧
                    (full_name_of f l ∉ full_names (tracker w1)) ∧
                    (name_key f l ∉ name_hashes (tracker w1)) ∧
                    tracker w' = record_name f l (tracker w1) ∧
                    stats w' = stats w1 ∧ clock_pos w' = clock_pos w1)
               (λ _ _, False))].
  - intros [[[f l]|last]|e] w'; cbn beta iota; [| |done].
    + intros (w1 & (Ht & Hr & Hn & Hc) & Hcat & Hfull & Hkey & Ht' & Hs' & Hc').
      unfold returns. rewrite Ht in Hfull, Hkey, Ht'. rewrite Hs'.
      repeat (split; [done|]). congruence.
    + intros (Hq & [[? _]|([c l] & -> & Hlast & _)]); [done|].
      unfold returns. split; [done|]. by exists c, l.
  - intros i w1 Hq. eapply wp_mono; [|apply name_attempt_spec].
    intros [[[f l]|[f l]]|e] w'; cbn beta iota; try done.
    + intros H. exists w1. auto.
    + intros [Hcat Hq']. split; [|done]. by eapply quiet_trans.
  - apply quiet_refl.
Qed.

Lemma generate_unique_name_spec w :
  wp (generate_unique_name rand)
     (returns (λ '(f, l) w',
        tracker w' = record_name f l (tracker w) ∧
        total_generated (stats w') = total_generated (stats w) ∧
        clock_pos w' = clock_pos w ∧
        ((catalog_name f l ∧
          (full_name_of f l ∉ full_names (tracker w)) ∧
          (name_key f l ∉ name_hashes (tracker w)) ∧
          unique_regenerations (stats w') = unique_regenerations (stats w))
         ∨
         (∃ c, catalog_name c l ∧
               f = c +:+ " " +:+ middle_initial_of (tracker w) ∧
               unique_regenerations (stats w') = S (unique_regenerations (stats w)))))) w.
Proof.
  unfold generate_unique_name. wp_step.
  eapply wp_mono; [|apply name_loop_spec].
  intros [[[f l]|last]|e] w'; cbn beta iota; [| |done].
  - intros (Hcat & Hfull & Hkey & Ht & Hr & Hn & Hc).
    wp_step. world_simpl. repeat (split; [done|]). left. done.
  - intros ((Ht & Hr & Hn & Hc) & c & l & -> & Hcat).
    wp_steps. unfold middle_initial_of. world_simpl. rewrite Ht, Hr, Hn, Hc.
    split; [done|]. split; [done|]. split; [done|]. right. exists c. done.
Qed.

End NameSpec.

(** The four local parts an attempt chooses from. *)
Definition email_local_parts (first_name last_name : string) (f l : ascii) : list string :=
  [Py.lower first_name +:+ "." +:+ Py.lower last_name;
   String (Py.lower_char f) (Py.lower last_name);
   Py.lower first_name +:+ String (Py.lower_char l) "";
   Py.lower first_name +:+ "_" +:+ Py.lower last_name].

(** An address built by attempt [attempt] of the email generator. *)
Definition email_shape (first_name last_name : string) (attempt : nat) (e : string) : Prop :=
  ∃ f l pattern num domain,
    Py.head_char first_name = Some f ∧ Py.head_char last_name = Some l ∧
    pattern ∈ email_local_parts first_name last_name f l ∧
    (1 ≤ num ≤ suffix_max attempt)%N ∧
    domain ∈ domains ∧
    e = pattern +:+ Py.str num +:+ "@" +:+ domain.

(** The address of the timestamp fallback. *)
Definition fallback_email (first_name last_name : string) (t : N) : string :=
  Py.lower first_name +:+ "." +:+ Py.lower last_name
  +:+ Py.str (t `mod` 1000000)%N +:+ "@" +:+ "email.com".

Lemma suffix_max_pos attempt : (1 ≤ suffix_max attempt)%N.
Proof. unfold suffix_max. case_decide; lia. Qed.

Section EmailSpec.

Variable rand : N → N.
Variable clock : N → N.

Lemma email_candidate_spec first_name last_name attempt w :
  first_name ≠ "" → last_name ≠ "" →
  wp (email_candidate rand first_name last_name attempt)
     (returns (λ e w',
        email_shape first_name last_name attempt e ∧
        w' = drawn (drawn (drawn w)))) w.
Proof.
  intros Hf Hl. unfold email_candidate, email_patterns.
  destruct first_name as [|f first']; [done|].
  destruct last_name as [|l last']; [done|].
  cbn [Py.head_char]. wp_steps.
  apply wp_choice; [done|]. intros pattern Hp.
  wp_step. apply wp_randint; [apply suffix_max_pos|]. intros num Hnum.
  wp_step. apply wp_choice; [done|]. intros domain Hd.
  wp_step. split; [|done].
  exists f, l, pattern, num, domain. done.
Qed.

Lemma email_attempt_spec first_name last_name attempt w :
  first_name ≠ "" → last_name ≠ "" →
  wp (email_attempt rand first_name last_name attempt)
     (returns (λ r w',
        match r with
        | inl e =>
            email_shape first_name last_name attempt e ∧
            (e ∉ emails (tracker w)) ∧
            tracker w' = add_email e (tracker w) ∧
            stats w' = stats w ∧ clock_pos w' = clock_pos w
        | inr _ => quiet w w'
        end)) w.
Proof.
  intros Hf Hl. unfold email_attempt. wp_step.
  eapply wp_mono; [|by apply email_candidate_spec].
  intros [e|err] w' H; [|done]. destruct H as [Hshape ->].
  wp_steps; unfold quiet; world_simpl; auto.
Qed.

Lemma email_loop_spec first_name last_name w :
  first_name ≠ "" → last_name ≠ "" →
  wp (for_range 50 (email_attempt rand first_name last_name))
     (returns (λ r w',
        match r with
        | Returned e =>
            (∃ attempt, email_shape first_name last_name attempt e) ∧
            (e ∉ emails (tracker w)) ∧
            tracker w' = add_email e (tracker w) ∧
            unique_regenerations (stats w') = unique_regenerations (stats w) ∧
            total_generated (stats w') = total_generated (stats w) ∧
            clock_pos w' = clock_pos w
        | Exhausted _ => quiet w w'
        end)) w.
Proof.
  intros Hf Hl. unfold for_range.
  eapply wp_mono;
    [|apply (wp_for_from (email_attempt rand first_name last_name) (quiet w)
               (λ _ _, True)
               (λ e w',
                  ∃ w1 attempt, quiet w w1 ∧
                    email_shape first_name last_name attempt e ∧
                    (e ∉ emails (tracker w1)) ∧
                    tracker w' = add_email e (tracker w1) ∧
                    stats w' = stats w1 ∧ clock_pos w' = clock_pos w1)
               (λ _ _, False))].
  - intros [[e|last]|err] w'; cbn beta iota; [| |done].
    + intros (w1 & attempt & (Ht & Hr & Hn & Hc) & Hshape & Hnew & Ht' & Hs' & Hc').
      unfold returns. rewrite Ht in Hnew, Ht'. rewrite Hs'.
      split; [eauto|]. repeat (split; [done|]). congruence.
    + intros (Hq & _). done.
  - intros i w1 Hq. eapply wp_mono; [|by apply email_attempt_spec].
    intros [[e|[]]|err] w'; cbn beta iota; try done.
    + intros H. exists w1, i. auto.
    + intros Hq'. split; [|done]. by eapply quiet_trans.
  - apply quiet_refl.
Qed.

Lemma generate_unique_email_spec first_name last_name w :
  first_name ≠ "" → last_name ≠ "" →
  wp (generate_unique_email rand clock first_name last_name)
     (returns (λ e w',
        tracker w' = add_email e (tracker w) ∧
        unique_regenerations (stats w') = unique_regenerations (stats w) ∧
        total_generated (stats w') = total_generated (stats w) ∧
        (((e ∉ emails (tracker w)) ∧
          (∃ attempt, email_shape first_name last_name attempt e) ∧
          clock_pos w' = clock_pos w)
         ∨
         (e = fallback_email first_name last_name (clock (clock_pos w)) ∧
          clock_pos w' = N.succ (clock_pos w))))) w.
Proof.
  intros Hf Hl. unfold generate_unique_email. wp_step.
  eapply wp_mono; [|by apply email_loop_spec].
  intros [[e|last]|err] w'; cbn beta iota; [| |done].
  - intros (Hshape & Hnew & Ht & Hr & Hn & Hc).
    wp_step. world_simpl. repeat (split; [done|]). left. done.
  - intros (Ht & Hr & Hn & Hc).
    wp_steps. world_simpl. rewrite Ht, Hr, Hn, Hc.
    split; [done|]. split; [done|]. split; [done|]. right. done.
Qed.

End EmailSpec.

(** A number the regular path of the phone generator can format. *)
Definition regular_phone (area_code p : string) : Prop :=
  ∃ exchange subscriber,
    (200 ≤ exchange ≤ 999)%N ∧ (1000 ≤ subscriber ≤ 9999)%N ∧
    p = format_phone area_code (Py.str exchange) (Py.str subscriber).

(** The number of the fallback, from the count of tracked numbers. *)
Definition fallback_phone (area_code : string) (t : Tracker) : string :=
  format_phone area_code "999" (Py.zfill 4 (N.of_nat (size (phones t)))).

Section PhoneSpec.

Variable rand : N → N.

Lemma phone_attempt_spec state attempt w :
  wp (phone_attempt rand state attempt)
     (returns (λ r w',
        match r with
        | inl p =>
            (∃ area_code, area_code ∈ dict_get Catalog.area_codes state ["555"] ∧
                          regular_phone area_code p) ∧
            (p ∉ phones (tracker w)) ∧
            tracker w' = add_phone p (tracker w) ∧
            stats w' = stats w ∧ clock_pos w' = clock_pos w
        | inr area_code =>
            area_code ∈ dict_get Catalog.area_codes state ["555"] ∧ quiet w w'
        end)) w.
Proof.
  unfold phone_attempt.
  wp_step. apply wp_choice; [apply area_codes_nonempty|]. intros area_code Ha.
  wp_step. apply wp_randint; [lia|]. intros exchange He.
  wp_step. apply wp_randint; [lia|]. intros subscriber Hs.
  wp_steps; unfold quiet; world_simpl.
  - split; [|done]. exists area_code. split; [done|].
    exists exchange, subscriber. done.
  - done.
Qed.

Lemma phone_loop_spec state w :
  wp (for_range 100 (phone_attempt rand state))
     (returns (λ r w',
        match r with
        | Returned p =>
            (∃ area_code, area_code ∈ dict_get Catalog.area_codes state ["555"] ∧
                          regular_phone area_code p) ∧
            (p ∉ phones (tracker w)) ∧
            tracker w' = add_phone p (tracker w) ∧
            unique_regenerations (stats w') = unique_regenerations (stats w) ∧
            total_generated (stats w') = total_generated (stats w) ∧
            clock_pos w' = clock_pos w
        | Exhausted last =>
            quiet w w' ∧
            ∃ area_code, last = Some area_code ∧
                         area_code ∈ dict_get Catalog.area_codes state ["555"]
        end)) w.
Proof.
  unfold for_range.
  eapply wp_mono;
    [|apply (wp_for_from (phone_attempt rand state) (quiet w)
               (λ _ area_code, area_code ∈ dict_get Catalog.area_codes state ["555"])
               (λ p w',
                  ∃ w1, quiet w w1 ∧
                    (∃ area_code, area_code ∈ dict_get Catalog.area_codes state ["555"] ∧
                                  regular_phone area_code p) ∧
                    (p ∉ phones (tracker w1)) ∧
                    tracker w' = add_phone p (tracker w1) ∧
                    stats w' = stats w1 ∧ clock_pos w' = clock_pos w1)
               (λ _ _, False))].
  - intros [[p|last]|err] w'; cbn beta iota; [| |done].
    + intros (w1 & (Ht & Hr & Hn & Hc) & Harea & Hnew & Ht' & Hs' & Hc').
      unfold returns. rewrite Ht in Hnew, Ht'. rewrite Hs'.
      repeat (split; [done|]). congruence.
    + intros (Hq & [[? _]|(area_code & -> & Hlast & _)]); [done|].
      unfold returns. split; [done|]. by exists area_code.
  - intros i w1 Hq. eapply wp_mono; [|apply phone_attempt_spec].
    intros [[p|area_code]|err] w'; cbn beta iota; try done.
    + intros H. exists w1. auto.
    + intros [Ha Hq']. split; [|done]. by eapply quiet_trans.
  - apply quiet_refl.
Qed.

Lemma generate_phone_number_spec state w :
  wp (generate_phone_number rand state)
     (returns (λ p w',
        tracker w' = add_phone p (tracker w) ∧
        unique_regenerations (stats w') = unique_regenerations (stats w) ∧
        total_generated (stats w') = total_generated (stats w) ∧
        clock_pos w' = clock_pos w ∧
        ∃ area_code, area_code ∈ dict_get Catalog.area_codes state ["555"] ∧
          ((regular_phone area_code p ∧ (p ∉ phones (tracker w)))
           ∨ p = fallback_phone area_code (tracker w)))) w.
Proof.
  unfold generate_phone_number. wp_step.
  eapply wp_mono; [|apply phone_loop_spec].
  intros [[p|last]|err] w'; cbn beta iota; [| |done].
  - intros ((area_code & Ha & Hreg) & Hnew & Ht & Hr & Hn & Hc).
    wp_step. world_simpl. repeat (split; [done|]).
    exists area_code. split; [done|]. left. done.
  - intros ((Ht & Hr & Hn & Hc) & area_code & -> & Ha).
    wp_steps. unfold fallback_phone. world_simpl. rewrite Ht, Hr, Hn, Hc.
    split; [done|]. split; [done|]. split; [done|]. split; [done|].
    exists area_code. split; [done|]. right. done.
Qed.

End PhoneSpec.

Lemma add_address_tracked a t : a ∈ addresses t → add_address a t = t.
Proof.
  intros H. destruct t. unfold add_address. simpl in *. f_equal.
  rewrite set_add_union. by apply subseteq_union_1_L, singleton_subseteq_l.
Qed.

Section AddressSpec.

Variable rand : N → N.

Lemma address_attempt_spec state places code attempt w :
  places ≠ [] →
  dict_lookup Catalog.state_codes state = Some code →
  wp (address_attempt rand state places attempt)
     (returns (λ r w',
        match r with
        | inl place =>
            place ∈ places ∧
            tracker w' = add_address (full_address_of place code) (tracker w) ∧
            stats w' = stats w ∧ clock_pos w' = clock_pos w
        | inr _ => quiet w w' ∧ ¬ (attempt > length places)%nat
        end)) w.
Proof.
  intros Hne Hcode. unfold address_attempt.
  wp_step. apply wp_choice; [done|]. intros place Hp.
  wp_step. apply wp_dict_item. rewrite Hcode.
  wp_steps; unfold quiet; world_simpl.
  - done.
  - rewrite add_address_tracked; [done|]. by apply dec_stable.
  - repeat split; tauto.
Qed.

(** An unknown state: [self.public_places[state]] raises before anything
    else happens. *)
Lemma generate_unique_address_unknown state w :
  dict_lookup Catalog.public_places state = None →
  generate_unique_address rand state w = (Raise (KeyError state), w).
Proof.
  intros H. unfold generate_unique_address, dict_item, mbind, M_bind, raise.
  by rewrite H.
Qed.

Lemma generate_unique_address_spec state places code w :
  dict_lookup Catalog.public_places state = Some places →
  dict_lookup Catalog.state_codes state = Some code →
  (2 ≤ length places)%nat →
  wp (generate_unique_address rand state)
     (returns (λ place w',
        place ∈ places ∧
        tracker w' = add_address (full_address_of place code) (tracker w) ∧
        unique_regenerations (stats w') = unique_regenerations (stats w) ∧
        total_generated (stats w') = total_generated (stats w) ∧
        clock_pos w' = clock_pos w)) w.
Proof.
  intros Hplaces Hcode Hlen. unfold generate_unique_address, for_range.
  assert (places ≠ []) as Hne by (intros ->; simpl in Hlen; lia).
  wp_step. apply wp_dict_item. rewrite Hplaces. wp_step.
  eapply wp_mono;
    [|apply (wp_for_from (address_attempt rand state places) (quiet w)
               (λ i _, ¬ (i > length places)%nat)
               (λ place w',
                  ∃ w1, quiet w w1 ∧ place ∈ places ∧
                    tracker w' = add_address (full_address_of place code) (tracker w1) ∧
                    stats w' = stats w1 ∧ clock_pos w' = clock_pos w1)
               (λ _ _, False))].
  - intros [[place|last]|err] w'; cbn beta iota; [| |done].
    + intros (w1 & (Ht & Hr & Hn & Hc) & Hin & Ht' & Hs' & Hc').
      wp_step. world_simpl. rewrite Ht in Ht'. rewrite Hs'.
      split; [done|]. split; [done|]. split; [done|]. split; [done|]. congruence.
    + intros (_ & [[? _]|(_ & _ & Hlast & _)]); exfalso; lia.
  - intros i w1 Hq. eapply wp_mono; [|by apply address_attempt_spec].
    intros [[place|[]]|err] w'; cbn beta iota; try done.
    + intros H. exists w1. auto.
    + intros [Hq' Hi]. split; [|done]. by eapply quiet_trans.
  - apply quiet_refl.
Qed.

End AddressSpec.

(** ** Names as tokens *)

(** A non-empty string without whitespace. *)
Fixpoint no_space (s : string) : bool :=
  match s with
  | EmptyString => true
  | String c s' => negb (Py.isspace c) && no_space s'
  end.

Definition is_word (s : string) : bool :=
  match s with
  | EmptyString => false
  | _ => no_space s
  end.

Lemma take_word_app c rest :
  no_space c = true → Py.take_word (c +:+ String " " rest) = c.
Proof.
  induction c as [|a c IH]; [done|]. cbn [no_space]. intros [Ha Hc]%andb_prop.
  change (String a c +:+ String " " rest) with (String a (c +:+ String " " rest)).
  cbn [Py.take_word]. apply negb_true_iff in Ha. rewrite Ha. f_equal. auto.
Qed.

Lemma take_word_whole c : no_space c = true → Py.take_word c = c.
Proof.
  induction c as [|a c IH]; [done|]. cbn [no_space]. intros [Ha Hc]%andb_prop.
  cbn [Py.take_word]. apply negb_true_iff in Ha. rewrite Ha. f_equal. auto.
Qed.

Lemma split_first_word c : is_word c = true → Py.split_first c = Some c.
Proof.
  destruct c as [|a c]; [done|]. cbn [is_word]. intros H.
  pose proof H as [Ha Hc]%andb_prop. apply negb_true_iff in Ha.
  unfold Py.split_first. cbn [Py.lstrip]. rewrite Ha. by rewrite take_word_whole.
Qed.

Lemma split_first_word_app c rest :
  is_word c = true → Py.split_first (c +:+ String " " rest) = Some c.
Proof.
  destruct c as [|a c]; [done|]. cbn [is_word]. intros H.
  pose proof H as [Ha Hc]%andb_prop. apply negb_true_iff in Ha.
  unfold Py.split_first.
  change (String a c +:+ String " " rest) with (String a (c +:+ String " " rest)).
  cbn [Py.lstrip]. rewrite Ha.
  change (String a (c +:+ String " " rest)) with (String a c +:+ String " " rest).
  by rewrite take_word_app.
Qed.

Lemma first_names_words : Forall (λ c, is_word c = true) first_name_pool.
Proof. by_evaluation. Qed.

Lemma last_names_words : Forall (λ c, is_word c = true) Catalog.last_names.
Proof. by_evaluation. Qed.

Lemma is_word_nonempty c : is_word c = true → c ≠ "".
Proof. by destruct c. Qed.

Lemma catalog_name_words f l : catalog_name f l → is_word f = true ∧ is_word l = true.
Proof.
  intros [Hf Hl]. split.
  - pose proof first_names_words as H. rewrite Forall_forall in H. auto.
  - pose proof last_names_words as H. rewrite Forall_forall in H. auto.
Qed.

(** The names the generator returns: a catalog pair, or a catalog pair
    with a middle initial appended to the first name. *)
Definition issued_name (f l : string) : Prop :=
  ∃ c, catalog_name c l ∧ (f = c ∨ ∃ m, f = c +:+ String " " m).

Lemma issued_name_base f l :
  issued_name f l → ∃ c, Py.split_first f = Some c ∧ c ≠ "" ∧ l ≠ "" ∧ c ∈ first_name_pool.
Proof.
  intros (c & Hcat & Hf). destruct (catalog_name_words _ _ Hcat) as [Hc Hl].
  exists c. split; [|split; [|split]]; try by apply is_word_nonempty.
  - destruct Hf as [->|[m ->]]; [by apply split_first_word|by apply split_first_word_app].
  - apply Hcat.
Qed.

(** ** The phases of [generate_persona] *)

(** What [generate_persona] has in hand when it assembles the record. *)
Record Components := mkComponents {
  c_state : string;
  c_first : string;
  c_last : string;
  c_base : string;
  c_email : string;
  c_phone : string;
  c_place : Place;
  c_code : string;
  c_total : nat;
  c_now : N
}.

(** The record of [# Create persona], with a given email. *)
Definition assemble (c : Components) (email : string) : Persona :=
  mkPersona ("P" +:+ Py.zfill 6 (N.of_nat (c_total c) + 1))
            (c_first c) (c_last c) email (c_phone c)
            (place_name (c_place c)) (place_address (c_place c)) (place_city (c_place c))
            (c_code c) (place_zip (c_place c)) (full_address_of (c_place c) (c_code c))
            "Public Place" (c_now c).

(** The composite fingerprint over first name, last name, email, phone and
    full address. *)
Definition fingerprint (c : Components) (email : string) : string :=
  generate_unique_hash
    [c_first c; c_last c; email; c_phone c; full_address_of (c_place c) (c_code c)].

Section Phases.

Variable rand : N → N.
Variable clock : N → N.

Definition select_state (state : option string) : M string :=
  match state_given state with
  | Some s => mret s
  | None => choice rand (Catalog.public_places.*1)
  end.

(** Name, email and phone, in this order. *)
Definition persona_fields (selected_state : string)
  : M (string * string * string * string * string) :=
  '(first_name, last_name) ← generate_unique_name rand;
  base ← base_first_name first_name;
  email ← generate_unique_email rand clock base last_name;
  phone ← generate_phone_number rand selected_state;
  mret (first_name, last_name, base, email, phone).

Definition persona_components (state : option string) : M Components :=
  selected_state ← select_state state;
  '(first_name, last_name, base, email, phone) ← persona_fields selected_state;
  place ← generate_unique_address rand selected_state;
  w ← get;
  code ← dict_item Catalog.state_codes selected_state;
  now ← now_ms clock;
  mret (mkComponents selected_state first_name last_name base email phone place code
                     (total_generated (stats w)) now).

(** The single corrective pass. *)
Definition corrective_pass (c : Components) : M string :=
  modify (with_stats bump_regenerations);;
  base ← base_first_name (c_first c);
  n ← randint rand 1 99;
  generate_unique_email rand clock (base +:+ Py.str n) (c_last c).

Definition finish_persona (c : Components) : M Persona :=
  w ← get;
  email ←
    (if decide (fingerprint c (c_email c) ∈ person_hashes (tracker w)) then
       corrective_pass c
     else mret (c_email c));
  modify (with_tracker (add_person_hash (fingerprint c email)));;
  modify (with_stats bump_total);;
  mret (assemble c email).

Lemma generate_persona_phases state w :
  generate_persona rand clock state w
  = (persona_components state ≫= finish_persona) w.
Proof.
  unfold generate_persona, persona_components, finish_persona, corrective_pass,
    persona_fields.
  fold (select_state state).
  repeat first
    [ rewrite bind_assoc_run
    | rewrite ret_bind_run
    | rewrite get_bind_run
    | apply bind_ext_run; intros ? ?
    | match goal with x : (_ * _)%type |- _ => destruct x end
    | progress (unfold fingerprint, assemble, set_Email;
                cbn [c_first c_last c_email c_phone c_place c_code c_total c_now
                     Full_Address Email])
    | match goal with |- context [decide ?P] => destruct (decide P) end ];
    reflexivity.
Qed.

End Phases.

(** How a name, an email and a phone number relate to the tracker they
    were generated against. *)
Definition name_outcome (t : Tracker) (f l : string) (fell_back : bool) : Prop :=
  if fell_back then
    ∃ c, catalog_name c l ∧ f = c +:+ " " +:+ middle_initial_of t
  else
    catalog_name f l ∧ (full_name_of f l ∉ full_names t) ∧ (name_key f l ∉ name_hashes t).

Definition email_outcome (t : Tracker) (first_name last_name e : string) : Prop :=
  ((e ∉ emails t) ∧ ∃ attempt, email_shape first_name last_name attempt e)
  ∨ ∃ ms, e = fallback_email first_name last_name ms.

Definition phone_outcome (t : Tracker) (state p : string) : Prop :=
  ∃ area_code, area_code ∈ dict_get Catalog.area_codes state ["555"] ∧
    ((regular_phone area_code p ∧ (p ∉ phones t)) ∨ p = fallback_phone area_code t).

Lemma name_outcome_issued t f l b : name_outcome t f l b → issued_name f l.
Proof.
  destruct b; simpl.
  - intros (c & Hc & ->). exists c. split; [done|]. right. eauto.
  - intros (Hc & _). exists f. auto.
Qed.

Section PhaseSpecs.

Variable rand : N → N.
Variable clock : N → N.

Lemma wp_base_first_name f l (Q : result string → World → Prop) w :
  issued_name f l →
  (∀ c, Py.split_first f = Some c → c ≠ "" → l ≠ "" → c ∈ first_name_pool → Q (Ok c) w) →
  wp (base_first_name f) Q w.
Proof.
  intros Hi HQ. destruct (issued_name_base _ _ Hi) as (c & Hs & Hc & Hl & Hin).
  unfold base_first_name. rewrite Hs. apply wp_ret. auto.
Qed.

Lemma persona_fields_spec state w :
  wp (persona_fields rand clock state)
     (returns (λ '(f, l, base, e, p) w',
        tracker w' = add_phone p (add_email e (record_name f l (tracker w))) ∧
        total_generated (stats w') = total_generated (stats w) ∧
        (clock_pos w ≤ clock_pos w')%N ∧
        Py.split_first f = Some base ∧ base ∈ first_name_pool ∧
        base ≠ "" ∧ l ≠ "" ∧
        email_outcome (tracker w) base l e ∧
        phone_outcome (tracker w) state p ∧
        ∃ fell_back : bool,
          name_outcome (tracker w) f l fell_back ∧
          unique_regenerations (stats w')
          = (unique_regenerations (stats w) + if fell_back then 1 else 0)%nat)) w.
Proof.
  unfold persona_fields. wp_step.
  eapply wp_mono; [|apply generate_unique_name_spec].
  intros [[f l]|err] w1; [|done]. intros (Ht1 & Hn1 & Hc1 & Hname).
  assert (∃ b : bool, name_outcome (tracker w) f l b ∧
            unique_regenerations (stats w1)
            = (unique_regenerations (stats w) + if b then 1 else 0)%nat)
    as (b & Hout & Hr1).
  { destruct Hname as [(? & ? & ? & ->)|(c & ? & ? & ->)].
    - exists false. split; [done|lia].
    - exists true. split; [by exists c|lia]. }
  wp_step. apply (wp_base_first_name f l); [by eapply name_outcome_issued|].
  intros base Hbase Hbne Hlne Hpool.
  wp_step. eapply wp_mono; [|by apply generate_unique_email_spec].
  intros [e|err] w2; [|done]. intros (Ht2 & Hr2 & Hn2 & Hemail).
  wp_step. eapply wp_mono; [|apply generate_phone_number_spec].
  intros [p|err] w3; [|done]. intros (Ht3 & Hr3 & Hn3 & Hc3 & Hphone).
  wp_step. world_simpl.
  split; [by rewrite Ht3, Ht2, Ht1|].
  split; [congruence|].
  split; [destruct Hemail as [(_ & _ & ?)|(_ & ?)]; lia|].
  split; [done|]. split; [done|]. split; [done|]. split; [done|].
  split.
  { destruct Hemail as [(Hnew & Hshape & _)|(-> & _)].
    - left. rewrite Ht1 in Hnew. done.
    - right. eauto. }
  split.
  { destruct Hphone as (a & Ha & H). exists a. split; [done|].
    rewrite Ht2, Ht1 in H. done. }
  exists b. split; [done|]. congruence.
Qed.

(** The state a request resolves to. *)
Definition resolves_to (state : option string) (s : string) : Prop :=
  match state_given state with
  | Some s' => s = s'
  | None => s ∈ Catalog.public_places.*1
  end.

Lemma wp_select_state state (Q : result string → World → Prop) w :
  (∀ s w', resolves_to state s → self w' = self w → clock_pos w' = clock_pos w →
           Q (Ok s) w') →
  wp (select_state rand state) Q w.
Proof.
  intros HQ. unfold select_state, resolves_to in *.
  destruct (state_given state) as [s|].
  - apply wp_ret. by apply HQ.
  - apply wp_choice; [done|]. intros s Hs. by apply HQ.
Qed.

(** The facts that hold once the three fields are generated for state [s]
    from world [w]. *)
Definition fields_generated (w : World) (s : string) (f l base e p : string)
    (w' : World) : Prop :=
  tracker w' = add_phone p (add_email e (record_name f l (tracker w))) ∧
  total_generated (stats w') = total_generated (stats w) ∧
  Py.split_first f = Some base ∧ base ∈ first_name_pool ∧
  base ≠ "" ∧ l ≠ "" ∧
  email_outcome (tracker w) base l e ∧
  phone_outcome (tracker w) s p ∧
  ∃ fell_back : bool,
    name_outcome (tracker w) f l fell_back ∧
    unique_regenerations (stats w')
    = (unique_regenerations (stats w) + if fell_back then 1 else 0)%nat.

(** A state of the catalog: the components are generated, none raises. *)
Lemma persona_components_spec state w :
  (∀ s, resolves_to state s → is_Some (dict_lookup Catalog.public_places s)) →
  wp (persona_components rand clock state)
     (returns (λ c w',
        ∃ places w3,
          resolves_to state (c_state c) ∧
          dict_lookup Catalog.public_places (c_state c) = Some places ∧
          dict_lookup Catalog.state_codes (c_state c) = Some (c_code c) ∧
          c_place c ∈ places ∧
          fields_generated w (c_state c) (c_first c) (c_last c) (c_base c)
                           (c_email c) (c_phone c) w3 ∧
          tracker w' = add_address (full_address_of (c_place c) (c_code c)) (tracker w3) ∧
          unique_regenerations (stats w') = unique_regenerations (stats w3) ∧
          total_generated (stats w') = total_generated (stats w) ∧
          c_total c = total_generated (stats w))) w.
Proof.
  intros Hvalid. unfold persona_components.
  wp_step. apply wp_select_state. intros s w0 Hs Hself Hclk.
  destruct (Hvalid s Hs) as [places Hplaces].
  pose proof (dict_lookup_Forall (λ _ v, length v = 5%nat) _ _ _
                public_places_five Hplaces) as Hfive.
  pose proof (dict_lookup_Forall (λ k _, is_Some (dict_lookup Catalog.state_codes k))
                _ _ _ public_places_coded Hplaces) as [code Hcode].
  cbn beta in Hfive, Hcode.
  wp_step. eapply wp_mono; [|apply persona_fields_spec].
  intros [[[[[f l] base] e] p]|err] w3; [|done]. rewrite Hself.
  intros (Ht3 & Hn3 & Hc3 & Hbase & Hpool & Hbne & Hlne & Hemail & Hphone & Hname).
  wp_step. eapply wp_mono; [|eapply generate_unique_address_spec; eauto; lia].
  intros [place|err] w4; [|done]. intros (Hin & Ht4 & Hr4 & Hn4 & Hc4).
  wp_steps. apply wp_dict_item. rewrite Hcode. wp_steps. world_simpl.
  exists places, w3. unfold fields_generated. rewrite Hn4, Hn3.
  repeat (split; [done|]). done.
Qed.

(** A state that is not in the catalog: name, email and phone are
    generated and recorded, then the address lookup raises. *)
Lemma persona_components_unknown state s w :
  state_given state = Some s →
  dict_lookup Catalog.public_places s = None →
  wp (persona_components rand clock state)
     (λ r w',
        r = Raise (KeyError s) ∧
        ∃ f l base e p, fields_generated w s f l base e p w') w.
Proof.
  intros Hs Hnone. unfold persona_components, select_state. rewrite Hs.
  wp_steps. eapply wp_mono; [|apply persona_fields_spec].
  intros [[[[[f l] base] e] p]|err] w3; [|done].
  intros (Ht3 & Hn3 & Hc3 & Hbase & Hpool & Hbne & Hlne & Hemail & Hphone & Hname).
  wp_step. unfold wp. rewrite generate_unique_address_unknown by done. simpl.
  split; [done|]. exists f, l, base, e, p. unfold fields_generated.
  repeat (split; [done|]). done.
Qed.

End PhaseSpecs.

Section PersonaSpec.

Variable rand : N → N.
Variable clock : N → N.

(** Either every state the request can resolve to is in the catalog, or
    the request names a state that is not. *)
Lemma state_cases state :
  (∀ s, resolves_to state s → is_Some (dict_lookup Catalog.public_places s))
  ∨ (∃ s, state_given state = Some s ∧ dict_lookup Catalog.public_places s = None).
Proof.
  unfold resolves_to. destruct (state_given state) as [s|] eqn:E.
  - destruct (dict_lookup Catalog.public_places s) as [v|] eqn:El.
    + left. intros ? ->. rewrite El. eauto.
    + right. eauto.
  - left. intros s Hs. by apply dict_lookup_keys.
Qed.

(** The world in which the corrective pass generates the new email. *)
Definition pass_start (w : World) : World := drawn (with_stats bump_regenerations w).

(** The world [finish_persona] leaves, given the email kept and the world
    after the (possible) corrective pass. *)
Definition recorded (c : Components) (email : string) (w : World) : World :=
  with_stats bump_total (with_tracker (add_person_hash (fingerprint c email)) w).

Lemma finish_persona_spec c w :
  Py.split_first (c_first c) = Some (c_base c) → c_base c ≠ "" → c_last c ≠ "" →
  wp (finish_persona rand clock c)
     (returns (λ p w',
        ∃ e' w5,
          p = assemble c e' ∧ w' = recorded c e' w5 ∧
          (((fingerprint c (c_email c) ∉ person_hashes (tracker w)) ∧
            e' = c_email c ∧ w5 = w)
           ∨
           (fingerprint c (c_email c) ∈ person_hashes (tracker w) ∧
            ∃ n, (1 ≤ n ≤ 99)%N ∧
              generate_unique_email rand clock (c_base c +:+ Py.str n) (c_last c)
                                    (pass_start w) = (Ok e', w5) ∧
              tracker w5 = add_email e' (tracker w) ∧
              unique_regenerations (stats w5) = S (unique_regenerations (stats w)) ∧
              total_generated (stats w5) = total_generated (stats w))))) w.
Proof.
  intros Hbase Hbne Hlne. unfold finish_persona. wp_steps.
  - unfold corrective_pass. wp_steps. unfold base_first_name. rewrite Hbase.
    wp_steps. apply wp_randint; [lia|]. intros n Hn.
    assert (c_base c +:+ Py.str n ≠ "") as Hne.
    { destruct (c_base c); [done|]. discriminate. }
    pose proof (generate_unique_email_spec rand clock _ _
                  (pass_start w) Hne Hlne) as Hspec.
    apply wp_returns in Hspec as (e' & w5 & Hrun & Ht & Hr & Hnn & _).
    unfold wp. fold (pass_start w). rewrite Hrun. simpl.
    exists e', w5. split; [done|]. split; [done|]. right. split; [done|].
    exists n. done.
  - exists (c_email c), w. split; [done|]. split; [done|]. left. done.
Qed.

(** A request that resolves to catalog states produces a persona. *)
Lemma generate_persona_spec state w :
  (∀ s, resolves_to state s → is_Some (dict_lookup Catalog.public_places s)) →
  wp (generate_persona rand clock state)
     (returns (λ p w',
        ∃ c w4 e' w5,
          persona_components rand clock state w = (Ok c, w4) ∧
          p = assemble c e' ∧ w' = recorded c e' w5 ∧
          c_total c = total_generated (stats w) ∧
          total_generated (stats w5) = total_generated (stats w) ∧
          total_generated (stats w') = S (total_generated (stats w)))) w.
Proof.
  intros Hvalid. unfold wp. rewrite generate_persona_phases.
  pose proof (persona_components_spec rand clock state w Hvalid) as Hc.
  apply wp_returns in Hc as (c & w4 & Hrun & places & w3 & _ & _ & _ & _ & Hf & _ & _ & Hn4 & Htot).
  destruct Hf as (_ & _ & Hbase & _ & Hbne & Hlne & _).
  pose proof (finish_persona_spec c w4 Hbase Hbne Hlne) as Hfin.
  apply wp_returns in Hfin as (p & w' & Hrun' & e' & w5 & -> & -> & Hcase).
  unfold mbind, M_bind. rewrite Hrun, Hrun'. simpl.
  exists c, w4, e', w5. split; [done|]. split; [done|]. split; [done|]. split; [done|].
  assert (total_generated (stats w5) = total_generated (stats w)) as ->.
  { destruct Hcase as [(_ & _ & ->)|(_ & n & _ & _ & _ & _ & ->)]; done. }
  done.
Qed.

(** A request for a state outside the catalog raises [KeyError] after the
    three fields were generated. *)
Lemma generate_persona_unknown state s w :
  state_given state = Some s →
  dict_lookup Catalog.public_places s = None →
  ∃ w' f l base e p,
    generate_persona rand clock state w = (Raise (KeyError s), w') ∧
    fields_generated w s f l base e p w'.
Proof.
  intros Hs Hnone. rewrite generate_persona_phases.
  pose proof (persona_components_unknown rand clock state s w Hs Hnone) as H.
  unfold wp in H. destruct (persona_components rand clock state w) as [r w'] eqn:E.
  simpl in H. destruct H as (-> & f & l & base & e & p & Hf).
  exists w', f, l, base, e, p. unfold mbind, M_bind. by rewrite E.
Qed.

(** The counter of produced personas moves with successful calls only. *)
Lemma generate_persona_total state w :
  wp (generate_persona rand clock state)
     (λ r w',
        match r with
        | Ok p =>
            ID p = "P" +:+ Py.zfill 6 (N.of_nat (total_generated (stats w)) + 1) ∧
            total_generated (stats w') = S (total_generated (stats w))
        | Raise _ => total_generated (stats w') = total_generated (stats w)
        end) w.
Proof.
  destruct (state_cases state) as [Hvalid|(s & Hs & Hnone)].
  - eapply wp_mono; [|by apply generate_persona_spec].
    intros [p|e] w'; [|done]. intros (c & w4 & e' & w5 & _ & -> & -> & Htot & _ & Hn).
    split; [|done]. simpl. by rewrite Htot.
  - destruct (generate_persona_unknown state s w Hs Hnone)
      as (w' & f & l & base & e & p & Hrun & Hf).
    unfold wp. rewrite Hrun. simpl. apply Hf.
Qed.

End PersonaSpec.

(** * The claims *)

(** A fresh generator with both oracle cursors at the start. *)
Definition fresh_world : World := mkWorld new_generator 0 0.

(** The oracle whose every draw is zero: each [random.choice] takes the
    first element and each [random.randint] the lower end. *)
Definition zero_draws : N → N := λ _, 0%N.

(** A clock stopped at some instant. *)
Definition stopped_clock : N → N := λ _, 1700000000123%N.

(** ** C1: a state outside the catalog *)

(** The area codes and the places are keyed by the same states. *)
Lemma area_codes_keys : Catalog.area_codes.*1 = Catalog.public_places.*1.
Proof. vm_compute. reflexivity. Qed.

Lemma unknown_state_area_codes state :
  dict_lookup Catalog.public_places state = None →
  dict_get Catalog.area_codes state ["555"] = ["555"].
Proof.
  intros Hnone. unfold dict_get.
  destruct (dict_lookup Catalog.area_codes state) as [v|] eqn:E; [|done].
  apply dict_lookup_in_keys in E. rewrite area_codes_keys in E.
  apply dict_lookup_keys in E as [? E]. congruence.
Qed.

(** C1, as stated, fails: a request for the state "Atlantis", which is not in
    the catalog, on a fresh generator does raise, but only after a name, an
    email and a phone number with the placeholder area code 555 were generated
    and recorded in the tracker. *)
Lemma unknown_state_mutates_tracker :
  let r := generate_persona zero_draws stopped_clock (Some "Atlantis") fresh_world in
  dict_lookup Catalog.public_places "Atlantis" = None ∧
  r.1 = Raise (KeyError "Atlantis") ∧
  elements (full_names (tracker r.2)) = ["James Smith"] ∧
  elements (emails (tracker r.2)) = ["james.smith1@email.com"] ∧
  elements (phones (tracker r.2)) = ["(555) 200-1000"] ∧
  tracker r.2 ≠ tracker fresh_world.
Proof.
  cbv zeta. repeat split; try (vm_compute; reflexivity).
  intros H. apply (f_equal (λ t, elements (full_names t))) in H.
  vm_compute in H. discriminate.
Qed.

(** [random.choice] on a non-empty list: the element at the index the draw
    gives. *)
Lemma choice_lookup {A} (rand : N → N) (l : list A) w :
  l ≠ [] →
  ∃ x, l !! N.to_nat (rand (rng_pos w) `mod` N.of_nat (length l)) = Some x ∧
       choice rand l w = (Ok x, drawn w).
Proof.
  intros Hne. destruct l as [|x0 l]; [done|].
  assert (N.to_nat (rand (rng_pos w) `mod` N.of_nat (length (x0 :: l)))
          < length (x0 :: l))%nat as Hlt.
  { assert (rand (rng_pos w) `mod` N.of_nat (length (x0 :: l))
            < N.of_nat (length (x0 :: l)))%N as H
      by (apply N.mod_upper_bound; simpl length; lia).
    revert H. generalize (rand (rng_pos w) `mod` N.of_nat (length (x0 :: l)))%N.
    intros k Hk. lia. }
  apply lookup_lt_is_Some_2 in Hlt as [x Hx]. exists x. split; [done|].
  unfold choice, mbind, M_bind, draw, mret, M_ret, drawn. do 2 f_equal.
  by rewrite nth_lookup, Hx.
Qed.

(** The catalog has fifty states, none of them named "" or "Mixed". *)
Lemma public_places_fifty : length (Catalog.public_places.*1) = 50%nat.
Proof. vm_compute. reflexivity. Qed.

Lemma public_places_named :
  Forall (λ s : string, s ≠ "" ∧ s ≠ "Mixed") (Catalog.public_places.*1).
Proof. by_evaluation. Qed.

(** A request that names no state draws one of the fifty states of the
    catalog and goes on as a request for that state. *)
Lemma generate_persona_draws_state rand clock state w :
  state_given state = None →
  ∃ s, Catalog.public_places.*1 !! N.to_nat (rand (rng_pos w) `mod` 50) = Some s ∧
       state_given (Some s) = Some s ∧
       generate_persona rand clock state w
       = generate_persona rand clock (Some s) (drawn w).
Proof.
  intros Hnone.
  destruct (choice_lookup rand (Catalog.public_places.*1) w) as (s & Hs & Hrun).
  { intros H. apply (f_equal length) in H. by rewrite public_places_fifty in H. }
  rewrite public_places_fifty in Hs. exists s. split; [done|].
  assert (state_given (Some s) = Some s) as Hgiven.
  { pose proof public_places_named as H. rewrite Forall_forall in H.
    unfold state_given. rewrite decide_True; [done|].
    apply H. by eapply list_elem_of_lookup_2. }
  split; [done|].
  unfold generate_persona. rewrite Hnone, Hgiven.
  unfold mbind at 1, M_bind at 1. rewrite Hrun. by rewrite ret_bind_run.
Qed.

(** The persona of a request that names no state. *)
Lemma generate_persona_unnamed_state rand clock state w :
  state_given state = None →
  ∃ s code p w',
    Catalog.public_places.*1 !! N.to_nat (rand (rng_pos w) `mod` 50) = Some s ∧
    dict_lookup Catalog.state_codes s = Some code ∧
    generate_persona rand clock state w = (Ok p, w') ∧
    State p = code ∧
    total_generated (stats w') = S (total_generated (stats w)).
Proof.
  intros Hnone.
  destruct (generate_persona_draws_state rand clock state w Hnone)
    as (s & Hs & Hgiven & Heq).
  assert (∀ s', resolves_to (Some s) s' → is_Some (dict_lookup Catalog.public_places s'))
    as Hvalid.
  { unfold resolves_to. rewrite Hgiven. intros ? ->.
    apply dict_lookup_keys. by eapply list_elem_of_lookup_2. }
  pose proof (generate_persona_spec rand clock (Some s) (drawn w) Hvalid) as H.
  apply wp_returns in H as (p & w' & Hrun & c & w4 & e' & w5 & Hc & -> & _ & _ & _ & Hn).
  pose proof (persona_components_spec rand clock (Some s) (drawn w) Hvalid) as Hspec.
  apply (wp_run _ _ _ _ _ Hc) in Hspec.
  destruct Hspec as (places & w3 & Hres & _ & Hcode & _).
  unfold resolves_to in Hres. rewrite Hgiven in Hres.
  exists s, (c_code c), (assemble c e'), w'. rewrite <- Hres.
  split; [by rewrite Hres|]. split; [done|]. split; [by rewrite Heq|]. done.
Qed.

(** C1, amended: for every state name that is neither empty nor "Mixed" and is
    absent from the catalog, a persona request raises [KeyError] for that
    state at the address lookup, after the name, email and phone generators
    have run: their outputs are recorded in the tracker (the phone with the
    placeholder area code 555), while the address set, the fingerprint set
    and the counter of produced personas are left as they were.  An empty
    name or "Mixed" is not rejected: such a request draws one of the fifty
    states of the catalog, the one at the index the first random draw gives,
    and returns a persona of that state, which is counted. *)
Theorem unknown_state_raises_after_fields rand clock state w :
  state ≠ "" → state ≠ "Mixed" →
  dict_lookup Catalog.public_places state = None →
  (∃ w' f l e p,
     generate_persona rand clock (Some state) w = (Raise (KeyError state), w') ∧
     tracker w' = add_phone p (add_email e (record_name f l (tracker w))) ∧
     ((regular_phone "555" p ∧ (p ∉ phones (tracker w)))
      ∨ p = fallback_phone "555" (tracker w)) ∧
     addresses (tracker w') = addresses (tracker w) ∧
     person_hashes (tracker w') = person_hashes (tracker w) ∧
     total_generated (stats w') = total_generated (stats w))
  ∧
  (∀ request, request = Some "" ∨ request = Some "Mixed" →
     ∃ s code p w',
       Catalog.public_places.*1 !! N.to_nat (rand (rng_pos w) `mod` 50) = Some s ∧
       dict_lookup Catalog.state_codes s = Some code ∧
       generate_persona rand clock request w = (Ok p, w') ∧
       State p = code ∧
       total_generated (stats w') = S (total_generated (stats w))).
Proof.
  intros Hne Hmixed Hnone. split.
  - assert (state_given (Some state) = Some state) as Hs.
    { unfold state_given. rewrite decide_True; done. }
    destruct (generate_persona_unknown rand clock _ _ w Hs Hnone)
      as (w' & f & l & base & e & p & Hrun & Ht & Hn & _ & _ & _ & _ & _ & Hphone & _).
    exists w', f, l, e, p. split; [done|]. split; [done|].
    split.
    { destruct Hphone as (a & Ha & H). rewrite unknown_state_area_codes in Ha by done.
      apply list_elem_of_singleton in Ha as ->. done. }
    rewrite Ht. done.
  - intros request [-> | ->]; by apply generate_persona_unnamed_state.
Qed.

(** The amended C1 at the state "Atlantis" on a fresh generator. *)
Lemma unknown_state_raises_after_fields_witness :
  (∃ w' f l e p,
     generate_persona zero_draws stopped_clock (Some "Atlantis") fresh_world
     = (Raise (KeyError "Atlantis"), w') ∧
     tracker w' = add_phone p (add_email e (record_name f l (tracker fresh_world))) ∧
     ((regular_phone "555" p ∧ (p ∉ phones (tracker fresh_world)))
      ∨ p = fallback_phone "555" (tracker fresh_world)) ∧
     addresses (tracker w') = addresses (tracker fresh_world) ∧
     person_hashes (tracker w') = person_hashes (tracker fresh_world) ∧
     total_generated (stats w') = total_generated (stats fresh_world))
  ∧
  (∀ request, request = Some "" ∨ request = Some "Mixed" →
     ∃ s code p w',
       Catalog.public_places.*1
         !! N.to_nat (zero_draws (rng_pos fresh_world) `mod` 50) = Some s ∧
       dict_lookup Catalog.state_codes s = Some code ∧
       generate_persona zero_draws stopped_clock request fresh_world = (Ok p, w') ∧
       State p = code ∧
       total_generated (stats w') = S (total_generated (stats fresh_world))).
Proof.
  apply (unknown_state_raises_after_fields zero_draws stopped_clock "Atlantis" fresh_world).
  - discriminate.
  - discriminate.
  - vm_compute. reflexivity.
Defined.

(** ** C5: sequential identifiers *)

(** Reading a decimal numeral back, leading zeros included. *)
Definition digit_value (c : ascii) : N :=
  match Ascii.is_nat c with
  | Some d => N.of_nat d
  | None => 0
  end.

Fixpoint decimal_value_from (acc : N) (s : string) : N :=
  match s with
  | EmptyString => acc
  | String c s' => decimal_value_from (10 * acc + digit_value c) s'
  end.

Definition decimal_value (s : string) : N := decimal_value_from 0 s.

Lemma digit_value_char d : (d < 10)%N → digit_value (pretty_N_char d) = d.
Proof.
  intros H.
  assert (d = 0 ∨ d = 1 ∨ d = 2 ∨ d = 3 ∨ d = 4 ∨ d = 5 ∨ d = 6 ∨ d = 7 ∨ d = 8 ∨ d = 9)%N
    as Hd by lia.
  repeat (destruct Hd as [->|Hd]; [reflexivity|]). by subst.
Qed.

Lemma decimal_value_pretty_go x s :
  decimal_value_from 0 (pretty_N_go x s) = decimal_value_from x s.
Proof.
  revert s. induction (N.lt_wf_0 x) as [x _ IH]. intros s.
  destruct (decide (x = 0)%N) as [->|Hx]; [done|].
  rewrite pretty_N_go_step by lia. rewrite IH by (apply N.div_lt; lia).
  cbn [decimal_value_from]. rewrite digit_value_char by (apply N.mod_lt; lia).
  f_equal. rewrite (N.div_mod x 10) at 3 by lia. lia.
Qed.

Lemma decimal_value_str n : decimal_value (Py.str n) = n.
Proof.
  unfold Py.str, pretty, pretty_N, decimal_value. case_decide as Hn.
  - by subst.
  - apply decimal_value_pretty_go.
Qed.

Lemma decimal_value_zeros k s : decimal_value (Py.zeros k +:+ s) = decimal_value s.
Proof. induction k as [|k IH]; [done|]. exact IH. Qed.

Lemma decimal_value_zfill w n : decimal_value (Py.zfill w n) = n.
Proof. unfold Py.zfill. by rewrite decimal_value_zeros, decimal_value_str. Qed.

Lemma zfill_inj w : Inj (=) (=) (Py.zfill w).
Proof.
  intros n m H. apply (f_equal decimal_value) in H.
  by rewrite !decimal_value_zfill in H.
Qed.

(** The identifier of the [k]-th persona of a lineage. *)
Definition persona_id (k : nat) : string := "P" +:+ Py.zfill 6 (N.of_nat k).

Lemma persona_id_inj : Inj (=) (=) persona_id.
Proof.
  intros j k H. unfold persona_id in H. injection H as H.
  apply zfill_inj in H. lia.
Qed.

Section Lineage.

Variable rand : N → N.
Variable clock : N → N.

(** A caller issuing persona requests one after the other on the same
    generator, keeping the personas returned and going on after an
    exception, as the application does around its generation call. *)
Fixpoint run_requests (requests : list (option string)) (w : World)
  : list Persona * World :=
  match requests with
  | [] => ([], w)
  | state :: rest =>
      match generate_persona rand clock state w with
      | (Ok p, w') => let '(ps, w'') := run_requests rest w' in (p :: ps, w'')
      | (Raise _, w') => run_requests rest w'
      end
  end.

Lemma run_requests_ids requests w :
  ID <$> (run_requests requests w).1
  = persona_id <$> seq (S (total_generated (stats w)))
                       (length (run_requests requests w).1).
Proof.
  revert w. induction requests as [|state rest IH]; intros w; [done|].
  cbn [run_requests].
  pose proof (generate_persona_total rand clock state w) as H. unfold wp in H.
  destruct (generate_persona rand clock state w) as [[p|e] w']; simpl in H.
  - destruct H as [Hid Hn]. specialize (IH w').
    destruct (run_requests rest w') as [ps w'']. cbn [fst snd length] in *.
    rewrite fmap_cons, IH, Hn, Hid. cbn [seq fmap list_fmap]. f_equal.
    unfold persona_id. do 2 f_equal. lia.
  - rewrite IH, H. done.
Qed.

End Lineage.

(** The requests the generator serves: those that name no state ([None],
    the empty name, "Mixed") and those that name a state of the catalog. *)
Definition catalog_request (state : option string) : bool :=
  match state_given state with
  | Some s => bool_decide (s ∈ Catalog.public_places.*1)
  | None => true
  end.

Lemma catalog_request_served rand clock state w :
  catalog_request state = true →
  ∃ p w', generate_persona rand clock state w = (Ok p, w').
Proof.
  intros Hreq.
  assert (∀ s, resolves_to state s → is_Some (dict_lookup Catalog.public_places s))
    as Hvalid.
  { unfold resolves_to, catalog_request in *. intros s.
    destruct (state_given state) as [s'|].
    - intros ->. apply dict_lookup_keys. by apply bool_decide_eq_true in Hreq.
    - apply dict_lookup_keys. }
  pose proof (generate_persona_spec rand clock state w Hvalid) as H.
  apply wp_returns in H as (p & w' & Hrun & _). eauto.
Qed.

Lemma other_request_raises rand clock state w :
  catalog_request state = false →
  ∃ e w', generate_persona rand clock state w = (Raise e, w').
Proof.
  unfold catalog_request. destruct (state_given state) as [s|] eqn:Hs; [|done].
  intros Hreq%bool_decide_eq_false.
  assert (dict_lookup Catalog.public_places s = None) as Hnone.
  { destruct (dict_lookup Catalog.public_places s) as [v|] eqn:E; [|done].
    exfalso. apply Hreq. by eapply dict_lookup_in_keys. }
  destruct (generate_persona_unknown rand clock state s w Hs Hnone)
    as (w' & f & l & base & e & p & Hrun & _).
  eauto.
Qed.

(** Every served request produces a persona, and no other request does. *)
Lemma run_requests_length rand clock requests w :
  length (run_requests rand clock requests w).1
  = length (List.filter catalog_request requests).
Proof.
  revert w. induction requests as [|state rest IH]; intros w; [done|].
  cbn [run_requests List.filter].
  destruct (catalog_request state) eqn:Hreq.
  - destruct (catalog_request_served rand clock state w Hreq) as (p & w' & ->).
    specialize (IH w'). destruct (run_requests rand clock rest w') as [ps w''].
    cbn [fst length] in *. by rewrite IH.
  - destruct (other_request_raises rand clock state w Hreq) as (e & w' & ->).
    apply IH.
Qed.

(** C5: in a lineage, that is, in any sequence of persona requests served
    by a generator since its creation (a reset creates a new generator),
    whatever the requested states, the random draws and the clock, the
    [k]-th persona produced has the identifier "P" followed by [k] padded
    with zeros to six digits, counting from 1, and the identifiers are
    pairwise distinct; a persona is produced for every request that names
    no state or a state of the catalog, and for no other request. *)
Theorem ids_sequential_and_distinct rand clock requests rng_start clock_start :
  let personas :=
    (run_requests rand clock requests (mkWorld new_generator rng_start clock_start)).1 in
  ID <$> personas = (λ k, "P" +:+ Py.zfill 6 (N.of_nat k)) <$> seq 1 (length personas)
  ∧ NoDup (ID <$> personas)
  ∧ length personas = length (List.filter catalog_request requests).
Proof.
  cbv zeta. rewrite run_requests_ids. split; [done|]. split.
  - apply (NoDup_fmap_2 persona_id (Inj0 := persona_id_inj)). apply NoDup_seq.
  - apply run_requests_length.
Qed.

(** C5 on three requests to a fresh generator, the second one for a state
    that is not in the catalog: two personas, P000001 and P000002. *)
Lemma ids_sequential_and_distinct_witness :
  let personas :=
    (run_requests zero_draws stopped_clock [None; Some "Atlantis"; Some "Wyoming"]
       (mkWorld new_generator 0 0)).1 in
  ID <$> personas = ["P000001"; "P000002"] ∧ NoDup (ID <$> personas).
Proof.
  cbv zeta.
  destruct (ids_sequential_and_distinct zero_draws stopped_clock
              [None; Some "Atlantis"; Some "Wyoming"] 0 0) as (Hids & Hnd & Hlen).
  split; [|exact Hnd]. rewrite Hids, Hlen. vm_compute. reflexivity.
Defined.

(** ** C3: the count of a batch *)

(** The largest count the application lets a user enter
    ([st.number_input(..., min_value=1, max_value=5000)]); the generator
    itself knows no maximum. *)
Definition configured_max : Z := 5000.

Section Batch.

Variable rand : N → N.
Variable clock : N → N.

Lemma personas_loop_spec n state acc w :
  (∀ s, resolves_to state s → is_Some (dict_lookup Catalog.public_places s)) →
  wp (personas_loop rand clock n state acc)
     (returns (λ ps w',
        ∃ new, ps = acc ++ new ∧ length new = n ∧
          total_generated (stats w') = (total_generated (stats w) + n)%nat)) w.
Proof.
  intros Hvalid. revert acc w. induction n as [|n IH]; intros acc w; cbn [personas_loop].
  - apply wp_ret. exists []. rewrite app_nil_r. split; [done|]. split; [done|]. simpl. lia.
  - wp_step. eapply wp_mono; [|by apply generate_persona_spec].
    intros [p|e] w1; [|done]. intros (c & w4 & e' & w5 & _ & _ & _ & _ & _ & Hn).
    eapply wp_mono; [|apply IH].
    intros [ps|e] w2; [|done]. intros (new & -> & Hlen & Hn2).
    exists (p :: new). rewrite <- app_assoc. split; [done|].
    split; [simpl; lia|]. rewrite Hn2, Hn. lia.
Qed.

(** A batch of [count] personas for catalog states is served in full,
    whatever the count. *)
Lemma batch_served count state w :
  (∀ s, resolves_to state s → is_Some (dict_lookup Catalog.public_places s)) →
  ∃ ps w',
    generate_multiple_personas rand clock count state w = (Ok ps, w') ∧
    length ps = Z.to_nat count ∧
    total_generated (stats w') = (total_generated (stats w) + Z.to_nat count)%nat.
Proof.
  intros Hvalid. unfold generate_multiple_personas.
  pose proof (personas_loop_spec (Z.to_nat count) state [] w Hvalid) as H.
  apply wp_returns in H as (ps & w' & Hrun & new & -> & Hlen & Hn).
  exists new, w'. done.
Qed.

(** [range(count)] is empty: nothing runs. *)
Lemma batch_nonpositive count state w :
  (count ≤ 0)%Z → generate_multiple_personas rand clock count state w = (Ok [], w).
Proof.
  intros H. unfold generate_multiple_personas.
  replace (Z.to_nat count) with 0%nat by lia. done.
Qed.

End Batch.

Lemma no_state_resolves s :
  resolves_to None s → is_Some (dict_lookup Catalog.public_places s).
Proof. unfold resolves_to. cbn [state_given]. apply dict_lookup_keys. Qed.

(** C3, as stated, fails: a count of 0 or -3 is not rejected, the batch
    returns normally with an empty list; and a count of 5001, above the
    maximum of 5000 the application's input widget enforces, is served: 5001
    personas are produced and counted. *)
Lemma bad_counts_are_not_rejected :
  generate_multiple_personas zero_draws stopped_clock 0 None fresh_world
  = (Ok [], fresh_world)
  ∧ generate_multiple_personas zero_draws stopped_clock (-3) None fresh_world
    = (Ok [], fresh_world)
  ∧ (configured_max < 5001)%Z
  ∧ ∃ ps w',
      generate_multiple_personas zero_draws stopped_clock 5001 None fresh_world
      = (Ok ps, w') ∧
      length ps = Z.to_nat 5001 ∧
      total_generated (stats w') = Z.to_nat 5001.
Proof.
  split; [reflexivity|]. split; [reflexivity|]. split; [reflexivity|].
  destruct (batch_served zero_draws stopped_clock 5001 None fresh_world no_state_resolves)
    as (ps & w' & Hrun & Hlen & Hn).
  exists ps, w'. split; [exact Hrun|]. split; [exact Hlen|exact Hn].
Qed.

(** C3, amended: the generator validates no count.  For every non-positive
    count a batch request returns the empty list without raising, and
    leaves the tracker, the statistics counters and both oracles untouched;
    for every positive count, including the counts above the maximum of the
    input widget, a request for catalog states is served in full: exactly
    [count] personas are produced and counted. *)
Theorem batch_count_not_validated rand clock count state w :
  ((count ≤ 0)%Z →
   generate_multiple_personas rand clock count state w = (Ok [], w))
  ∧
  ((0 < count)%Z →
   (∀ s, resolves_to state s → is_Some (dict_lookup Catalog.public_places s)) →
   ∃ ps w',
     generate_multiple_personas rand clock count state w = (Ok ps, w') ∧
     length ps = Z.to_nat count ∧
     total_generated (stats w') = (total_generated (stats w) + Z.to_nat count)%nat).
Proof.
  split.
  - apply batch_nonpositive.
  - intros _. apply batch_served.
Qed.

(** The amended C3 at a count of 0 and at a count above the maximum. *)
Lemma batch_count_not_validated_witness :
  generate_multiple_personas zero_draws stopped_clock 0 None fresh_world
  = (Ok [], fresh_world)
  ∧ ∃ ps w',
      generate_multiple_personas zero_draws stopped_clock (configured_max + 1) None
                                 fresh_world = (Ok ps, w') ∧
      length ps = Z.to_nat (configured_max + 1) ∧
      total_generated (stats w')
      = (total_generated (stats fresh_world) + Z.to_nat (configured_max + 1))%nat.
Proof.
  split.
  - apply (proj1 (batch_count_not_validated zero_draws stopped_clock 0 None fresh_world)).
    lia.
  - apply (proj2 (batch_count_not_validated zero_draws stopped_clock (configured_max + 1)
                    None fresh_world)).
    + reflexivity.
    + apply no_state_resolves.
Defined.

(** ** C7: the address selector *)

Section RegularPaths.

Variable rand : N → N.

(** What the retry loops of the three other fields return was not tracked. *)
Lemma name_loop_returns_new w f l w1 :
  for_range 200 (name_attempt rand) w = (Ok (Returned (f, l)), w1) →
  full_name_of f l ∉ full_names (tracker w).
Proof.
  intros Hrun. pose proof (name_loop_spec rand w) as H.
  apply (wp_run _ _ _ _ _ Hrun) in H. simpl in H. tauto.
Qed.

Lemma email_loop_returns_new first_name last_name w e w1 :
  for_range 50 (email_attempt rand first_name last_name) w = (Ok (Returned e), w1) →
  e ∉ emails (tracker w).
Proof.
  intros Hrun.
  destruct first_name as [|a first']; [discriminate|].
  destruct last_name as [|b last']; [discriminate|].
  pose proof (email_loop_spec rand (String a first') (String b last') w) as H.
  apply (wp_run _ _ _ _ _ Hrun) in H; [|done..]. simpl in H. tauto.
Qed.

Lemma phone_loop_returns_new state w p w1 :
  for_range 100 (phone_attempt rand state) w = (Ok (Returned p), w1) →
  p ∉ phones (tracker w).
Proof.
  intros Hrun. pose proof (phone_loop_spec rand state w) as H.
  apply (wp_run _ _ _ _ _ Hrun) in H. simpl in H. tauto.
Qed.

End RegularPaths.

(** C7: for every state of the catalog the address selector returns one of
    that state's five places and never raises, whatever the tracker holds;
    the address of the place is tracked afterwards and nothing else changes;
    once all five addresses of the state are tracked, the place returned is
    an already-used one and the tracker stays as it is.  The retry loops of
    the name, email and phone generators, by contrast, only return values
    that were not tracked. *)
Theorem address_selector_total_and_reuses rand state places w :
  dict_lookup Catalog.public_places state = Some places →
  length places = 5%nat ∧
  (∃ place code w',
     generate_unique_address rand state w = (Ok place, w') ∧
     place ∈ places ∧
     dict_lookup Catalog.state_codes state = Some code ∧
     tracker w' = add_address (full_address_of place code) (tracker w) ∧
     unique_regenerations (stats w') = unique_regenerations (stats w) ∧
     total_generated (stats w') = total_generated (stats w) ∧
     ((∀ q, q ∈ places → full_address_of q code ∈ addresses (tracker w)) →
      full_address_of place code ∈ addresses (tracker w) ∧ tracker w' = tracker w)) ∧
  (∀ f l w1,
     for_range 200 (name_attempt rand) w = (Ok (Returned (f, l)), w1) →
     full_name_of f l ∉ full_names (tracker w)) ∧
  (∀ first_name last_name e w1,
     for_range 50 (email_attempt rand first_name last_name) w = (Ok (Returned e), w1) →
     e ∉ emails (tracker w)) ∧
  (∀ st p w1,
     for_range 100 (phone_attempt rand st) w = (Ok (Returned p), w1) →
     p ∉ phones (tracker w)).
Proof.
  intros Hplaces.
  pose proof (dict_lookup_Forall (λ _ v, length v = 5%nat) _ _ _
                public_places_five Hplaces) as Hfive.
  pose proof (dict_lookup_Forall (λ k _, is_Some (dict_lookup Catalog.state_codes k))
                _ _ _ public_places_coded Hplaces) as [code Hcode].
  cbn beta in Hfive, Hcode.
  split; [done|]. split.
  - assert (2 ≤ length places)%nat as Hlen by lia.
    pose proof (generate_unique_address_spec rand state places code w
                  Hplaces Hcode Hlen) as H.
    apply wp_returns in H as (place & w' & Hrun & Hin & Ht & Hr & Hn & _).
    exists place, code, w'. repeat (split; [done|]).
    intros Hall. split; [by apply Hall|].
    rewrite Ht. apply add_address_tracked. by apply Hall.
  - split; [intros; by eapply name_loop_returns_new|].
    split; intros; [by eapply email_loop_returns_new|by eapply phone_loop_returns_new].
Qed.

(** The oracle whose [i]-th draw is [i]. *)
Definition counting_draws : N → N := λ i, i.

(** The world after the address selector served "Wyoming" five times. *)
Definition wyoming_exhausted : World :=
  let step w := (generate_unique_address counting_draws "Wyoming" w).2 in
  step (step (step (step (step fresh_world)))).

Definition wyoming_places : list Place :=
  default [] (dict_lookup Catalog.public_places "Wyoming").

(** C7 at "Wyoming" once its five places are used: a place is returned
    again, and the tracker does not change. *)
Lemma address_selector_total_and_reuses_witness :
  size (addresses (tracker wyoming_exhausted)) = 5%nat ∧
  ∃ place w',
    generate_unique_address counting_draws "Wyoming" wyoming_exhausted = (Ok place, w') ∧
    place ∈ wyoming_places ∧
    full_address_of place "WY" ∈ addresses (tracker wyoming_exhausted) ∧
    tracker w' = tracker wyoming_exhausted.
Proof.
  split; [vm_compute; reflexivity|].
  destruct (address_selector_total_and_reuses counting_draws "Wyoming" wyoming_places
              wyoming_exhausted) as (_ & (place & code & w' & Hrun & Hin & Hcode & _ & _ & _ & Hre) & _).
  { vm_compute. reflexivity. }
  assert (code = "WY") as -> by (vm_compute in Hcode; congruence).
  exists place, w'. split; [exact Hrun|]. split; [exact Hin|].
  apply Hre. apply Forall_forall. apply (bool_decide_unpack _). vm_compute. reflexivity.
Defined.

(** ** C8: the candidates of the email generator *)

(** The suffix range as the claim words it: 1-99 for the first ten
    attempts (indices 0 to 9), 1-9999 for every later attempt. *)
Definition claimed_suffix_max (attempt : nat) : N :=
  if decide (attempt < 10)%nat then 99%N else 9999%N.

(** The candidate of an attempt under the claimed ranges. *)
Definition claimed_email_candidate (rand : N → N) (first_name last_name : string)
    (attempt : nat) : M string :=
  patterns ← email_patterns first_name last_name;
  pattern ← choice rand patterns;
  num ← randint rand 1 (claimed_suffix_max attempt);
  domain ← choice rand domains;
  mret (pattern +:+ Py.str num +:+ "@" +:+ domain).

(** The email generator with the suffix ranges as the claim words them. *)
Definition claimed_email_attempt (rand : N → N) (first_name last_name : string)
    (attempt : nat) : M (string + unit) :=
  email ← claimed_email_candidate rand first_name last_name attempt;
  w ← get;
  if decide (email ∉ emails (tracker w)) then
    modify (with_tracker (add_email email));;
    mret (inl email)
  else
    modify (with_stats bump_collisions);;
    mret (inr tt).

Definition claimed_generate_unique_email (rand clock : N → N)
    (first_name last_name : string) : M string :=
  r ← for_range 50 (claimed_email_attempt rand first_name last_name);
  match r with
  | Returned email => mret email
  | Exhausted _ =>
      t ← now_ms clock;
      let timestamp := (t `mod` 1000000)%N in
      let email := Py.lower first_name +:+ "." +:+ Py.lower last_name
                   +:+ Py.str timestamp +:+ "@" +:+ nth 0%nat domains "" in
      modify (with_tracker (add_email email));;
      mret email
  end.

(** Draws for eleven calls of the email generator for James Smith: each of
    the first ten calls takes, at its first attempt, the local part
    first.last, the suffix equal to its rank and the first domain; the
    eleventh call draws these ten addresses again in its first ten attempts,
    and the raw draw 5000 for the suffix of its eleventh attempt. *)
Definition eleventh_draws : N → N := λ i,
  if (i `mod` 3 =? 1)%N then
    if (i <? 30)%N then (i `div` 3)%N
    else if (i <? 60)%N then ((i - 30) `div` 3)%N
    else 5000%N
  else 0%N.

(** The generator after the first ten calls. *)
Definition ten_addresses : World :=
  Nat.iter 10
    (λ w, (generate_unique_email eleventh_draws stopped_clock "James" "Smith" w).2)
    fresh_world.

(** C8, as stated, fails at the eleventh attempt of a call (index 10): the
    code still draws the suffix from 1-99 there ([attempt > 10] is false).
    On a generator that tracks james.smith1@email.com to
    james.smith10@email.com, a call for James Smith whose first ten attempts
    draw these ten addresses collides ten times; at its eleventh attempt the
    raw draw 5000 yields the suffix 51, and the call returns
    james.smith51@email.com, where a draw from 1-9999 yields 5001. *)
Lemma eleventh_attempt_draws_from_99 :
  suffix_max 10 = 99%N ∧ claimed_suffix_max 10 = 9999%N ∧
  size (emails (tracker ten_addresses)) = 10%nat ∧
  collision_attempts (stats ten_addresses) = 0%nat ∧
  (generate_unique_email eleventh_draws stopped_clock "James" "Smith" ten_addresses).1
  = Ok "james.smith51@email.com" ∧
  collision_attempts
    (stats (generate_unique_email eleventh_draws stopped_clock "James" "Smith"
              ten_addresses).2) = 10%nat ∧
  (claimed_generate_unique_email eleventh_draws stopped_clock "James" "Smith"
     ten_addresses).1
  = Ok "james.smith5001@email.com" ∧
  collision_attempts
    (stats (claimed_generate_unique_email eleventh_draws stopped_clock "James" "Smith"
              ten_addresses).2) = 10%nat.
Proof. repeat split; vm_compute; reflexivity. Qed.

Lemma lower_char_idem c : Py.lower_char (Py.lower_char c) = Py.lower_char c.
Proof. destruct c as [[] [] [] [] [] [] [] []]; reflexivity. Qed.

Lemma lower_idem s : Py.lower (Py.lower s) = Py.lower s.
Proof.
  induction s as [|c s IH]; [done|].
  change (Py.lower (String c s)) with (String (Py.lower_char c) (Py.lower s)).
  change (Py.lower (String (Py.lower_char c) (Py.lower s)))
    with (String (Py.lower_char (Py.lower_char c)) (Py.lower (Py.lower s))).
  by rewrite lower_char_idem, IH.
Qed.

Lemma lower_app s t : Py.lower (s +:+ t) = Py.lower s +:+ Py.lower t.
Proof.
  induction s as [|c s IH]; [done|].
  change (String c s +:+ t) with (String c (s +:+ t)).
  change (Py.lower (String c (s +:+ t)))
    with (String (Py.lower_char c) (Py.lower (s +:+ t))).
  by rewrite IH.
Qed.

(** Every local part is in lowercase. *)
Lemma email_local_parts_lower first_name last_name f l pattern :
  pattern ∈ email_local_parts first_name last_name f l → Py.lower pattern = pattern.
Proof.
  unfold email_local_parts. intros H.
  repeat (apply elem_of_cons in H as [->|H]); [..|by apply not_elem_of_nil in H].
  - by rewrite !lower_app, !lower_idem.
  - change (Py.lower (String (Py.lower_char f) (Py.lower last_name)))
      with (String (Py.lower_char (Py.lower_char f)) (Py.lower (Py.lower last_name))).
    by rewrite lower_char_idem, lower_idem.
  - rewrite lower_app, lower_idem.
    change (Py.lower (String (Py.lower_char l) ""))
      with (String (Py.lower_char (Py.lower_char l)) "").
    by rewrite lower_char_idem.
  - by rewrite !lower_app, !lower_idem.
Qed.

(** An oracle that makes the three draws of a candidate come out as the
    given indices. *)
Definition draws_at (start : N) (a b c : N) : N → N :=
  λ i, if decide (i = start) then a
       else if decide (i = N.succ start) then b
       else c.

Lemma nth_lookup_total {A} (l : list A) i x d : l !! i = Some x → nth i l d = x.
Proof.
  revert i. induction l as [|y l IH]; intros [|i]; simpl; try done.
  - by intros [= ->].
  - apply IH.
Qed.

Lemma choice_at {A} (rand : N → N) (l : list A) (i : nat) x w :
  l !! i = Some x → rand (rng_pos w) = N.of_nat i →
  choice rand l w = (Ok x, drawn w).
Proof.
  intros Hi Hr. pose proof (lookup_lt_Some _ _ _ Hi) as Hlt.
  destruct l as [|y l]; [done|].
  unfold choice, mbind, M_bind, draw, mret, M_ret, drawn. rewrite Hr.
  rewrite N.mod_small by lia. rewrite Nat2N.id. f_equal. f_equal.
  by apply nth_lookup_total.
Qed.

(** The world after the first [k] attempts of a call all collided: three
    draws and one counted collision each, the tracker as it was. *)
Definition after_email_collisions (k : nat) (w : World) : World :=
  mkWorld
    (mkGenerator (tracker w)
       (mkStats (collision_attempts (stats w) + k) (unique_regenerations (stats w))
                (total_generated (stats w))))
    (rng_pos w + 3 * N.of_nat k) (clock_pos w).

Lemma after_email_collisions_0 w : after_email_collisions 0 w = w.
Proof.
  destruct w as [[t [c r n]] p q]. unfold after_email_collisions. cbn.
  rewrite Nat.add_0_r, N.add_0_r. done.
Qed.

Lemma after_email_collisions_S k w :
  with_stats bump_collisions (drawn (drawn (drawn (after_email_collisions k w))))
  = after_email_collisions (S k) w.
Proof.
  unfold after_email_collisions, with_stats, bump_collisions, drawn. cbn.
  f_equal; [|lia]. do 2 f_equal. lia.
Qed.

Section EmailLoop.

Variable rand : N → N.
Variable clock : N → N.
Variable first_name last_name : string.

Lemma email_attempt_run attempt w e :
  email_candidate rand first_name last_name attempt w
  = (Ok e, drawn (drawn (drawn w))) →
  email_attempt rand first_name last_name attempt w
  = if decide (e ∉ emails (tracker w))
    then (Ok (inl e), with_tracker (add_email e) (drawn (drawn (drawn w))))
    else (Ok (inr tt), with_stats bump_collisions (drawn (drawn (drawn w)))).
Proof.
  intros Hrun. unfold email_attempt. unfold mbind at 1, M_bind at 1. rewrite Hrun.
  rewrite get_bind_run.
  change (tracker (drawn (drawn (drawn w)))) with (tracker w).
  by destruct (decide (e ∉ emails (tracker w))).
Qed.

(** [candidate] gives the candidate of each attempt index, drawn after as
    many collisions. *)
Definition candidates_of (candidate : nat → string) (w : World) : Prop :=
  ∀ k, email_candidate rand first_name last_name k (after_email_collisions k w)
       = (Ok (candidate k), drawn (drawn (drawn (after_email_collisions k w)))).

(** The loop from attempt [i] on, the attempts before it having collided. *)
Lemma email_loop_run candidate w n i last :
  candidates_of candidate w →
  (∀ k, (i ≤ k < i + n)%nat →
     (∀ j, (i ≤ j < k)%nat → candidate j ∈ emails (tracker w)) →
     candidate k ∉ emails (tracker w) →
     for_from (email_attempt rand first_name last_name) i n last
              (after_email_collisions i w)
     = (Ok (Returned (candidate k)),
        with_tracker (add_email (candidate k))
          (drawn (drawn (drawn (after_email_collisions k w))))))
  ∧
  ((∀ j, (i ≤ j < i + n)%nat → candidate j ∈ emails (tracker w)) →
   ∃ last',
     for_from (email_attempt rand first_name last_name) i n last
              (after_email_collisions i w)
     = (Ok (Exhausted last'), after_email_collisions (i + n) w)).
Proof.
  intros candidates. revert i last. induction n as [|n IH]; intros i last.
  - split; [intros k Hk; lia|]. intros _. exists last. cbn [for_from].
    by rewrite Nat.add_0_r.
  - cbn [for_from]. unfold mbind, M_bind.
    rewrite (email_attempt_run _ _ _ (candidates i)).
    change (tracker (after_email_collisions i w)) with (tracker w).
    destruct (decide (candidate i ∉ emails (tracker w))) as [Hnew|Hold].
    + split.
      * intros k Hk Hbefore Hk'. destruct (decide (k = i)) as [->|Hne]; [done|].
        exfalso. apply Hnew, Hbefore. lia.
      * intros Hall. exfalso. apply Hnew, Hall. lia.
    + apply dec_stable in Hold. rewrite after_email_collisions_S.
      destruct (IH (S i) (Some tt)) as [IHfound IHall]. split.
      * intros k Hk Hbefore Hk'. destruct (decide (k = i)) as [->|Hne]; [done|].
        apply IHfound; [lia| |done]. intros j Hj. apply Hbefore. lia.
      * intros Hall. destruct IHall as [last' Hrun].
        { intros j Hj. apply Hall. lia. }
        exists last'. by replace (i + S n)%nat with (S i + n)%nat by lia.
Qed.

(** A call runs the attempts of indices 0 to 49 in this order and returns
    the first candidate that is not tracked; after 50 collisions it falls
    back. *)
Lemma generate_unique_email_run candidate w :
  candidates_of candidate w →
  (∀ k, (k < 50)%nat →
     (∀ j, (j < k)%nat → candidate j ∈ emails (tracker w)) →
     candidate k ∉ emails (tracker w) →
     generate_unique_email rand clock first_name last_name w
     = (Ok (candidate k),
        with_tracker (add_email (candidate k))
          (drawn (drawn (drawn (after_email_collisions k w))))))
  ∧
  ((∀ j, (j < 50)%nat → candidate j ∈ emails (tracker w)) →
   generate_unique_email rand clock first_name last_name w
   = (Ok (fallback_email first_name last_name (clock (clock_pos w))),
      with_tracker (add_email (fallback_email first_name last_name (clock (clock_pos w))))
        (ticked (after_email_collisions 50 w)))).
Proof.
  intros candidates.
  destruct (email_loop_run candidate w 50 0 None candidates) as [Hfound Hall].
  rewrite after_email_collisions_0 in Hfound, Hall.
  unfold generate_unique_email, for_range. split.
  - intros k Hk Hbefore Hnew. unfold mbind at 1, M_bind at 1.
    rewrite (Hfound k); [done|lia| |done]. intros j Hj. apply Hbefore. lia.
  - intros Htracked. destruct Hall as [last' Hrun].
    { intros j Hj. apply Htracked. lia. }
    unfold mbind at 1, M_bind at 1. rewrite Hrun. done.
Qed.

End EmailLoop.

(** C8, amended: a call to the email generator with non-empty names runs
    its attempts with the indices 0 to 49, in this order, each after the
    collisions of all the attempts before it, and returns the candidate of
    the first attempt whose candidate is not tracked, or falls back after 50
    collisions.  The candidate of each of the first eleven attempts (indices
    0 to 10) is a local part followed by a suffix drawn from 1-99, and the
    candidate of every later attempt one with a suffix drawn from 1-9999; the
    local part is one of first.last, f+last, first+l and first_last, in
    lowercase, and the domain is one of the eight fixed ones.  Every such
    combination is the candidate under some draws. *)
Theorem email_candidate_ranges first_name last_name f l w :
  Py.head_char first_name = Some f → Py.head_char last_name = Some l →
  let top (attempt : nat) := if decide (attempt ≤ 10)%nat then 99%N else 9999%N in
  let local_parts :=
    [Py.lower first_name +:+ "." +:+ Py.lower last_name;
     String (Py.lower_char f) (Py.lower last_name);
     Py.lower first_name +:+ String (Py.lower_char l) "";
     Py.lower first_name +:+ "_" +:+ Py.lower last_name] in
  let eight_domains :=
    ["email.com"; "mail.com"; "inbox.com"; "webmail.com"; "postbox.com";
     "fastmail.com"; "promail.com"; "workmail.com"] in
  (∀ rand clock, ∃ candidate : nat → string,
     (∀ attempt, ∃ pattern num domain,
        email_candidate rand first_name last_name attempt
                        (after_email_collisions attempt w)
        = (Ok (candidate attempt),
           drawn (drawn (drawn (after_email_collisions attempt w)))) ∧
        candidate attempt = pattern +:+ Py.str num +:+ "@" +:+ domain ∧
        pattern ∈ local_parts ∧ Py.lower pattern = pattern ∧
        (1 ≤ num ≤ top attempt)%N ∧ domain ∈ eight_domains) ∧
     (∀ k, (k < 50)%nat →
        (∀ j, (j < k)%nat → candidate j ∈ emails (tracker w)) →
        candidate k ∉ emails (tracker w) →
        generate_unique_email rand clock first_name last_name w
        = (Ok (candidate k),
           with_tracker (add_email (candidate k))
             (drawn (drawn (drawn (after_email_collisions k w)))))) ∧
     ((∀ j, (j < 50)%nat → candidate j ∈ emails (tracker w)) →
      generate_unique_email rand clock first_name last_name w
      = (Ok (fallback_email first_name last_name (clock (clock_pos w))),
         with_tracker
           (add_email (fallback_email first_name last_name (clock (clock_pos w))))
           (ticked (after_email_collisions 50 w)))))
  ∧
  (∀ rand attempt w0, ∃ pattern num domain,
     email_candidate rand first_name last_name attempt w0
     = (Ok (pattern +:+ Py.str num +:+ "@" +:+ domain), drawn (drawn (drawn w0))) ∧
     pattern ∈ local_parts ∧ Py.lower pattern = pattern ∧
     (1 ≤ num ≤ top attempt)%N ∧ domain ∈ eight_domains)
  ∧
  (∀ attempt w0 pattern num domain,
     pattern ∈ local_parts → (1 ≤ num ≤ top attempt)%N → domain ∈ eight_domains →
     ∃ rand,
       email_candidate rand first_name last_name attempt w0
       = (Ok (pattern +:+ Py.str num +:+ "@" +:+ domain), drawn (drawn (drawn w0)))).
Proof.
  intros Hf Hl top local_parts eight_domains.
  assert (∀ attempt, suffix_max attempt = top attempt) as Htop.
  { intros attempt. unfold suffix_max, top. repeat case_decide; (done || lia). }
  assert (first_name ≠ "") as Hfne by (by destruct first_name).
  assert (last_name ≠ "") as Hlne by (by destruct last_name).
  assert (∀ rand attempt w0, ∃ pattern num domain,
            email_candidate rand first_name last_name attempt w0
            = (Ok (pattern +:+ Py.str num +:+ "@" +:+ domain), drawn (drawn (drawn w0))) ∧
            pattern ∈ local_parts ∧ Py.lower pattern = pattern ∧
            (1 ≤ num ≤ top attempt)%N ∧ domain ∈ eight_domains) as Hcand.
  { intros rand attempt w0.
    pose proof (email_candidate_spec rand first_name last_name attempt w0 Hfne Hlne) as H.
    apply wp_returns in H as (e & w' & Hrun & Hshape & ->).
    destruct Hshape as (f' & l' & pattern & num & domain & Hf' & Hl' & Hp & Hnum & Hd & ->).
    assert (f' = f) as -> by congruence. assert (l' = l) as -> by congruence.
    exists pattern, num, domain. split; [done|]. split; [done|].
    split; [by eapply email_local_parts_lower|]. split; [by rewrite <- Htop|done]. }
  split; [|split; [exact Hcand|]].
  - intros rand clock.
    exists (λ k, match (email_candidate rand first_name last_name k
                          (after_email_collisions k w)).1 with
                 | Ok e => e
                 | Raise _ => ""
                 end).
    split; [|apply generate_unique_email_run].
    + intros attempt.
      destruct (Hcand rand attempt (after_email_collisions attempt w))
        as (pattern & num & domain & Heq & H).
      exists pattern, num, domain. rewrite Heq. cbn [fst]. done.
    + intros k.
      destruct (Hcand rand k (after_email_collisions k w))
        as (pattern & num & domain & Heq & _).
      rewrite Heq. done.
  - intros attempt w0 pattern num domain Hp Hnum Hd.
    apply list_elem_of_lookup in Hp as [ip Hip]. apply list_elem_of_lookup in Hd as [id Hid].
    exists (draws_at (rng_pos w0) (N.of_nat ip) (num - 1) (N.of_nat id)).
    unfold email_candidate, email_patterns. rewrite Hf, Hl.
    rewrite ret_bind_run.
    unfold mbind at 1, M_bind at 1.
    erewrite (choice_at _ _ ip pattern); [|exact Hip|].
    2:{ unfold draws_at. by rewrite decide_True. }
    unfold mbind at 1, M_bind at 1.
    unfold randint, mbind at 1, M_bind at 1, draw, drawn. cbn [rng_pos self clock_pos].
    unfold mret at 1, M_ret at 1.
    unfold mbind at 1, M_bind at 1.
    erewrite (choice_at _ _ id domain); [|exact Hid|].
    2:{ unfold draws_at. cbn [rng_pos]. rewrite decide_False by lia.
        by rewrite decide_False by lia. }
    unfold mret, M_ret, drawn. cbn [rng_pos self clock_pos]. do 4 f_equal.
    unfold draws_at. rewrite decide_False by lia. rewrite decide_True by done.
    rewrite Htop. generalize dependent (top attempt). intros t Ht.
    rewrite N.mod_small by lia. f_equal. lia.
Qed.

(** The amended C8 at the calls for James Smith on the generator that tracks
    ten of his addresses: the attempts and their candidates, the eleventh
    with a suffix from 1-99 and the twelfth with one from 1-9999. *)
Lemma email_candidate_ranges_witness :
  ∃ candidate : nat → string,
    (∀ attempt, ∃ pattern num domain,
       email_candidate eleventh_draws "James" "Smith" attempt
                       (after_email_collisions attempt ten_addresses)
       = (Ok (candidate attempt),
          drawn (drawn (drawn (after_email_collisions attempt ten_addresses)))) ∧
       candidate attempt = pattern +:+ Py.str num +:+ "@" +:+ domain ∧
       pattern ∈ ["james.smith"; "jsmith"; "jamess"; "james_smith"] ∧
       Py.lower pattern = pattern ∧
       (1 ≤ num ≤ if decide (attempt ≤ 10)%nat then 99 else 9999)%N ∧
       domain ∈ domains) ∧
    (∀ k, (k < 50)%nat →
       (∀ j, (j < k)%nat → candidate j ∈ emails (tracker ten_addresses)) →
       candidate k ∉ emails (tracker ten_addresses) →
       generate_unique_email eleventh_draws stopped_clock "James" "Smith" ten_addresses
       = (Ok (candidate k),
          with_tracker (add_email (candidate k))
            (drawn (drawn (drawn (after_email_collisions k ten_addresses)))))) ∧
    ((∀ j, (j < 50)%nat → candidate j ∈ emails (tracker ten_addresses)) →
     generate_unique_email eleventh_draws stopped_clock "James" "Smith" ten_addresses
     = (Ok (fallback_email "James" "Smith" (stopped_clock (clock_pos ten_addresses))),
        with_tracker
          (add_email (fallback_email "James" "Smith"
                        (stopped_clock (clock_pos ten_addresses))))
          (ticked (after_email_collisions 50 ten_addresses)))).
Proof.
  exact (proj1 (email_candidate_ranges "James" "Smith" "J" "S" ten_addresses
                  eq_refl eq_refl) eleventh_draws stopped_clock).
Defined.

(** ** C9: the composite fingerprint *)

(** C9: whenever the fingerprint over first name, last name, email, phone
    and full address of the components just generated is already in the
    tracker, [generate_persona] runs the corrective pass once: the
    regeneration counter is incremented, a number from 1-99 is drawn and
    appended to the base first name, and only the email is generated again
    from that seed; the fingerprint is recomputed with the new email and
    recorded, whether or not it is in the tracker too, the persona is
    returned with the new email and all its other fields unchanged, and the
    counter of produced personas is incremented. *)
Theorem fingerprint_collision_single_pass rand clock state w c w4 :
  persona_components rand clock state w = (Ok c, w4) →
  fingerprint c (c_email c) ∈ person_hashes (tracker w4) →
  ∃ n e' w5,
    (1 ≤ n ≤ 99)%N ∧
    generate_unique_email rand clock (c_base c +:+ Py.str n) (c_last c)
                          (drawn (with_stats bump_regenerations w4)) = (Ok e', w5) ∧
    generate_persona rand clock state w
    = (Ok (set_Email (assemble c (c_email c)) e'),
       with_stats bump_total (with_tracker (add_person_hash (fingerprint c e')) w5)) ∧
    tracker w5 = add_email e' (tracker w4) ∧
    unique_regenerations (stats w5) = S (unique_regenerations (stats w4)) ∧
    total_generated (stats w5) = total_generated (stats w4).
Proof.
  intros Hrun Hin.
  assert (Py.split_first (c_first c) = Some (c_base c) ∧ c_base c ≠ "" ∧ c_last c ≠ "")
    as (Hbase & Hbne & Hlne).
  { destruct (state_cases state) as [Hvalid|(s & Hs & Hnone)].
    - pose proof (persona_components_spec rand clock state w Hvalid) as H.
      apply (wp_run _ _ _ _ _ Hrun) in H.
      destruct H as (places & w3 & _ & _ & _ & _ & Hf & _).
      destruct Hf as (_ & _ & ? & _ & ? & ? & _). done.
    - pose proof (persona_components_unknown rand clock state s w Hs Hnone) as H.
      apply (wp_run _ _ _ _ _ Hrun) in H. by destruct H. }
  pose proof (finish_persona_spec rand clock c w4 Hbase Hbne Hlne) as H.
  apply wp_returns in H as (p & w' & Hfin & e' & w5 & -> & -> & Hcase).
  destruct Hcase as [(Hnot & _)|(_ & n & Hn & Hemail & Ht & Hr & Htot)]; [done|].
  exists n, e', w5. split; [done|]. split; [done|].
  split; [|done].
  rewrite generate_persona_phases. unfold mbind, M_bind. by rewrite Hrun, Hfin.
Qed.

(** ** C4: the middle initial of the name fallback cycles *)

(** [n] successive calls of a method on the same generator. *)
Fixpoint call_repeatedly {A} (m : M A) (n : nat) (w : World) : list (result A) * World :=
  match n with
  | O => ([], w)
  | S n' =>
      let '(r, w') := m w in
      let '(rs, w'') := call_repeatedly m n' w' in
      (r :: rs, w'')
  end.

(** Draws for 28 calls of the name generator: the first call draws James
    Smith; the second draws James Smith 200 times and falls back; calls 3
    to 27 draw James with the 25 next last names; the 28th draws James Smith
    200 times again. *)
Definition cycling_draws : N → N := λ i,
  if (i <? 603)%N then 0%N
  else if (i <? 678)%N then
    let q := (i - 603)%N in
    if (q `mod` 3 =? 2)%N then (q `div` 3 + 1)%N else 0%N
  else 0%N.

(** C4 fails on the code: in 28 calls of the name generator on a fresh
    generator, the second call exhausts its 200 attempts with 1 name
    tracked and returns "James B" Smith; the 28th exhausts them with 27
    names tracked, and as 27 mod 26 = 1 it returns "James B" Smith again,
    a name already issued and tracked. *)
Lemma name_fallback_repeats_after_26 :
  let run := call_repeatedly (generate_unique_name cycling_draws) 28 fresh_world in
  (run.1 !! 1%nat, run.1 !! 27%nat,
   unique_regenerations (stats run.2), size (full_names (tracker run.2)),
   bool_decide ("James B Smith" ∈ full_names
      (tracker (call_repeatedly (generate_unique_name cycling_draws) 27 fresh_world).2)))
  = (Some (Ok ("James B", "Smith")), Some (Ok ("James B", "Smith")), 2%nat, 27%nat, true).
Proof. vm_compute. reflexivity. Qed.

(** ** C2 and C6: the phone fallback can repeat a number *)

(** The draws of persona [k] of the scenario, [j] being the index of the
    draw within the persona: a name of its own (draws 0-2), the local part
    first.last with suffix 1 at email.com (draws 3-5), then the phone and
    the place.  Persona 0 draws exchange 999 and subscriber 1000; personas 1
    to 999 draw exchange 200 and subscriber 1000 + k; persona 1000 draws
    exchange 999 and subscriber 1000 in each of its 100 attempts. *)
Definition persona_draw (k j : N) : N :=
  if (j =? 0)%N then (k `mod` 2)%N
  else if (j =? 1)%N then ((k `div` 2) `mod` 42)%N
  else if (j =? 2)%N then (k `div` 84)%N
  else if (j <? 6)%N then 0%N
  else if (k =? 1000)%N then
    (if (j <? 306)%N then (if ((j - 6) `mod` 3 =? 1)%N then 799%N else 0%N) else 0%N)
  else if (j =? 6)%N then 0%N
  else if (j =? 7)%N then (if (k =? 0)%N then 799%N else 0%N)
  else if (j =? 8)%N then k
  else if (k <? 5)%N then k else 0%N.

(** The first five personas take 10 draws each (a fresh place at once),
    the later ones 16 (six collisions on a used place, then reuse). *)
Definition scenario_draws : N → N := λ i,
  if (i <? 50)%N then persona_draw (i `div` 10) (i `mod` 10)
  else
    let q := (i - 50)%N in
    if (q <? 15920)%N then persona_draw (5 + q `div` 16) (q `mod` 16)
    else persona_draw 1000 (q - 15920).

(** Draws that make every attempt of the phone generator come out as
    exchange 999 and subscriber 1000, from cursor 15970 on. *)
Definition exchange_999_draws : N → N := λ i,
  if ((i + 2) `mod` 3 =? 1)%N then 799%N else 0%N.

Definition batch_summary (r : result (list Persona) * World)
  : option (nat * option string * option string) * nat * nat :=
  (match r.1 with
   | Ok ps => Some (length ps, Phone <$> ps !! 0%nat, Phone <$> ps !! 1000%nat)
   | Raise _ => None
   end,
   unique_regenerations (stats r.2), size (phones (tracker r.2))).

Lemma scenario_batch_summary :
  batch_summary (generate_multiple_personas scenario_draws stopped_clock 1001
                   (Some "Wyoming") fresh_world)
  = (Some (1001%nat, Some "(307) 999-1000", Some "(307) 999-1000"), 0%nat, 1000%nat).
Proof. vm_compute. reflexivity. Qed.

(** C2 fails on the code: a batch of 1001 personas for Wyoming on a fresh
    generator ends with the fallback-regeneration counter at zero, yet its
    first and its last persona carry the same phone number, so the batch has
    1000 distinct phone numbers, not 1001. *)
Lemma batch_repeats_phone_with_zero_counter :
  ∃ ps w',
    generate_multiple_personas scenario_draws stopped_clock 1001 (Some "Wyoming")
                               fresh_world = (Ok ps, w') ∧
    length ps = 1001%nat ∧
    unique_regenerations (stats w') = 0%nat ∧
    Phone <$> ps !! 0%nat = Some "(307) 999-1000" ∧
    Phone <$> ps !! 1000%nat = Some "(307) 999-1000" ∧
    size (phones (tracker w')) = 1000%nat ∧
    ¬ NoDup (Phone <$> ps).
Proof.
  pose proof scenario_batch_summary as H. unfold batch_summary in H.
  destruct (generate_multiple_personas scenario_draws stopped_clock 1001
              (Some "Wyoming") fresh_world) as [[ps|e] w']; [|discriminate].
  cbn [fst snd] in H. injection H as Hlen H0 H1000 Hr Hsize.
  exists ps, w'. repeat (split; [done|]).
  intros Hnd. rewrite <- list_lookup_fmap in H0, H1000.
  assert (0 = 1000)%nat; [|lia].
  by eapply NoDup_lookup.
Qed.

Definition phone_summary (w : World)
  : nat * bool * result (loop_result string string) * result string * nat :=
  (size (phones (tracker w)),
   bool_decide ("(307) 999-1000" ∈ phones (tracker w)),
   (for_range 100 (phone_attempt exchange_999_draws "Wyoming") w).1,
   (generate_phone_number exchange_999_draws "Wyoming" w).1,
   size (phones (tracker (generate_phone_number exchange_999_draws "Wyoming" w).2))).

(** C6 fails on the code: after 1000 personas for Wyoming, with 1000
    tracked phone numbers (a count that needs no more than four digits), a
    call of the phone generator whose 100 attempts all collide falls back
    to "(307) 999-1000", the number the regular path issued to the first
    persona with exchange 999 and subscriber 1000. *)
Lemma phone_fallback_repeats_regular_number :
  phone_summary
    (generate_multiple_personas scenario_draws stopped_clock 1000
       (Some "Wyoming") fresh_world).2
  = (1000%nat, true, Ok (Exhausted (Some "307")), Ok "(307) 999-1000", 1000%nat).
Proof. vm_compute. reflexivity. Qed.

(** ** C9 on a reachable generator *)

(** Draws under which the 1016th persona of a lineage repeats the second
    one in all five fingerprinted fields.  Persona 2 falls back to the name
    "James B" Smith (1 name tracked) and gets the regular email
    james.smith2@email.com, the regular phone (307) 999-1015 and the second
    place of Wyoming.  Persona 1016 falls back to "James B" Smith again
    (1015 names tracked, 1015 mod 26 = 1), exhausts the 50 email attempts and
    the 100 phone attempts, and is served the second place again on its
    seventh address attempt. *)
Definition regular_draw (k j : N) : N :=
  if (j =? 0)%N then (k `mod` 2)%N
  else if (j =? 1)%N then ((k `div` 2) `mod` 42)%N
  else if (j =? 2)%N then (k `div` 84)%N
  else if (j <? 8)%N then 0%N
  else if (j =? 8)%N then k
  else if (k <? 5)%N then k else 0%N.

Definition first_fallback_draw (j : N) : N :=
  if (j <? 601)%N then 0%N
  else if (j =? 601)%N then 1%N
  else if (j =? 604)%N then 799%N
  else if (j =? 605)%N then 15%N
  else if (j =? 606)%N then 1%N
  else 0%N.

Definition second_fallback_draw (j : N) : N :=
  if (j <? 750)%N then 0%N
  else if (j <? 1050)%N then
    let t := ((j - 750) `mod` 3)%N in
    if (t =? 1)%N then 799%N else if (t =? 2)%N then 15%N else 0%N
  else if (j <? 1057)%N then 1%N
  else 0%N.

Definition collision_draws : N → N := λ i,
  if (i <? 10)%N then regular_draw 0 i
  else if (i <? 617)%N then first_fallback_draw (i - 10)
  else if (i <? 647)%N then regular_draw (2 + (i - 617) `div` 10) ((i - 617) `mod` 10)
  else if (i <? 16807)%N then regular_draw (5 + (i - 647) `div` 16) ((i - 647) `mod` 16)
  else second_fallback_draw (i - 16807).

(** A clock stopped at an instant whose millisecond count ends in 000002,
    so that the email fallback appends 2. *)
Definition clock_at_2 : N → N := λ _, 1700000000002%N.

(** The generator after a batch of 1015 personas for Wyoming. *)
Definition collision_world : World :=
  (generate_multiple_personas collision_draws clock_at_2 1015 (Some "Wyoming")
     fresh_world).2.

(** The components of the 1016th persona, and the world they leave. *)
Definition collision_components : Components :=
  mkComponents "Wyoming" "James B" "Smith" "James" "james.smith2@email.com"
               "(307) 999-1015"
               (mkPlace "Wyoming State Capitol" "200 W 24th St" "Cheyenne" "82002")
               "WY" 1015 1700000000002.

Definition collision_mid : World :=
  (persona_components collision_draws clock_at_2 (Some "Wyoming") collision_world).2.

Definition components_summary (r : result Components * World)
  : option (Components * bool) :=
  match r.1 with
  | Ok c => Some (c, bool_decide (fingerprint c (c_email c) ∈ person_hashes (tracker r.2)))
  | Raise _ => None
  end.

Lemma collision_components_summary :
  components_summary
    (persona_components collision_draws clock_at_2 (Some "Wyoming") collision_world)
  = Some (collision_components, true).
Proof. vm_compute. reflexivity. Qed.

(** C9 at the 1016th persona of that lineage: its fingerprint is the one of
    the second persona, and the corrective pass runs once. *)
Lemma fingerprint_collision_single_pass_witness :
  ∃ n e' w5,
    (1 ≤ n ≤ 99)%N ∧
    generate_unique_email collision_draws clock_at_2 ("James" +:+ Py.str n) "Smith"
                          (drawn (with_stats bump_regenerations collision_mid))
    = (Ok e', w5) ∧
    generate_persona collision_draws clock_at_2 (Some "Wyoming") collision_world
    = (Ok (set_Email (assemble collision_components "james.smith2@email.com") e'),
       with_stats bump_total
         (with_tracker (add_person_hash (fingerprint collision_components e')) w5)) ∧
    tracker w5 = add_email e' (tracker collision_mid) ∧
    unique_regenerations (stats w5) = S (unique_regenerations (stats collision_mid)) ∧
    total_generated (stats w5) = total_generated (stats collision_mid).
Proof.
  pose proof collision_components_summary as Hs.
  unfold components_summary, collision_mid in *.
  destruct (persona_components collision_draws clock_at_2 (Some "Wyoming")
              collision_world) as [[c|e] w4] eqn:E; cbn [fst snd] in *; [|discriminate].
  injection Hs as -> Hin. apply bool_decide_eq_true in Hin.
  exact (fingerprint_collision_single_pass collision_draws clock_at_2 (Some "Wyoming")
           collision_world collision_components w4 E Hin).
Defined.

(** ** C10: the two name sets move together *)

(** A name of the fallback: a catalog pair with a middle initial A-Z
    appended to the first name. *)
Definition fallback_name (f l : string) : Prop :=
  ∃ c k, catalog_name c l ∧ (k < 26)%N ∧ f = c +:+ " " +:+ String (Py.chr (65 + k)) "".

(** The full-names set and the name-hashes set are the full names and the
    hashes of one and the same list of issued (first, last) pairs. *)
Definition names_in_step (t : Tracker) : Prop :=
  ∃ issued : list (string * string),
    Forall (λ p, catalog_name p.1 p.2 ∨ fallback_name p.1 p.2) issued ∧
    full_names t = list_to_set ((λ p, full_name_of p.1 p.2) <$> issued) ∧
    name_hashes t = list_to_set ((λ p, name_key p.1 p.2) <$> issued).

(** The two sets are left alone, or one pair is recorded in both. *)
Definition names_step (t t' : Tracker) : Prop :=
  (full_names t' = full_names t ∧ name_hashes t' = name_hashes t)
  ∨ ∃ f l, (catalog_name f l ∨ fallback_name f l) ∧
           full_names t' = set_add (full_name_of f l) (full_names t) ∧
           name_hashes t' = set_add (name_key f l) (name_hashes t).

Lemma names_in_step_new : names_in_step (unique_tracker new_generator).
Proof. exists []. split; [constructor|]. done. Qed.

Lemma names_in_step_step t t' : names_in_step t → names_step t t' → names_in_step t'.
Proof.
  intros (issued & Hshape & Hfull & Hkeys) [[Hf Hk]|(f & l & Hfl & Hf & Hk)].
  - exists issued. by rewrite Hf, Hk.
  - exists ((f, l) :: issued). split; [by constructor|].
    rewrite Hf, Hk, !fmap_cons, !list_to_set_cons, !set_add_union, Hfull, Hkeys. done.
Qed.

Lemma name_outcome_shape t f l b :
  name_outcome t f l b → catalog_name f l ∨ fallback_name f l.
Proof.
  destruct b; simpl.
  - intros (c & Hc & ->). right. exists c, (N.of_nat (size (full_names t)) `mod` 26)%N.
    split; [done|]. split; [|done]. apply N.mod_upper_bound. lia.
  - intros (Hc & _). by left.
Qed.

Section NameSetsFrame.

Variable rand : N → N.
Variable clock : N → N.

Lemma generate_unique_name_step w :
  names_step (tracker w) (tracker (generate_unique_name rand w).2).
Proof.
  pose proof (generate_unique_name_spec rand w) as H.
  apply wp_returns in H as ([f l] & w' & -> & Ht & _ & _ & Hcase). simpl.
  right. exists f, l. rewrite Ht. split; [|done].
  destruct Hcase as [(Hc & _)|(c & Hc & -> & _)].
  - by left.
  - apply (name_outcome_shape (tracker w) _ l true). by exists c.
Qed.

Lemma generate_unique_email_step first_name last_name w :
  names_step (tracker w)
             (tracker (generate_unique_email rand clock first_name last_name w).2).
Proof.
  left. destruct first_name as [|a first']; [done|].
  destruct last_name as [|b last']; [done|].
  pose proof (generate_unique_email_spec rand clock (String a first') (String b last') w) as H.
  apply wp_returns in H as (e & w' & -> & Ht & _); [|done..]. simpl. by rewrite Ht.
Qed.

Lemma generate_phone_number_step state w :
  names_step (tracker w) (tracker (generate_phone_number rand state w).2).
Proof.
  left. pose proof (generate_phone_number_spec rand state w) as H.
  apply wp_returns in H as (p & w' & -> & Ht & _). simpl. by rewrite Ht.
Qed.

Lemma generate_unique_address_step state w :
  names_step (tracker w) (tracker (generate_unique_address rand state w).2).
Proof.
  left. destruct (dict_lookup Catalog.public_places state) as [places|] eqn:Hplaces.
  - pose proof (dict_lookup_Forall (λ _ v, length v = 5%nat) _ _ _
                  public_places_five Hplaces) as Hfive.
    pose proof (dict_lookup_Forall (λ k _, is_Some (dict_lookup Catalog.state_codes k))
                  _ _ _ public_places_coded Hplaces) as [code Hcode].
    cbn beta in Hfive, Hcode.
    assert (2 ≤ length places)%nat as Hlen by lia.
    pose proof (generate_unique_address_spec rand state places code w
                  Hplaces Hcode Hlen) as H.
    apply wp_returns in H as (place & w' & -> & _ & Ht & _). simpl. by rewrite Ht.
  - by rewrite generate_unique_address_unknown.
Qed.

(** A persona request records exactly one name, whether it ends in a
    persona or in an exception. *)
Lemma generate_persona_step state w :
  names_step (tracker w) (tracker (generate_persona rand clock state w).2).
Proof.
  right. destruct (state_cases state) as [Hvalid|(s & Hs & Hnone)].
  - rewrite generate_persona_phases.
    pose proof (persona_components_spec rand clock state w Hvalid) as Hc.
    apply wp_returns in Hc
      as (c & w4 & Hrun & places & w3 & _ & _ & _ & _ & Hf & Ht4 & _).
    destruct Hf as (Ht3 & _ & Hbase & _ & Hbne & Hlne & _ & _ & b & Hname & _).
    pose proof (finish_persona_spec rand clock c w4 Hbase Hbne Hlne) as Hfin.
    apply wp_returns in Hfin as (p & w' & Hrun' & e' & w5 & _ & -> & Hcase).
    unfold mbind, M_bind. rewrite Hrun, Hrun'. cbn [snd].
    exists (c_first c), (c_last c). split; [by eapply name_outcome_shape|].
    assert (full_names (tracker w5) = full_names (tracker w4) ∧
            name_hashes (tracker w5) = name_hashes (tracker w4)) as [Hf5 Hk5].
    { destruct Hcase as [(_ & _ & ->)|(_ & n & _ & _ & -> & _)]; done. }
    unfold recorded. simpl. rewrite Hf5, Hk5, Ht4, Ht3. done.
  - destruct (generate_persona_unknown rand clock state s w Hs Hnone)
      as (w' & f & l & base & e & p & -> & Ht & _ & _ & _ & _ & _ & _ & _ & b & Hname & _).
    cbn [snd]. exists f, l. split; [by eapply name_outcome_shape|].
    rewrite Ht. done.
Qed.

Lemma personas_loop_in_step n state acc w :
  names_in_step (tracker w) →
  names_in_step (tracker (personas_loop rand clock n state acc w).2).
Proof.
  revert acc w. induction n as [|n IH]; intros acc w Hw; [done|].
  cbn [personas_loop]. unfold mbind, M_bind.
  pose proof (generate_persona_step state w) as Hstep.
  destruct (generate_persona rand clock state w) as [[p|e] w1]; cbn [snd] in *.
  - apply IH. by eapply names_in_step_step.
  - by eapply names_in_step_step.
Qed.

End NameSetsFrame.

(** The calls a client can make on a generator. *)
Inductive call :=
  | CallName
  | CallEmail (first_name last_name : string)
  | CallPhone (state : string)
  | CallAddress (state : string)
  | CallPersona (state : option string)
  | CallBatch (count : Z) (state : option string).

(** The world a call leaves, whether it returns or raises. *)
Definition perform (rand clock : N → N) (c : call) (w : World) : World :=
  match c with
  | CallName => (generate_unique_name rand w).2
  | CallEmail first_name last_name =>
      (generate_unique_email rand clock first_name last_name w).2
  | CallPhone state => (generate_phone_number rand state w).2
  | CallAddress state => (generate_unique_address rand state w).2
  | CallPersona state => (generate_persona rand clock state w).2
  | CallBatch count state => (generate_multiple_personas rand clock count state w).2
  end.

(** The worlds reachable from a fresh generator. *)
Definition after_calls (rand clock : N → N) (calls : list call) (rng_start clock_start : N)
  : World :=
  foldl (λ w c, perform rand clock c w) (mkWorld new_generator rng_start clock_start) calls.

Lemma perform_in_step rand clock c w :
  names_in_step (tracker w) → names_in_step (tracker (perform rand clock c w)).
Proof.
  intros Hw. destruct c; cbn [perform].
  - eapply names_in_step_step; [exact Hw|]. apply generate_unique_name_step.
  - eapply names_in_step_step; [exact Hw|]. apply generate_unique_email_step.
  - eapply names_in_step_step; [exact Hw|]. apply generate_phone_number_step.
  - eapply names_in_step_step; [exact Hw|]. apply generate_unique_address_step.
  - eapply names_in_step_step; [exact Hw|]. apply generate_persona_step.
  - by apply personas_loop_in_step.
Qed.

Lemma after_calls_in_step rand clock calls rng_start clock_start :
  names_in_step (tracker (after_calls rand clock calls rng_start clock_start)).
Proof.
  unfold after_calls.
  assert (names_in_step (tracker (mkWorld new_generator rng_start clock_start))) as H
    by apply names_in_step_new.
  revert H. generalize (mkWorld new_generator rng_start clock_start).
  induction calls as [|c calls IH]; intros w Hw; [done|].
  cbn [foldl]. apply IH. by apply perform_in_step.
Qed.

(** *** No two name keys that matter collide under MD5 *)

(** The pairs an attempt can draw, and the pairs the fallback can return. *)
Definition catalog_pairs : list (string * string) :=
  cprod first_name_pool Catalog.last_names.

Definition initials : list string :=
  (λ k, String (Py.chr (65 + N.of_nat k)) "") <$> seq 0 26.

Definition fallback_pairs : list (string * string) :=
  (λ '(c, i, l), (c +:+ " " +:+ i, l))
    <$> cprod (cprod first_name_pool initials) Catalog.last_names.

(** Insert the elements of [l] one by one, failing on a repeated one. *)
Fixpoint distinct_into (l : list string) (acc : gset string) : option (gset string) :=
  match l with
  | [] => Some acc
  | x :: l' => if bool_decide (x ∈ acc) then None else distinct_into l' (set_add x acc)
  end.

(** The hashes of the 4032 catalog pairs are pairwise distinct, and none of
    the 104832 fallback pairs hashes to one of them. *)
Definition name_keys_collision_free : bool :=
  match distinct_into ((λ p, name_key p.1 p.2) <$> catalog_pairs) ∅ with
  | Some keys => forallb (λ p, negb (bool_decide (name_key p.1 p.2 ∈ keys))) fallback_pairs
  | None => false
  end.

Lemma name_keys_checked : name_keys_collision_free = true.
Proof. vm_compute. reflexivity. Qed.

Lemma distinct_into_spec l acc keys :
  distinct_into l acc = Some keys →
  NoDup l ∧ (∀ x, x ∈ l → x ∈ keys).
Proof.
  assert (∀ l acc keys, distinct_into l acc = Some keys →
            NoDup l ∧ (∀ x, x ∈ l → x ∉ acc) ∧ (∀ x, x ∈ l ∨ x ∈ acc → x ∈ keys)) as Hgen.
  { clear. induction l as [|y l IH]; intros acc keys; cbn [distinct_into].
    - intros [= ->]. split; [constructor|]. split.
      + intros x Hx. by apply not_elem_of_nil in Hx.
      + intros x [Hx|Hx]; [by apply not_elem_of_nil in Hx|done].
    - case_bool_decide as Hy; [done|]. intros H.
      apply IH in H as (Hnd & Hfresh & Hkeys).
      assert (∀ x, x ∈ set_add y acc ↔ x = y ∨ x ∈ acc) as Hadd.
      { intros x. rewrite set_add_union, elem_of_union, elem_of_singleton. done. }
      split; [|split].
      + constructor; [|done]. intros Hin. apply (Hfresh y Hin). apply Hadd. by left.
      + intros x [->|Hx]%elem_of_cons; [done|].
        intros Hacc. apply (Hfresh x Hx). apply Hadd. by right.
      + intros x [[->|Hx]%elem_of_cons|Hx]; apply Hkeys.
        * right. apply Hadd. by left.
        * by left.
        * right. apply Hadd. by right. }
  intros H. apply Hgen in H as (Hnd & _ & Hkeys). split; [done|]. auto.
Qed.

Lemma NoDup_fmap_eq {A B} (g : A → B) (l : list A) x y :
  NoDup (g <$> l) → x ∈ l → y ∈ l → g x = g y → x = y.
Proof.
  intros Hnd [i Hi]%list_elem_of_lookup [j Hj]%list_elem_of_lookup Hg.
  assert (i = j) as ->.
  { apply (NoDup_lookup _ i j (g x) Hnd); rewrite list_lookup_fmap.
    - by rewrite Hi.
    - by rewrite Hj, Hg. }
  congruence.
Qed.

Lemma catalog_name_pair f l : catalog_name f l → (f, l) ∈ catalog_pairs.
Proof. intros [Hf Hl]. by apply list_elem_of_cprod. Qed.

Lemma fallback_name_pair f l : fallback_name f l → (f, l) ∈ fallback_pairs.
Proof.
  intros (c & k & [Hc Hl] & Hk & ->). unfold fallback_pairs.
  apply list_elem_of_fmap.
  exists (c, String (Py.chr (65 + k)) "", l). split; [done|].
  apply list_elem_of_cprod. split; [|done].
  apply list_elem_of_cprod. split; [done|]. cbn [fst snd].
  unfold initials. apply list_elem_of_fmap. exists (N.to_nat k).
  split; [by rewrite N2Nat.id|]. apply elem_of_seq. lia.
Qed.

(** The hash of a pair an attempt can draw is the hash of no other pair
    the generator can ever have issued. *)
Lemma name_key_no_collision f l f' l' :
  catalog_name f l →
  catalog_name f' l' ∨ fallback_name f' l' →
  name_key f' l' = name_key f l →
  (f', l') = (f, l).
Proof.
  intros Hc Hissued Hkey.
  pose proof name_keys_checked as Hchk. unfold name_keys_collision_free in Hchk.
  destruct (distinct_into ((λ p, name_key p.1 p.2) <$> catalog_pairs) ∅)
    as [keys|] eqn:Hkeys; [|done].
  apply distinct_into_spec in Hkeys as [Hnd Hin].
  apply catalog_name_pair in Hc.
  destruct Hissued as [Hc'|Hfb].
  - apply catalog_name_pair in Hc'.
    by apply (NoDup_fmap_eq (λ p, name_key p.1 p.2) catalog_pairs).
  - apply fallback_name_pair in Hfb.
    rewrite forallb_forall in Hchk. apply list_elem_of_In, Hchk in Hfb.
    apply negb_true_iff, bool_decide_eq_false in Hfb. cbn [fst snd] in Hfb.
    exfalso. apply Hfb. rewrite Hkey. apply Hin.
    apply list_elem_of_fmap. by exists (f, l).
Qed.

(** C10: in every world reachable from a fresh generator by calls of its
    methods, whatever they return or raise, the full-names set and the
    name-hashes set are the full names and the MD5 hashes of the same issued
    (first, last) pairs, each a catalog pair or a catalog pair with a middle
    initial; and a pair an attempt of the name generator can draw whose full
    name is not tracked has a hash that is not tracked either, so that the
    hash test never rejects what the full-name test accepts. *)
Theorem name_hashes_follow_full_names rand clock calls rng_start clock_start :
  let t := tracker (after_calls rand clock calls rng_start clock_start) in
  (∃ issued : list (string * string),
     Forall (λ p, catalog_name p.1 p.2 ∨ fallback_name p.1 p.2) issued ∧
     full_names t = list_to_set ((λ p, full_name_of p.1 p.2) <$> issued) ∧
     name_hashes t = list_to_set ((λ p, generate_unique_hash [p.1; p.2]) <$> issued))
  ∧
  (∀ f l, catalog_name f l →
          full_name_of f l ∉ full_names t →
          generate_unique_hash [f; l] ∉ name_hashes t).
Proof.
  cbv zeta.
  pose proof (after_calls_in_step rand clock calls rng_start clock_start) as Hinv.
  split; [exact Hinv|].
  destruct Hinv as (issued & Hshape & Hfull & Hkeys).
  intros f l Hc Hnew Hin. apply Hnew. rewrite Hfull. rewrite Hkeys in Hin.
  apply elem_of_list_to_set, list_elem_of_fmap in Hin as ([f' l'] & Hkey & Hp).
  cbn [fst snd] in Hkey.
  rewrite Forall_forall in Hshape. specialize (Hshape _ Hp). cbn [fst snd] in Hshape.
  assert ((f', l') = (f, l)) as Heq by (by apply name_key_no_collision).
  injection Heq as -> ->.
  apply elem_of_list_to_set, list_elem_of_fmap. by exists (f, l).
Qed.

(** * Further properties of the generator *)

(** ** Strings made of one class of characters *)

Fixpoint all_chars (P : ascii → bool) (s : string) : bool :=
  match s with
  | EmptyString => true
  | String c s' => P c && all_chars P s'
  end.

(** The string is empty or starts with a character outside the class. *)
Definition starts_outside (P : ascii → bool) (s : string) : bool :=
  match s with
  | EmptyString => true
  | String c _ => negb (P c)
  end.

Definition is_lower_letter (c : ascii) : bool :=
  let n := Ascii.nat_of_ascii c in (97 <=? n)%nat && (n <=? 122)%nat.

Definition is_digit (c : ascii) : bool :=
  let n := Ascii.nat_of_ascii c in (48 <=? n)%nat && (n <=? 57)%nat.

(** A prefix of one class, followed by a character outside it, is
    determined by the whole string. *)
Lemma class_prefix_unique P a a' r r' :
  all_chars P a = true → all_chars P a' = true →
  starts_outside P r = true → starts_outside P r' = true →
  a +:+ r = a' +:+ r' → a = a' ∧ r = r'.
Proof.
  revert a'. induction a as [|c a IH]; intros [|c' a'] Ha Ha' Hr Hr' Heq.
  - done.
  - exfalso. change (r = String c' (a' +:+ r')) in Heq. subst r.
    cbn in Hr, Ha'. apply andb_prop in Ha' as [Hc _]. by rewrite Hc in Hr.
  - exfalso. change (String c (a +:+ r) = r') in Heq. subst r'.
    cbn in Hr', Ha. apply andb_prop in Ha as [Hc _]. by rewrite Hc in Hr'.
  - change (String c (a +:+ r) = String c' (a' +:+ r')) in Heq.
    injection Heq as -> Heq. cbn in Ha, Ha'.
    apply andb_prop in Ha as [_ Ha]. apply andb_prop in Ha' as [_ Ha'].
    destruct (IH a' Ha Ha' Hr Hr' Heq) as [-> ->]. done.
Qed.

Lemma all_chars_app P s t :
  all_chars P (s +:+ t) = all_chars P s && all_chars P t.
Proof.
  induction s as [|c s IH]; [done|].
  change (String c s +:+ t) with (String c (s +:+ t)). cbn. by rewrite IH, andb_assoc.
Qed.

Lemma pretty_N_char_digit d : is_digit (pretty_N_char d) = true.
Proof. unfold pretty_N_char. by repeat case_match. Qed.

Lemma pretty_N_go_digits x s :
  all_chars is_digit s = true → all_chars is_digit (pretty_N_go x s) = true.
Proof.
  revert s. induction (N.lt_wf_0 x) as [x _ IH]. intros s Hs.
  destruct (decide (x = 0)%N) as [->|Hx]; [done|].
  rewrite pretty_N_go_step by lia. apply IH; [apply N.div_lt; lia|].
  cbn. by rewrite pretty_N_char_digit, Hs.
Qed.

(** [str(n)] is a non-empty string of digits. *)
Lemma str_digits n : all_chars is_digit (Py.str n) = true.
Proof.
  unfold Py.str, pretty, pretty_N. case_decide; [done|]. by apply pretty_N_go_digits.
Qed.

Lemma pretty_N_go_nonempty x s : (0 < x)%N → pretty_N_go x s ≠ "".
Proof.
  revert s. induction (N.lt_wf_0 x) as [x _ IH]. intros s Hx.
  rewrite pretty_N_go_step by done.
  destruct (decide (x `div` 10 = 0)%N) as [->|Hd]; [done|].
  apply IH; [apply N.div_lt; lia|by apply N.neq_0_lt_0].
Qed.

Lemma str_nonempty n : Py.str n ≠ "".
Proof.
  unfold Py.str, pretty, pretty_N. case_decide; [done|]. apply pretty_N_go_nonempty. lia.
Qed.

(** A string of digits followed by anything starts with a digit. *)
Lemma digits_start s r :
  all_chars is_digit s = true → s ≠ "" → starts_outside is_lower_letter (s +:+ r) = true.
Proof.
  destruct s as [|c s]; [done|]. cbn. intros [Hc _]%andb_prop _.
  unfold is_digit, is_lower_letter in *.
  apply andb_prop in Hc as [_ Hc]. apply Nat.leb_le in Hc.
  apply negb_true_iff, andb_false_iff. left. apply Nat.leb_gt. lia.
Qed.

(** The lowered names of the catalog are non-empty strings of letters, and
    lowering identifies no two of them. *)
Lemma first_names_lower_letters :
  Forall (λ c, all_chars is_lower_letter (Py.lower c) = true) first_name_pool.
Proof. by_evaluation. Qed.

Lemma last_names_lower_letters :
  Forall (λ c, all_chars is_lower_letter (Py.lower c) = true) Catalog.last_names.
Proof. by_evaluation. Qed.

Lemma first_names_lower_distinct : NoDup (Py.lower <$> first_name_pool).
Proof. by_evaluation. Qed.

Lemma last_names_lower_distinct : NoDup (Py.lower <$> Catalog.last_names).
Proof. by_evaluation. Qed.

Lemma area_codes_digits :
  Forall (λ kv : string * list string, Forall (λ a, all_chars is_digit a = true) kv.2)
         Catalog.area_codes.
Proof. by_evaluation. Qed.

Lemma area_code_digits state a :
  a ∈ dict_get Catalog.area_codes state ["555"] → all_chars is_digit a = true.
Proof.
  unfold dict_get. destruct (dict_lookup Catalog.area_codes state) as [v|] eqn:E; simpl.
  - intros Ha.
    pose proof (dict_lookup_Forall (λ _ v, Forall (λ a, all_chars is_digit a = true) v)
                  _ _ _ area_codes_digits E) as H.
    cbn beta in H. rewrite Forall_forall in H. auto.
  - intros ->%list_elem_of_singleton. done.
Qed.

(** ** What a call never does: forget *)

(** Every set of the tracker, every counter and both oracle cursors of [w]
    are below those of [w']. *)
Definition grows (w w' : World) : Prop :=
  full_names (tracker w) ⊆ full_names (tracker w') ∧
  emails (tracker w) ⊆ emails (tracker w') ∧
  phones (tracker w) ⊆ phones (tracker w') ∧
  addresses (tracker w) ⊆ addresses (tracker w') ∧
  name_hashes (tracker w) ⊆ name_hashes (tracker w') ∧
  person_hashes (tracker w) ⊆ person_hashes (tracker w') ∧
  (collision_attempts (stats w) ≤ collision_attempts (stats w'))%nat ∧
  (unique_regenerations (stats w) ≤ unique_regenerations (stats w'))%nat ∧
  (total_generated (stats w) ≤ total_generated (stats w'))%nat ∧
  (rng_pos w ≤ rng_pos w')%N ∧ (clock_pos w ≤ clock_pos w')%N.

(** A method that only grows the world, whether it returns or raises. *)
Definition monotone {A} (m : M A) : Prop := ∀ w, grows w (m w).2.

Lemma grows_refl w : grows w w.
Proof. unfold grows. repeat split; (done || lia). Qed.

Lemma grows_trans w1 w2 w3 : grows w1 w2 → grows w2 w3 → grows w1 w3.
Proof.
  unfold grows.
  intros (?&?&?&?&?&?&?&?&?&?&?) (?&?&?&?&?&?&?&?&?&?&?).
  repeat split; (by etrans || lia).
Qed.

Lemma set_add_subseteq x (X : gset string) : X ⊆ set_add x X.
Proof. rewrite set_add_union. apply union_subseteq_r. Qed.

Lemma elem_of_set_add x y (X : gset string) : y ∈ set_add x X ↔ y = x ∨ y ∈ X.
Proof. by rewrite set_add_union, elem_of_union, elem_of_singleton. Qed.

Ltac grows_solver :=
  intros; unfold grows, with_tracker, with_stats; cbn;
  repeat split; (done || lia || apply set_add_subseteq).

Lemma monotone_ret {A} (a : A) : monotone (mret a).
Proof. intros w. apply grows_refl. Qed.

Lemma monotone_raise {A} e : monotone (raise (A:=A) e).
Proof. intros w. apply grows_refl. Qed.

Lemma monotone_get : monotone get.
Proof. intros w. apply grows_refl. Qed.

Lemma monotone_modify f : (∀ w, grows w (f w)) → monotone (modify f).
Proof. intros H w. apply H. Qed.

Lemma monotone_bind {A B} (m : M A) (k : A → M B) :
  monotone m → (∀ a, monotone (k a)) → monotone (m ≫= k).
Proof.
  intros Hm Hk w. specialize (Hm w). unfold mbind, M_bind.
  destruct (m w) as [[a|e] w1]; cbn [snd] in *; [|done].
  eapply grows_trans; [exact Hm|apply Hk].
Qed.

Lemma monotone_dict_item {V} (d : list (string * V)) key : monotone (dict_item d key).
Proof.
  unfold dict_item. destruct (dict_lookup d key); [apply monotone_ret|apply monotone_raise].
Qed.

Lemma monotone_for_from {R L} (body : nat → M (R + L)) :
  (∀ i, monotone (body i)) → ∀ n i last, monotone (for_from body i n last).
Proof.
  intros Hbody n. induction n as [|n IH]; intros i last; cbn [for_from].
  - apply monotone_ret.
  - apply monotone_bind; [apply Hbody|]. intros [x|l]; [apply monotone_ret|apply IH].
Qed.

Section Monotone.

Variable rand : N → N.
Variable clock : N → N.

Lemma monotone_draw : monotone (draw rand).
Proof. intros w. unfold draw, grows. cbn. repeat split; (done || lia). Qed.

Lemma monotone_now_ms : monotone (now_ms clock).
Proof. intros w. unfold now_ms, grows. cbn. repeat split; (done || lia). Qed.

Lemma monotone_choice {A} (l : list A) : monotone (choice rand l).
Proof.
  destruct l as [|x l]; [apply monotone_raise|].
  apply monotone_bind; [apply monotone_draw|]. intros r. apply monotone_ret.
Qed.

Lemma monotone_randint a b : monotone (randint rand a b).
Proof. apply monotone_bind; [apply monotone_draw|]. intros r. apply monotone_ret. Qed.

Ltac monotone_step :=
  lazymatch goal with
  | |- monotone (_ ≫= _) => apply monotone_bind; [|intros ?]
  | |- monotone (mret _) => apply monotone_ret
  | |- monotone (raise _) => apply monotone_raise
  | |- monotone get => apply monotone_get
  | |- monotone (modify _) => apply monotone_modify; grows_solver
  | |- monotone (choice _ _) => apply monotone_choice
  | |- monotone (randint _ _ _) => apply monotone_randint
  | |- monotone (now_ms _) => apply monotone_now_ms
  | |- monotone (dict_item _ _) => apply monotone_dict_item
  | |- monotone (for_range _ _) => apply monotone_for_from; intros ?
  | |- monotone (if ?b then _ else _) => destruct b
  | |- monotone (match ?x with _ => _ end) => destruct x
  end.

Lemma monotone_generate_phone_number state : monotone (generate_phone_number rand state).
Proof. unfold generate_phone_number, phone_attempt. repeat monotone_step. Qed.

Lemma monotone_generate_unique_email first_name last_name :
  monotone (generate_unique_email rand clock first_name last_name).
Proof.
  unfold generate_unique_email, email_attempt, email_candidate, email_patterns.
  repeat monotone_step.
Qed.

Lemma monotone_generate_unique_name : monotone (generate_unique_name rand).
Proof. unfold generate_unique_name, name_attempt. repeat monotone_step. Qed.

Lemma monotone_generate_unique_address state :
  monotone (generate_unique_address rand state).
Proof. unfold generate_unique_address, address_attempt. repeat monotone_step. Qed.

Lemma monotone_generate_persona state : monotone (generate_persona rand clock state).
Proof.
  unfold generate_persona, base_first_name.
  repeat first
    [ apply monotone_generate_unique_name
    | apply monotone_generate_unique_email
    | apply monotone_generate_phone_number
    | apply monotone_generate_unique_address
    | monotone_step ].
Qed.

Lemma monotone_personas_loop n state acc : monotone (personas_loop rand clock n state acc).
Proof.
  revert acc. induction n as [|n IH]; intros acc; cbn [personas_loop].
  - apply monotone_ret.
  - apply monotone_bind; [apply monotone_generate_persona|]. intros p. apply IH.
Qed.

End Monotone.

(** X9: whatever call is made on a generator, and whether it returns or
    raises, no tracked value is dropped and no counter or oracle cursor
    goes back. *)
Theorem calls_only_grow rand clock c w : grows w (perform rand clock c w).
Proof.
  destruct c; cbn [perform].
  - apply monotone_generate_unique_name.
  - apply monotone_generate_unique_email.
  - apply monotone_generate_phone_number.
  - apply monotone_generate_unique_address.
  - apply monotone_generate_persona.
  - apply monotone_personas_loop.
Qed.

(** ** One persona, in full *)

(** The tracker after the four fields of the components [c] were recorded
    in [t]. *)
Definition fields_recorded (c : Components) (t : Tracker) : Tracker :=
  add_address (full_address_of (c_place c) (c_code c))
    (add_phone (c_phone c)
       (add_email (c_email c) (record_name (c_first c) (c_last c) t))).

(** What a persona request that returned [p] did: [named_by_fallback]
    tells whether the name came from the fallback, [corrected] whether the
    corrective pass ran. *)
Definition persona_produced (state : option string) (w : World) (p : Persona) (w' : World)
    (c : Components) (named_by_fallback corrected : bool) : Prop :=
  p = assemble c (Email p) ∧
  resolves_to state (c_state c) ∧
  (∃ places, dict_lookup Catalog.public_places (c_state c) = Some places ∧
             c_place c ∈ places) ∧
  dict_lookup Catalog.state_codes (c_state c) = Some (c_code c) ∧
  c_total c = total_generated (stats w) ∧
  Py.split_first (c_first c) = Some (c_base c) ∧
  c_base c ∈ first_name_pool ∧
  name_outcome (tracker w) (c_first c) (c_last c) named_by_fallback ∧
  email_outcome (tracker w) (c_base c) (c_last c) (c_email c) ∧
  phone_outcome (tracker w) (c_state c) (c_phone c) ∧
  (if corrected then
     fingerprint c (c_email c) ∈ person_hashes (tracker w) ∧
     tracker w' = add_person_hash (fingerprint c (Email p))
                    (add_email (Email p) (fields_recorded c (tracker w)))
   else
     (fingerprint c (c_email c) ∉ person_hashes (tracker w)) ∧
     Email p = c_email c ∧
     tracker w' = add_person_hash (fingerprint c (Email p))
                    (fields_recorded c (tracker w))) ∧
  unique_regenerations (stats w')
  = (unique_regenerations (stats w) + (if named_by_fallback then 1 else 0)
     + (if corrected then 1 else 0))%nat ∧
  total_generated (stats w') = S (total_generated (stats w)).

Section PersonaInversion.

Variable rand : N → N.
Variable clock : N → N.

Lemma generate_persona_valid state w p w' :
  generate_persona rand clock state w = (Ok p, w') →
  ∀ s, resolves_to state s → is_Some (dict_lookup Catalog.public_places s).
Proof.
  intros Hrun. destruct (state_cases state) as [Hvalid|(s & Hs & Hnone)]; [done|].
  destruct (generate_persona_unknown rand clock state s w Hs Hnone)
    as (w1 & f & l & base & e & ph & Hrun' & _).
  congruence.
Qed.

Lemma generate_persona_produced state w p w' :
  generate_persona rand clock state w = (Ok p, w') →
  ∃ c b corrected, persona_produced state w p w' c b corrected.
Proof.
  intros Hrun. pose proof (generate_persona_valid _ _ _ _ Hrun) as Hvalid.
  rewrite generate_persona_phases in Hrun.
  pose proof (persona_components_spec rand clock state w Hvalid) as Hc.
  apply wp_returns in Hc
    as (c & w4 & Hrun4 & places & w3 & Hres & Hplaces & Hcode & Hin & Hf & Ht4 & Hr4 & Hn4 & Htot).
  destruct Hf as (Ht3 & Hn3 & Hbase & Hpool & Hbne & Hlne & Hemail & Hphone & b & Hname & Hr3).
  pose proof (finish_persona_spec rand clock c w4 Hbase Hbne Hlne) as Hfin.
  apply wp_returns in Hfin as (p' & w'' & Hrun' & e' & w5 & -> & -> & Hcase).
  unfold mbind, M_bind in Hrun. rewrite Hrun4, Hrun' in Hrun.
  injection Hrun as <- <-.
  assert (person_hashes (tracker w4) = person_hashes (tracker w)) as Hph.
  { rewrite Ht4, Ht3. done. }
  assert (tracker w4 = fields_recorded c (tracker w)) as Ht4'.
  { rewrite Ht4, Ht3. done. }
  exists c, b.
  destruct Hcase as [(Hnew & -> & ->)|(Hold & n & Hn & Hrun5 & Ht5 & Hr5 & Hn5)].
  - exists false. unfold persona_produced, recorded. cbn.
    rewrite Hph in Hnew. rewrite Ht4', Hr4, Hr3, Hn4.
    repeat (split; [by (eauto || lia)|]). done.
  - exists true. unfold persona_produced, recorded. cbn.
    rewrite Hph in Hold. rewrite Ht5, Ht4', Hr5, Hr4, Hr3, Hn5, Hn4.
    repeat (split; [by (eauto || lia)|]). done.
Qed.

End PersonaInversion.

(** ** The personas of a batch *)

(** The personas served one after the other from [w], ending in [w']. *)
Inductive served (rand clock : N → N) (state : option string)
  : World → list Persona → World → Prop :=
  | served_nil w : served rand clock state w [] w
  | served_cons w p w1 ps w' :
      generate_persona rand clock state w = (Ok p, w1) →
      served rand clock state w1 ps w' →
      served rand clock state w (p :: ps) w'.

Section Served.

Variable rand : N → N.
Variable clock : N → N.

Lemma personas_loop_served n state acc w ps w' :
  personas_loop rand clock n state acc w = (Ok ps, w') →
  ∃ new, ps = acc ++ new ∧ length new = n ∧ served rand clock state w new w'.
Proof.
  revert acc w. induction n as [|n IH]; intros acc w; cbn [personas_loop].
  - intros [= <- <-]. exists []. rewrite app_nil_r. repeat split. constructor.
  - unfold mbind, M_bind.
    destruct (generate_persona rand clock state w) as [[p|e] w1] eqn:Hp; [|done].
    intros Hrun. apply IH in Hrun as (new & -> & Hlen & Hs).
    exists (p :: new). rewrite <- app_assoc. split; [done|].
    split; [simpl; lia|]. by econstructor.
Qed.

Lemma batch_served_personas count state w ps w' :
  generate_multiple_personas rand clock count state w = (Ok ps, w') →
  length ps = Z.to_nat count ∧ served rand clock state w ps w'.
Proof.
  unfold generate_multiple_personas. intros Hrun.
  apply personas_loop_served in Hrun as (new & -> & Hlen & Hs). done.
Qed.

Lemma served_grows state w ps w' : served rand clock state w ps w' → grows w w'.
Proof.
  induction 1 as [w|w p w1 ps w' Hrun _ IH]; [apply grows_refl|].
  eapply grows_trans; [|exact IH].
  pose proof (monotone_generate_persona rand clock state w) as H.
  by rewrite Hrun in H.
Qed.

End Served.

Lemma grows_regenerations w w' :
  grows w w' → (unique_regenerations (stats w) ≤ unique_regenerations (stats w'))%nat.
Proof. intros H. apply H. Qed.

(** The sets of the tracker after a persona was produced. *)
Lemma persona_produced_sets state w p w' c b corrected :
  persona_produced state w p w' c b corrected →
  First_Name p = c_first c ∧ Last_Name p = c_last c ∧ Phone p = c_phone c ∧
  full_names (tracker w')
  = set_add (full_name_of (c_first c) (c_last c)) (full_names (tracker w)) ∧
  phones (tracker w') = set_add (c_phone c) (phones (tracker w)) ∧
  emails (tracker w')
  = (if corrected then set_add (Email p) else id)
      (set_add (c_email c) (emails (tracker w))).
Proof.
  intros (Hp & _ & _ & _ & _ & _ & _ & _ & _ & _ & Hcase & _).
  split; [by rewrite Hp|]. split; [by rewrite Hp|]. split; [by rewrite Hp|].
  destruct corrected.
  - destruct Hcase as (_ & ->). done.
  - destruct Hcase as (_ & _ & ->). done.
Qed.

(** A name of the catalog is its own base. *)
Lemma catalog_name_base f l base :
  catalog_name f l → Py.split_first f = Some base → base = f.
Proof.
  intros Hc Hs. destruct (catalog_name_words _ _ Hc) as [Hf _].
  rewrite split_first_word in Hs by done. congruence.
Qed.

(** What a batch that bumped no regeneration counter served: each persona
    bears a catalog name that was new when it was drawn, and the email that
    was generated for that name. *)
Definition regular_persona (w : World) (p : Persona) : Prop :=
  catalog_name (First_Name p) (Last_Name p) ∧
  (full_name_of (First_Name p) (Last_Name p) ∉ full_names (tracker w)) ∧
  (((Email p ∉ emails (tracker w)) ∧
    ∃ attempt, email_shape (First_Name p) (Last_Name p) attempt (Email p))
   ∨ ∃ ms, Email p = fallback_email (First_Name p) (Last_Name p) ms).

Section RegularBatch.

Variable rand : N → N.
Variable clock : N → N.

Lemma served_regular_step state w p w1 w' :
  generate_persona rand clock state w = (Ok p, w1) →
  grows w1 w' →
  unique_regenerations (stats w') = unique_regenerations (stats w) →
  unique_regenerations (stats w1) = unique_regenerations (stats w) ∧
  regular_persona w p ∧
  full_names (tracker w1)
  = set_add (full_name_of (First_Name p) (Last_Name p)) (full_names (tracker w)) ∧
  emails (tracker w1) = set_add (Email p) (emails (tracker w)).
Proof.
  intros Hrun Hg Hr.
  apply generate_persona_produced in Hrun as (c & b & corrected & Hp).
  pose proof (persona_produced_sets _ _ _ _ _ _ _ Hp) as (HF & HL & _ & Hnames & _ & Hemails).
  destruct Hp as (_ & _ & _ & _ & _ & Hbase & _ & Hname & Hemail & _ & Hcase & Hregs & _).
  apply grows_regenerations in Hg.
  destruct b; [lia|]. destruct corrected; [lia|].
  destruct Hcase as (_ & He & _). cbn in Hname. destruct Hname as (Hcat & Hnew & _).
  pose proof (catalog_name_base _ _ _ Hcat Hbase) as Hb.
  unfold regular_persona. rewrite HF, HL, He. rewrite Hb in Hemail.
  split; [lia|]. split; [|by rewrite Hemails].
  split; [done|]. split; [done|].
  destruct Hemail as [[? ?]|?]; [left|right]; done.
Qed.

Lemma served_regular state w ps w' :
  served rand clock state w ps w' →
  unique_regenerations (stats w') = unique_regenerations (stats w) →
  Forall (regular_persona w) ps ∧
  NoDup ((λ p, full_name_of (First_Name p) (Last_Name p)) <$> ps).
Proof.
  induction 1 as [w|w p w1 ps w' Hrun Hs IH]; intros Hr.
  - split; constructor.
  - pose proof (served_grows _ _ _ _ _ _ Hs) as Hg.
    destruct (served_regular_step _ _ _ _ _ Hrun Hg Hr) as (Hr1 & Hp & Hnames & Hemails).
    destruct IH as [Hall Hnd]; [congruence|].
    assert (Forall (λ q, regular_persona w q ∧
                         full_name_of (First_Name q) (Last_Name q)
                         ≠ full_name_of (First_Name p) (Last_Name p)) ps) as Hall'.
    { eapply Forall_impl; [exact Hall|]. intros q (Hcat & Hnew & Hmail).
      rewrite Hnames in Hnew. rewrite elem_of_set_add in Hnew.
      split; [|tauto]. split; [done|]. split; [tauto|].
      destruct Hmail as [[Hm Hshape]|Hfb]; [left|by right].
      split; [|done]. rewrite Hemails, elem_of_set_add in Hm. tauto. }
    split.
    + constructor; [done|]. eapply Forall_impl; [exact Hall'|]. by intros q [? _].
    + rewrite fmap_cons. constructor; [|done].
      intros Hin. apply list_elem_of_fmap in Hin as (q & Heq & Hq).
      rewrite Forall_forall in Hall'. destruct (Hall' q Hq) as [_ Hne]. congruence.
Qed.

End RegularBatch.

(** X10: in a batch that ends with the regeneration counter where it was,
    every persona bears a (first name, last name) pair of the catalog that
    was not tracked before the batch, and no two personas bear the same
    pair. *)
Theorem batch_names_distinct rand clock count state w ps w' :
  generate_multiple_personas rand clock count state w = (Ok ps, w') →
  unique_regenerations (stats w') = unique_regenerations (stats w) →
  NoDup ((λ p, (First_Name p, Last_Name p)) <$> ps) ∧
  Forall (λ p, catalog_name (First_Name p) (Last_Name p) ∧
               (full_name_of (First_Name p) (Last_Name p) ∉ full_names (tracker w))) ps.
Proof.
  intros Hrun Hr. apply batch_served_personas in Hrun as [_ Hs].
  destruct (served_regular _ _ _ _ _ _ Hs Hr) as [Hall Hnd]. split.
  - apply (NoDup_fmap_1 (λ n : string * string, full_name_of n.1 n.2)).
    by rewrite <- list_fmap_compose.
  - eapply Forall_impl; [exact Hall|]. intros p (? & ? & _). done.
Qed.

(** How a batch ended: the number of personas, the regeneration counter and
    the number of tracked phone numbers. *)
Definition batch_outcome (r : result (list Persona) * World) : option nat * nat * N :=
  (match r.1 with Ok ps => Some (length ps) | Raise _ => None end,
   unique_regenerations (stats r.2), N.of_nat (size (phones (tracker r.2)))).

(** Three personas for Wyoming on a fresh generator, each with a name of
    its own. *)
Lemma small_batch_outcome :
  batch_outcome (generate_multiple_personas scenario_draws stopped_clock 3
                   (Some "Wyoming") fresh_world)
  = (Some 3%nat, 0%nat, 3%N).
Proof. vm_compute. reflexivity. Qed.

(** X10 at that batch. *)
Lemma batch_names_distinct_witness :
  ∃ ps w',
    generate_multiple_personas scenario_draws stopped_clock 3 (Some "Wyoming") fresh_world
    = (Ok ps, w') ∧
    length ps = 3%nat ∧
    NoDup ((λ p, (First_Name p, Last_Name p)) <$> ps) ∧
    Forall (λ p, catalog_name (First_Name p) (Last_Name p) ∧
                 (full_name_of (First_Name p) (Last_Name p)
                  ∉ full_names (tracker fresh_world))) ps.
Proof.
  pose proof small_batch_outcome as H. unfold batch_outcome in H.
  destruct (generate_multiple_personas scenario_draws stopped_clock 3
              (Some "Wyoming") fresh_world) as [[ps|e] w'] eqn:E; [|discriminate].
  cbn [fst snd] in H. injection H as Hlen Hr Hsize.
  exists ps, w'. split; [reflexivity|]. split; [exact Hlen|].
  exact (batch_names_distinct scenario_draws stopped_clock 3 (Some "Wyoming")
           fresh_world ps w' E Hr).
Defined.

(** ** Reading an email address back *)

Lemma string_app_assoc (a b c : string) : (a +:+ b) +:+ c = a +:+ (b +:+ c).
Proof.
  induction a as [|x a IH]; [done|].
  change (String x ((a +:+ b) +:+ c) = String x (a +:+ (b +:+ c))). by rewrite IH.
Qed.

(** A string of digits followed by anything starts with a digit. *)
Lemma digits_head s r c r' :
  all_chars is_digit s = true → s ≠ "" → s +:+ r = String c r' → is_digit c = true.
Proof.
  destruct s as [|d s]; [done|]. intros [Hd _]%andb_prop _.
  change (String d (s +:+ r) = String c r' → is_digit c = true). by intros [= <- _].
Qed.

Lemma lower_head_letter s c :
  all_chars is_lower_letter (Py.lower s) = true → Py.head_char s = Some c →
  is_lower_letter (Py.lower_char c) = true.
Proof.
  destruct s as [|d s]; [done|]. intros H [= <-].
  change (Py.lower (String d s)) with (String (Py.lower_char d) (Py.lower s)) in H.
  by apply andb_prop in H as [? _].
Qed.

Lemma catalog_name_lower f l :
  catalog_name f l →
  all_chars is_lower_letter (Py.lower f) = true ∧
  all_chars is_lower_letter (Py.lower l) = true.
Proof.
  intros [Hf Hl]. split.
  - pose proof first_names_lower_letters as H. rewrite Forall_forall in H. auto.
  - pose proof last_names_lower_letters as H. rewrite Forall_forall in H. auto.
Qed.

(** The local part first.last followed by a number, read back. *)
Lemma dotted_local_part f l n rest f' l' n' rest' :
  catalog_name f l → catalog_name f' l' →
  Py.lower f +:+ String "." (Py.lower l +:+ (Py.str n +:+ rest))
  = Py.lower f' +:+ String "." (Py.lower l' +:+ (Py.str n' +:+ rest')) →
  f = f' ∧ l = l'.
Proof.
  intros Hc Hc' Heq.
  destruct (catalog_name_lower _ _ Hc) as [Hf Hl].
  destruct (catalog_name_lower _ _ Hc') as [Hf' Hl'].
  apply (class_prefix_unique is_lower_letter) in Heq as [Hff Heq]; [|done..].
  injection Heq as Heq.
  apply (class_prefix_unique is_lower_letter) in Heq as [Hll _];
    [|done|done|apply digits_start; [apply str_digits|apply str_nonempty]..].
  destruct Hc as [Hin Hinl], Hc' as [Hin' Hinl']. split.
  - by apply (NoDup_fmap_eq Py.lower first_name_pool _ _ first_names_lower_distinct).
  - by apply (NoDup_fmap_eq Py.lower Catalog.last_names _ _ last_names_lower_distinct).
Qed.

(** An address generated for the catalog pair [(f, l)]. *)
Definition email_for (f l e : string) : Prop :=
  (∃ attempt, email_shape f l attempt e) ∨ ∃ ms, e = fallback_email f l ms.

(** The address of the timestamp fallback tells the name it was made for
    from every address made for another catalog name. *)
Lemma fallback_email_names f l e f' l' ms :
  catalog_name f l → catalog_name f' l' →
  email_for f l e → e = fallback_email f' l' ms → f = f' ∧ l = l'.
Proof.
  intros Hc Hc' He ->.
  destruct (catalog_name_lower _ _ Hc) as [Hf Hl].
  destruct (catalog_name_lower _ _ Hc') as [Hf' Hl'].
  change (fallback_email f' l' ms)
    with (Py.lower f' +:+ String "." (Py.lower l' +:+
            (Py.str (ms `mod` 1000000)%N +:+ "@email.com")))
    in He.
  destruct He as [(attempt & f0 & l0 & pattern & num & domain & Hf0 & Hl0 & Hp & _ & _ & He)
                 |(ms0 & He)].
  - unfold email_local_parts in Hp.
    repeat (apply elem_of_cons in Hp as [->|Hp]); [..|by apply not_elem_of_nil in Hp].
    + rewrite string_app_assoc in He.
      change ("." +:+ Py.lower l) with (String "." (Py.lower l)) in He.
      change (String "." (Py.lower l) +:+ ?r) with (String "." (Py.lower l +:+ r)) in He.
      symmetry in He. by eapply dotted_local_part.
    + exfalso.
      apply (class_prefix_unique is_lower_letter) in He as [_ He]; [|done| |done|].
      * symmetry in He. eapply digits_head in He; [done|apply str_digits|apply str_nonempty].
      * cbn [all_chars]. rewrite Hl. by rewrite (lower_head_letter f f0).
      * apply digits_start; [apply str_digits|apply str_nonempty].
    + exfalso.
      apply (class_prefix_unique is_lower_letter) in He as [_ He]; [|done| |done|].
      * symmetry in He. eapply digits_head in He; [done|apply str_digits|apply str_nonempty].
      * rewrite all_chars_app, Hf. cbn [all_chars]. by rewrite (lower_head_letter l l0).
      * apply digits_start; [apply str_digits|apply str_nonempty].
    + exfalso. rewrite string_app_assoc in He.
      change ("_" +:+ Py.lower l) with (String "_" (Py.lower l)) in He.
      change (String "_" (Py.lower l) +:+ ?r) with (String "_" (Py.lower l +:+ r)) in He.
      apply (class_prefix_unique is_lower_letter) in He as [_ He]; [|done..].
      discriminate.
  - change (fallback_email f l ms0)
      with (Py.lower f +:+ String "." (Py.lower l +:+
              (Py.str (ms0 `mod` 1000000)%N +:+ "@email.com")))
      in He.
    symmetry in He. by eapply dotted_local_part.
Qed.

Lemma regular_persona_email_for w p :
  regular_persona w p → email_for (First_Name p) (Last_Name p) (Email p).
Proof. intros (_ & _ & [[_ ?]|?]); [by left|by right]. Qed.

Section RegularEmails.

Variable rand : N → N.
Variable clock : N → N.

Lemma served_emails_distinct state w ps w' :
  served rand clock state w ps w' →
  unique_regenerations (stats w') = unique_regenerations (stats w) →
  NoDup (Email <$> ps).
Proof.
  induction 1 as [w|w p w1 ps w' Hrun Hs IH]; intros Hr; [constructor|].
  pose proof (served_grows _ _ _ _ _ _ Hs) as Hg.
  destruct (served_regular_step _ _ _ _ _ _ _ Hrun Hg Hr) as (Hr1 & Hp & Hnames & Hemails).
  assert (unique_regenerations (stats w') = unique_regenerations (stats w1)) as Hr'
    by congruence.
  rewrite fmap_cons. constructor; [|by apply IH].
  intros Hin. apply list_elem_of_fmap in Hin as (q & Heq & Hq).
  destruct (served_regular _ _ _ _ _ _ Hs Hr') as [Hall _].
  rewrite Forall_forall in Hall. specialize (Hall q Hq).
  pose proof Hall as (Hcat & Hnew & Hmail).
  destruct Hmail as [[Hm _]|[ms Hfb]].
  - apply Hm. rewrite Hemails, elem_of_set_add. by left.
  - rewrite <- Heq in Hfb.
    destruct (fallback_email_names (First_Name p) (Last_Name p) (Email p)
                (First_Name q) (Last_Name q) ms) as [HF HL];
      [apply Hp|done|by eapply regular_persona_email_for|done|].
    apply Hnew. rewrite Hnames, elem_of_set_add. left. by rewrite HF, HL.
Qed.

End RegularEmails.

(** X11: in a batch that ends with the regeneration counter where it was, no
    two personas have the same email address, whether the addresses came
    from the retry loop or from the timestamp fallback. *)
Theorem batch_emails_distinct rand clock count state w ps w' :
  generate_multiple_personas rand clock count state w = (Ok ps, w') →
  unique_regenerations (stats w') = unique_regenerations (stats w) →
  NoDup (Email <$> ps).
Proof.
  intros Hrun Hr. apply batch_served_personas in Hrun as [_ Hs].
  by eapply served_emails_distinct.
Qed.

(** X11 at the batch of three personas for Wyoming. *)
Lemma batch_emails_distinct_witness :
  ∃ ps w',
    generate_multiple_personas scenario_draws stopped_clock 3 (Some "Wyoming") fresh_world
    = (Ok ps, w') ∧
    length ps = 3%nat ∧ NoDup (Email <$> ps).
Proof.
  pose proof small_batch_outcome as H. unfold batch_outcome in H.
  destruct (generate_multiple_personas scenario_draws stopped_clock 3
              (Some "Wyoming") fresh_world) as [[ps|e] w'] eqn:E; [|discriminate].
  cbn [fst snd] in H. injection H as Hlen Hr Hsize.
  exists ps, w'. split; [reflexivity|]. split; [exact Hlen|].
  exact (batch_emails_distinct scenario_draws stopped_clock 3 (Some "Wyoming")
           fresh_world ps w' E Hr).
Defined.

(** ** Reading a phone number back *)

Lemma format_phone_inj a x y a' x' y' :
  all_chars is_digit a = true → all_chars is_digit a' = true →
  all_chars is_digit x = true → all_chars is_digit x' = true →
  format_phone a x y = format_phone a' x' y' →
  a = a' ∧ x = x' ∧ y = y'.
Proof.
  intros Ha Ha' Hx Hx'. unfold format_phone.
  change ("(" +:+ a +:+ ") " +:+ x +:+ "-" +:+ y)
    with (String "(" (a +:+ String ")" (String " " (x +:+ String "-" y)))).
  change ("(" +:+ a' +:+ ") " +:+ x' +:+ "-" +:+ y')
    with (String "(" (a' +:+ String ")" (String " " (x' +:+ String "-" y')))).
  intros [= Heq].
  apply (class_prefix_unique is_digit) in Heq as [-> Heq]; [|done..].
  injection Heq as Heq.
  apply (class_prefix_unique is_digit) in Heq as [-> Heq]; [|done..].
  by injection Heq as ->.
Qed.

(** Every tracked number has an area code of digits and is a number of
    the regular path, or the fallback number of a count below the current
    count of tracked numbers. *)
Definition phones_well_formed (X : gset string) : Prop :=
  ∀ p, p ∈ X →
    ∃ a, all_chars is_digit a = true ∧
      (regular_phone a p ∨
       ∃ k, (k < size X)%nat ∧ p = format_phone a "999" (Py.zfill 4 (N.of_nat k))).

Lemma size_set_add x (X : gset string) :
  size (set_add x X) = if decide (x ∈ X) then size X else S (size X).
Proof.
  rewrite set_add_union. case_decide as Hx.
  - f_equal. apply leibniz_equiv. apply subseteq_union_1, singleton_subseteq_l, Hx.
  - rewrite size_union by (by apply disjoint_singleton_l). by rewrite size_singleton.
Qed.

Lemma size_set_add_le x (X : gset string) : (size X ≤ size (set_add x X))%nat.
Proof. rewrite size_set_add. case_decide; lia. Qed.

Lemma phones_well_formed_empty : phones_well_formed ∅.
Proof. intros p Hp. by apply not_elem_of_empty in Hp. Qed.

Lemma phone_outcome_well_formed t state p :
  phones_well_formed (phones t) → phone_outcome t state p →
  phones_well_formed (set_add p (phones t)).
Proof.
  intros Hinv (a & Ha & Hp) q Hq.
  pose proof (size_set_add_le p (phones t)) as Hle.
  destruct (decide (q ∈ phones t)) as [Hold|Hnew].
  - destruct (Hinv q Hold) as (a' & Ha' & [Hreg|(k & Hk & ->)]).
    + exists a'. split; [done|]. by left.
    + exists a'. split; [done|]. right. exists k. split; [lia|done].
  - apply elem_of_set_add in Hq as [->|?]; [|done].
    exists a. split; [by eapply area_code_digits|].
    destruct Hp as [[Hreg _]| ->]; [by left|]. right.
    exists (size (phones t)). split; [|done].
    rewrite size_set_add. rewrite decide_False by done. lia.
Qed.

(** Outside the window 1000..9999 of the count of tracked numbers, the
    number the generator hands out was not tracked. *)
Lemma phone_outcome_new t state p :
  phones_well_formed (phones t) →
  ¬ (1000 ≤ N.of_nat (size (phones t)) ≤ 9999)%N →
  phone_outcome t state p → p ∉ phones t.
Proof.
  intros Hinv Hwin (a & Ha & [[_ Hnew]| ->]); [done|]. intros Hin.
  apply area_code_digits in Ha.
  destruct (Hinv _ Hin) as (a' & Ha' & [(e & s & He & Hs & Heq)|(k & Hk & Heq)]).
  - unfold fallback_phone in Heq.
    apply format_phone_inj in Heq as (_ & _ & Heq); [|done|done|done|apply str_digits].
    apply (f_equal decimal_value) in Heq.
    rewrite decimal_value_zfill, decimal_value_str in Heq. lia.
  - unfold fallback_phone in Heq.
    apply format_phone_inj in Heq as (_ & _ & Heq); [|done..].
    apply zfill_inj in Heq. lia.
Qed.

(** The set of numbers is left alone, or a number the generator made for
    it is added. *)
Definition phones_step (t t' : Tracker) : Prop :=
  phones t' = phones t
  ∨ ∃ state p, phone_outcome t state p ∧ phones t' = set_add p (phones t).

Lemma phones_well_formed_step t t' :
  phones_well_formed (phones t) → phones_step t t' → phones_well_formed (phones t').
Proof.
  intros Hinv [->|(state & p & Hp & ->)]; [done|]. by eapply phone_outcome_well_formed.
Qed.

Section PhonesFrame.

Variable rand : N → N.
Variable clock : N → N.

Lemma generate_unique_name_phones w :
  phones_step (tracker w) (tracker (generate_unique_name rand w).2).
Proof.
  pose proof (generate_unique_name_spec rand w) as H.
  apply wp_returns in H as ([f l] & w' & -> & Ht & _). left. cbn [snd]. by rewrite Ht.
Qed.

Lemma generate_unique_email_phones first_name last_name w :
  phones_step (tracker w)
              (tracker (generate_unique_email rand clock first_name last_name w).2).
Proof.
  left. destruct first_name as [|a first']; [done|].
  destruct last_name as [|b last']; [done|].
  pose proof (generate_unique_email_spec rand clock (String a first') (String b last') w) as H.
  apply wp_returns in H as (e & w' & -> & Ht & _); [|done..]. cbn [snd]. by rewrite Ht.
Qed.

Lemma generate_phone_number_phones state w :
  phones_step (tracker w) (tracker (generate_phone_number rand state w).2).
Proof.
  pose proof (generate_phone_number_spec rand state w) as H.
  apply wp_returns in H as (p & w' & -> & Ht & _ & _ & _ & Hp).
  right. exists state, p. cbn [snd]. by rewrite Ht.
Qed.

Lemma generate_unique_address_phones state w :
  phones_step (tracker w) (tracker (generate_unique_address rand state w).2).
Proof.
  left. destruct (dict_lookup Catalog.public_places state) as [places|] eqn:Hplaces.
  - pose proof (dict_lookup_Forall (λ _ v, length v = 5%nat) _ _ _
                  public_places_five Hplaces) as Hfive.
    pose proof (dict_lookup_Forall (λ k _, is_Some (dict_lookup Catalog.state_codes k))
                  _ _ _ public_places_coded Hplaces) as [code Hcode].
    cbn beta in Hfive, Hcode.
    assert (2 ≤ length places)%nat as Hlen by lia.
    pose proof (generate_unique_address_spec rand state places code w
                  Hplaces Hcode Hlen) as H.
    apply wp_returns in H as (place & w' & -> & _ & Ht & _). cbn [snd]. by rewrite Ht.
  - by rewrite generate_unique_address_unknown.
Qed.

Lemma generate_persona_phones state w :
  phones_step (tracker w) (tracker (generate_persona rand clock state w).2).
Proof.
  right. destruct (state_cases state) as [Hvalid|(s & Hs & Hnone)].
  - pose proof (generate_persona_spec rand clock state w Hvalid) as H.
    apply wp_returns in H as (p & w' & Hrun & _). rewrite Hrun. cbn [snd].
    apply generate_persona_produced in Hrun as (c & b & corrected & Hp).
    pose proof (persona_produced_sets _ _ _ _ _ _ _ Hp) as (_ & _ & _ & _ & Hphones & _).
    exists (c_state c), (c_phone c). split; [apply Hp|done].
  - destruct (generate_persona_unknown rand clock state s w Hs Hnone)
      as (w' & f & l & base & e & p & -> & Ht & _ & _ & _ & _ & _ & _ & Hphone & _).
    cbn [snd]. exists s, p. split; [done|]. by rewrite Ht.
Qed.

Lemma personas_loop_phones n state acc w :
  phones_well_formed (phones (tracker w)) →
  phones_well_formed (phones (tracker (personas_loop rand clock n state acc w).2)).
Proof.
  revert acc w. induction n as [|n IH]; intros acc w Hw; [done|].
  cbn [personas_loop]. unfold mbind, M_bind.
  pose proof (generate_persona_phones state w) as Hstep.
  destruct (generate_persona rand clock state w) as [[p|e] w1]; cbn [snd] in *.
  - apply IH. by eapply phones_well_formed_step.
  - by eapply phones_well_formed_step.
Qed.

Lemma perform_phones c w :
  phones_well_formed (phones (tracker w)) →
  phones_well_formed (phones (tracker (perform rand clock c w))).
Proof.
  intros Hw. destruct c; cbn [perform].
  - eapply phones_well_formed_step; [exact Hw|]. apply generate_unique_name_phones.
  - eapply phones_well_formed_step; [exact Hw|]. apply generate_unique_email_phones.
  - eapply phones_well_formed_step; [exact Hw|]. apply generate_phone_number_phones.
  - eapply phones_well_formed_step; [exact Hw|]. apply generate_unique_address_phones.
  - eapply phones_well_formed_step; [exact Hw|]. apply generate_persona_phones.
  - by apply personas_loop_phones.
Qed.

Lemma after_calls_phones calls rng_start clock_start :
  phones_well_formed (phones (tracker (after_calls rand clock calls rng_start clock_start))).
Proof.
  unfold after_calls.
  assert (phones_well_formed (phones (tracker (mkWorld new_generator rng_start clock_start))))
    as H by apply phones_well_formed_empty.
  revert H. generalize (mkWorld new_generator rng_start clock_start).
  induction calls as [|c calls IH]; intros w Hw; [done|].
  cbn [foldl]. apply IH. by apply perform_phones.
Qed.

Lemma served_phones_distinct state w ps w' :
  served rand clock state w ps w' →
  phones_well_formed (phones (tracker w)) →
  (N.of_nat (size (phones (tracker w'))) < 1000 ∨
   10000 ≤ N.of_nat (size (phones (tracker w))))%N →
  NoDup (Phone <$> ps) ∧ Forall (λ p, Phone p ∉ phones (tracker w)) ps.
Proof.
  induction 1 as [w|w p w1 ps w' Hrun Hs IH]; intros Hinv Hsize.
  - split; constructor.
  - pose proof (served_grows _ _ _ _ _ _ Hs) as Hg.
    apply generate_persona_produced in Hrun as (c & b & corrected & Hp).
    pose proof (persona_produced_sets _ _ _ _ _ _ _ Hp) as (_ & _ & HP & _ & Hphones & _).
    assert (phone_outcome (tracker w) (c_state c) (c_phone c)) as Hout by apply Hp.
    assert (size (phones (tracker w)) ≤ size (phones (tracker w1)))%nat as Hle1.
    { rewrite Hphones. apply size_set_add_le. }
    assert (size (phones (tracker w1)) ≤ size (phones (tracker w')))%nat as Hle2.
    { apply subseteq_size, Hg. }
    assert (c_phone c ∉ phones (tracker w)) as Hnew.
    { eapply phone_outcome_new; [done|lia|done]. }
    destruct IH as [Hnd Hall].
    { rewrite Hphones. by eapply phone_outcome_well_formed. }
    { lia. }
    assert (Forall (λ q, (Phone q ∉ phones (tracker w)) ∧ Phone q ≠ c_phone c) ps) as Hall'.
    { eapply Forall_impl; [exact Hall|]. intros q Hq.
      rewrite Hphones, elem_of_set_add in Hq. tauto. }
    split.
    + rewrite fmap_cons. constructor; [|done]. rewrite HP.
      intros Hin. apply list_elem_of_fmap in Hin as (q & Heq & Hq).
      rewrite Forall_forall in Hall'. destruct (Hall' q Hq) as [_ Hne]. congruence.
    + constructor; [by rewrite HP|].
      eapply Forall_impl; [exact Hall'|]. by intros q [? _].
Qed.

End PhonesFrame.

(** X2: in every world reachable from a fresh generator, unless the count
    of tracked phone numbers lies in 1000..9999, the phone generator
    returns, for any state, a number that was not tracked, and the count
    grows by one. *)
Theorem phone_is_new_outside_window rand clock calls rng_start clock_start state :
  let w := after_calls rand clock calls rng_start clock_start in
  ¬ (1000 ≤ N.of_nat (size (phones (tracker w))) ≤ 9999)%N →
  ∃ p w',
    generate_phone_number rand state w = (Ok p, w') ∧
    (p ∉ phones (tracker w)) ∧
    phones (tracker w') = {[p]} ∪ phones (tracker w) ∧
    size (phones (tracker w')) = S (size (phones (tracker w))).
Proof.
  intros w Hwin.
  pose proof (after_calls_phones rand clock calls rng_start clock_start) as Hinv.
  fold w in Hinv.
  pose proof (generate_phone_number_spec rand state w) as H.
  apply wp_returns in H as (p & w' & Hrun & Ht & _ & _ & _ & Hp).
  assert (p ∉ phones (tracker w)) as Hnew by (by eapply phone_outcome_new).
  exists p, w'. split; [done|]. split; [done|].
  rewrite Ht. cbn [phones add_phone]. split; [apply set_add_union|].
  rewrite size_set_add. by rewrite decide_False.
Qed.

(** X2 at the second call for Wyoming under draws that repeat the first
    number in all 100 attempts: the fallback number is new. *)
Lemma phone_is_new_outside_window_witness :
  ∃ p w',
    generate_phone_number zero_draws "Wyoming"
      (after_calls zero_draws stopped_clock [CallPhone "Wyoming"] 0 0) = (Ok p, w') ∧
    (p ∉ phones (tracker (after_calls zero_draws stopped_clock [CallPhone "Wyoming"] 0 0))) ∧
    phones (tracker w')
    = {[p]} ∪ phones (tracker (after_calls zero_draws stopped_clock [CallPhone "Wyoming"] 0 0)) ∧
    size (phones (tracker w'))
    = S (size (phones (tracker (after_calls zero_draws stopped_clock
                                  [CallPhone "Wyoming"] 0 0)))).
Proof.
  apply (phone_is_new_outside_window zero_draws stopped_clock [CallPhone "Wyoming"] 0 0
           "Wyoming").
  by_evaluation.
Defined.

(** X12: a batch served by a generator reachable from a fresh one has
    pairwise distinct phone numbers, none of them tracked before, when it
    ends with fewer than 1000 tracked numbers or starts with 10000 or more. *)
Theorem batch_phones_distinct rand clock calls rng_start clock_start count state ps w' :
  let w := after_calls rand clock calls rng_start clock_start in
  generate_multiple_personas rand clock count state w = (Ok ps, w') →
  (N.of_nat (size (phones (tracker w'))) < 1000 ∨
   10000 ≤ N.of_nat (size (phones (tracker w))))%N →
  NoDup (Phone <$> ps) ∧ Forall (λ p, Phone p ∉ phones (tracker w)) ps.
Proof.
  intros w Hrun Hsize. apply batch_served_personas in Hrun as [_ Hs].
  eapply served_phones_distinct; [exact Hs| |done].
  apply after_calls_phones.
Qed.

(** X12 at the batch of three personas for Wyoming. *)
Lemma batch_phones_distinct_witness :
  ∃ ps w',
    generate_multiple_personas scenario_draws stopped_clock 3 (Some "Wyoming")
      (after_calls scenario_draws stopped_clock [] 0 0)
    = (Ok ps, w') ∧
    length ps = 3%nat ∧
    NoDup (Phone <$> ps) ∧
    Forall (λ p, Phone p ∉ phones (tracker (after_calls scenario_draws stopped_clock [] 0 0)))
           ps.
Proof.
  pose proof small_batch_outcome as H. unfold batch_outcome in H.
  change fresh_world with (after_calls scenario_draws stopped_clock [] 0 0) in H.
  destruct (generate_multiple_personas scenario_draws stopped_clock 3
              (Some "Wyoming") (after_calls scenario_draws stopped_clock [] 0 0))
    as [[ps|e] w'] eqn:E; [|discriminate].
  cbn [fst snd] in H. injection H as Hlen Hr Hsize.
  exists ps, w'. split; [reflexivity|]. split; [exact Hlen|].
  apply (batch_phones_distinct scenario_draws stopped_clock [] 0 0 3 (Some "Wyoming")
           ps w' E).
  left. rewrite Hsize. reflexivity.
Defined.

(** ** Single calls *)

(** X1: for every state name, known or not, and whatever is tracked, the
    phone generator returns without raising a number "(AAA) LLLL" whose area
    code AAA is one of those registered for the state, or the placeholder
    555 for a state without registered codes; the rest is an exchange from
    200-999 and a subscriber number from 1000-9999 making a number that was
    not tracked, or 999 and the count of tracked numbers padded to four
    digits.  The number is tracked afterwards, and the regeneration counter
    is left alone even when the fallback produced the number. *)
Theorem phone_area_code_of_state rand state w :
  ∃ p w' area_code line,
    generate_phone_number rand state w = (Ok p, w') ∧
    area_code ∈ dict_get Catalog.area_codes state ["555"] ∧
    p = "(" +:+ area_code +:+ ") " +:+ line ∧
    ((∃ exchange subscriber,
        (200 ≤ exchange ≤ 999)%N ∧ (1000 ≤ subscriber ≤ 9999)%N ∧
        line = Py.str exchange +:+ "-" +:+ Py.str subscriber ∧
        p ∉ phones (tracker w))
     ∨ line = "999-" +:+ Py.zfill 4 (N.of_nat (size (phones (tracker w))))) ∧
    phones (tracker w') = {[p]} ∪ phones (tracker w) ∧
    unique_regenerations (stats w') = unique_regenerations (stats w).
Proof.
  pose proof (generate_phone_number_spec rand state w) as H.
  apply wp_returns in H as (p & w' & Hrun & Ht & Hr & _ & _ & a & Ha & Hp).
  destruct Hp as [[(e & s & He & Hs & ->) Hnew]| ->].
  - exists (format_phone a (Py.str e) (Py.str s)), w', a, (Py.str e +:+ "-" +:+ Py.str s).
    split; [done|]. split; [done|]. split; [done|].
    split; [left; by exists e, s|]. split; [|done]. rewrite Ht. apply set_add_union.
  - exists (fallback_phone a (tracker w)), w', a,
      ("999-" +:+ Py.zfill 4 (N.of_nat (size (phones (tracker w))))).
    split; [done|]. split; [done|]. split; [done|].
    split; [by right|]. split; [|done]. rewrite Ht. apply set_add_union.
Qed.

(** X3: the email generator raises [IndexError], leaving the generator and
    both oracles as they were, when the first or the last name is empty; for
    non-empty names it never raises: it returns an address that ends in "@"
    and one of the eight domains and is tracked afterwards, and it leaves
    the regeneration counter alone even when the timestamp fallback produced
    the address. *)
Theorem email_generator_needs_names rand clock first_name last_name w :
  (first_name = "" ∨ last_name = "" →
   generate_unique_email rand clock first_name last_name w = (Raise IndexError, w))
  ∧
  (first_name ≠ "" → last_name ≠ "" →
   ∃ e w' local_part domain,
     generate_unique_email rand clock first_name last_name w = (Ok e, w') ∧
     e = local_part +:+ "@" +:+ domain ∧ domain ∈ domains ∧
     emails (tracker w') = {[e]} ∪ emails (tracker w) ∧
     unique_regenerations (stats w') = unique_regenerations (stats w)).
Proof.
  split.
  - intros [-> | ->]; [done|]. by destruct first_name.
  - intros Hf Hl.
    pose proof (generate_unique_email_spec rand clock first_name last_name w Hf Hl) as H.
    apply wp_returns in H as (e & w' & Hrun & Ht & Hr & _ & He).
    assert (∃ local_part domain, e = local_part +:+ "@" +:+ domain ∧ domain ∈ domains)
      as (local_part & domain & -> & Hd).
    { destruct He as [(_ & (attempt & f & l & pattern & num & domain & _ & _ & _ & _ & Hd & ->) & _)
                     |(-> & _)].
      - exists (pattern +:+ Py.str num), domain. by rewrite string_app_assoc.
      - exists (Py.lower first_name +:+ "." +:+ Py.lower last_name
                +:+ Py.str (clock (clock_pos w) `mod` 1000000)%N), "email.com".
        split; [|by apply list_elem_of_here].
        unfold fallback_email. by rewrite !string_app_assoc. }
    exists (local_part +:+ "@" +:+ domain), w', local_part, domain.
    split; [done|]. split; [done|]. split; [done|]. split; [|done].
    rewrite Ht. apply set_add_union.
Qed.

(** X3 on an empty first name, and on the names of a catalog pair. *)
Lemma email_generator_needs_names_witness :
  generate_unique_email zero_draws stopped_clock "" "Smith" fresh_world
  = (Raise IndexError, fresh_world)
  ∧ ∃ e w' local_part domain,
      generate_unique_email zero_draws stopped_clock "James" "Smith" fresh_world
      = (Ok e, w') ∧
      e = local_part +:+ "@" +:+ domain ∧ domain ∈ domains ∧
      emails (tracker w') = {[e]} ∪ emails (tracker fresh_world) ∧
      unique_regenerations (stats w') = unique_regenerations (stats fresh_world).
Proof.
  split.
  - apply (proj1 (email_generator_needs_names zero_draws stopped_clock "" "Smith"
                    fresh_world)).
    by left.
  - apply (proj2 (email_generator_needs_names zero_draws stopped_clock "James" "Smith"
                    fresh_world)); discriminate.
Defined.

Lemma area_codes_lookup s :
  s ∈ Catalog.public_places.*1 → is_Some (dict_lookup Catalog.area_codes s).
Proof. intros Hs. apply dict_lookup_keys. by rewrite area_codes_keys. Qed.

(** X7: a persona request for a state of the catalog, or for no state in
    particular, returns a persona whose state code, location, street, city
    and ZIP code are those of one place of one catalog state (the requested
    one, if any), whose full address is composed of them, whose phone number
    starts with an area code registered for that state, and whose name,
    email, phone number, full address and fingerprint are all tracked
    afterwards. *)
Theorem persona_fields_consistent rand clock state w :
  (∀ s, state_given state = Some s → s ∈ Catalog.public_places.*1) →
  ∃ p w' s places place code area_codes area_code line,
    generate_persona rand clock state w = (Ok p, w') ∧
    (state_given state = Some s ∨ state_given state = None) ∧
    dict_lookup Catalog.public_places s = Some places ∧ place ∈ places ∧
    dict_lookup Catalog.state_codes s = Some code ∧
    dict_lookup Catalog.area_codes s = Some area_codes ∧ area_code ∈ area_codes ∧
    State p = code ∧
    Location_Name p = place_name place ∧ Street_Address p = place_address place ∧
    City p = place_city place ∧ ZIP_Code p = place_zip place ∧
    Full_Address p
    = Street_Address p +:+ ", " +:+ City p +:+ ", " +:+ State p +:+ " " +:+ ZIP_Code p ∧
    Type_ p = "Public Place" ∧
    Phone p = "(" +:+ area_code +:+ ") " +:+ line ∧
    full_name_of (First_Name p) (Last_Name p) ∈ full_names (tracker w') ∧
    Email p ∈ emails (tracker w') ∧
    Phone p ∈ phones (tracker w') ∧
    Full_Address p ∈ addresses (tracker w') ∧
    generate_unique_hash [First_Name p; Last_Name p; Email p; Phone p; Full_Address p]
    ∈ person_hashes (tracker w').
Proof.
  intros Hstate.
  assert (∀ s, resolves_to state s → s ∈ Catalog.public_places.*1) as Hkeys.
  { unfold resolves_to. intros s. destruct (state_given state) as [s'|]; [|done].
    intros ->. by apply Hstate. }
  assert (∀ s, resolves_to state s → is_Some (dict_lookup Catalog.public_places s))
    as Hvalid.
  { intros s Hs. by apply dict_lookup_keys, Hkeys. }
  pose proof (generate_persona_spec rand clock state w Hvalid) as H.
  apply wp_returns in H as (p & w' & Hrun & _).
  pose proof Hrun as (c & b & corrected & Hp)%generate_persona_produced.
  destruct Hp as (Hpe & Hres & (places & Hplaces & Hin) & Hcode & _ & _ & _ & _ & _
                  & Hphone & Hcase & _).
  destruct (area_codes_lookup _ (Hkeys _ Hres)) as [areas Hareas].
  destruct Hphone as (a & Ha & Hph).
  unfold dict_get in Ha. rewrite Hareas in Ha. cbn [default] in Ha.
  assert (∃ line, c_phone c = "(" +:+ a +:+ ") " +:+ line) as [line Hline].
  { destruct Hph as [[(e & s & _ & _ & ->) _]| ->]; eexists; reflexivity. }
  assert (tracker w' = add_person_hash (fingerprint c (Email p))
                         ((if corrected then add_email (Email p) else id)
                            (fields_recorded c (tracker w)))) as Ht.
  { destruct corrected; [by destruct Hcase as (_ & ->)|by destruct Hcase as (_ & _ & ->)]. }
  assert (First_Name p = c_first c ∧ Last_Name p = c_last c ∧ Phone p = c_phone c ∧
          State p = c_code c ∧ Location_Name p = place_name (c_place c) ∧
          Street_Address p = place_address (c_place c) ∧ City p = place_city (c_place c) ∧
          ZIP_Code p = place_zip (c_place c) ∧
          Full_Address p = full_address_of (c_place c) (c_code c) ∧
          Type_ p = "Public Place")
    as (HF & HL & HP & HS & HN & HA & HC & HZ & HFA & HT).
  { rewrite Hpe. done. }
  assert (Email p ∈ emails (tracker w')) as Hemail.
  { rewrite Ht. destruct corrected.
    - apply elem_of_set_add. by left.
    - destruct Hcase as (_ & -> & _). apply elem_of_set_add. by left. }
  assert (full_names (tracker w')
          = set_add (full_name_of (c_first c) (c_last c)) (full_names (tracker w)) ∧
          phones (tracker w') = set_add (c_phone c) (phones (tracker w)) ∧
          addresses (tracker w')
          = set_add (full_address_of (c_place c) (c_code c)) (addresses (tracker w)) ∧
          person_hashes (tracker w')
          = set_add (fingerprint c (Email p)) (person_hashes (tracker w)))
    as (Hnames & Hphones & Haddrs & Hhashes).
  { rewrite Ht. by destruct corrected. }
  exists p, w', (c_state c), places, (c_place c), (c_code c), areas, a, line.
  split; [done|]. split.
  { unfold resolves_to in Hres. destruct (state_given state); [left; by subst|by right]. }
  rewrite HF, HL, HP, HS, HN, HA, HC, HZ, HFA, HT, Hnames, Hphones, Haddrs, Hhashes.
  repeat (split; [done|]).
  split; [apply elem_of_set_add; by left|].
  split; [done|].
  split; [apply elem_of_set_add; by left|].
  split; [apply elem_of_set_add; by left|].
  apply elem_of_set_add. by left.
Qed.

(** X7 at a persona for Wyoming on a fresh generator. *)
Lemma persona_fields_consistent_witness :
  ∃ p w' s places place code area_codes area_code line,
    generate_persona zero_draws stopped_clock (Some "Wyoming") fresh_world = (Ok p, w') ∧
    (state_given (Some "Wyoming") = Some s ∨ state_given (Some "Wyoming") = None) ∧
    dict_lookup Catalog.public_places s = Some places ∧ place ∈ places ∧
    dict_lookup Catalog.state_codes s = Some code ∧
    dict_lookup Catalog.area_codes s = Some area_codes ∧ area_code ∈ area_codes ∧
    State p = code ∧
    Location_Name p = place_name place ∧ Street_Address p = place_address place ∧
    City p = place_city place ∧ ZIP_Code p = place_zip place ∧
    Full_Address p
    = Street_Address p +:+ ", " +:+ City p +:+ ", " +:+ State p +:+ " " +:+ ZIP_Code p ∧
    Type_ p = "Public Place" ∧
    Phone p = "(" +:+ area_code +:+ ") " +:+ line ∧
    full_name_of (First_Name p) (Last_Name p) ∈ full_names (tracker w') ∧
    Email p ∈ emails (tracker w') ∧
    Phone p ∈ phones (tracker w') ∧
    Full_Address p ∈ addresses (tracker w') ∧
    generate_unique_hash [First_Name p; Last_Name p; Email p; Phone p; Full_Address p]
    ∈ person_hashes (tracker w').
Proof.
  apply (persona_fields_consistent zero_draws stopped_clock (Some "Wyoming") fresh_world).
  intros s [= <-]. by_evaluation.
Defined.

(** ** The work of the address selector *)

(** A loop invariant that knows the attempt index. *)
Lemma wp_for_from_indexed {R L} (body : nat → M (R + L)) (I : nat → World → Prop)
    (Qr : R → World → Prop) (Qe : exn → World → Prop) :
  (∀ i w, I i w →
     wp (body i) (λ r w', match r with
                          | Ok (inl x) => Qr x w'
                          | Ok (inr _) => I (S i) w'
                          | Raise e => Qe e w'
                          end) w) →
  ∀ n i last w, I i w →
    wp (for_from body i n last)
       (λ r w', match r with
                | Ok (Returned x) => Qr x w'
                | Ok (Exhausted _) => I (i + n)%nat w'
                | Raise e => Qe e w'
                end) w.
Proof.
  intros Hbody n. induction n as [|n IH]; intros i last w HI; cbn [for_from].
  - apply wp_ret. by rewrite Nat.add_0_r.
  - apply wp_bind. eapply wp_mono; [|apply (Hbody i w HI)].
    intros [[x|l]|e] w' H; cbn beta iota in *.
    + apply wp_ret. exact H.
    + eapply wp_mono; [|apply (IH (S i) (Some l) w' H)].
      intros [[x|last']|e] w'' H'; cbn beta iota in *; auto.
      by replace (i + S n)%nat with (S i + n)%nat by lia.
    + exact H.
Qed.

(** The world after [k] collisions on used addresses, each with its draw. *)
Definition after_collisions (k : nat) (w w' : World) : Prop :=
  tracker w' = tracker w ∧
  collision_attempts (stats w') = (collision_attempts (stats w) + k)%nat ∧
  unique_regenerations (stats w') = unique_regenerations (stats w) ∧
  total_generated (stats w') = total_generated (stats w) ∧
  rng_pos w' = (rng_pos w + N.of_nat k)%N ∧
  clock_pos w' = clock_pos w.

(** The selector returned [place] at its attempt of index [k]. *)
Definition address_served (code : string) (places : list Place) (w : World)
    (place : Place) (k : nat) (w' : World) : Prop :=
  place ∈ places ∧
  tracker w' = add_address (full_address_of place code) (tracker w) ∧
  collision_attempts (stats w') = (collision_attempts (stats w) + k)%nat ∧
  rng_pos w' = (rng_pos w + N.of_nat k + 1)%N ∧
  (full_address_of place code ∈ addresses (tracker w) → (k > length places)%nat).

Section AddressWork.

Variable rand : N → N.

Lemma address_attempt_work state places code k w0 w :
  places ≠ [] →
  dict_lookup Catalog.state_codes state = Some code →
  after_collisions k w0 w →
  wp (address_attempt rand state places k)
     (returns (λ r w',
        match r with
        | inl place => address_served code places w0 place k w'
        | inr _ => after_collisions (S k) w0 w' ∧ ¬ (k > length places)%nat
        end)) w.
Proof.
  intros Hne Hcode (Ht & Hc & Hr & Hn & Hrng & Hclk). unfold address_attempt.
  wp_step. apply wp_choice; [done|]. intros place Hp.
  wp_step. apply wp_dict_item. rewrite Hcode.
  wp_steps; unfold address_served, after_collisions; world_simpl.
  - rewrite Ht, Hc, Hrng. repeat (split; [done || lia|]). rewrite <- Ht. tauto.
  - rewrite Hc, Hrng. split; [done|].
    split; [rewrite Ht; symmetry; apply add_address_tracked|].
    { rewrite <- Ht. by apply dec_stable. }
    split; [done|]. split; [lia|]. tauto.
  - rewrite Hc, Hr, Hn, Hrng, Hclk. split; [|tauto].
    repeat (split; [done || lia|]). done.
Qed.

(** The loop returns at an attempt of index at most [length places + 1]:
    it is never exhausted. *)
Lemma address_loop_work state places code w :
  (2 ≤ length places)%nat →
  dict_lookup Catalog.state_codes state = Some code →
  wp (for_range (length places * 2) (address_attempt rand state places))
     (returns (λ r w',
        match r with
        | Returned place =>
            ∃ k, (k ≤ S (length places))%nat ∧ address_served code places w place k w'
        | Exhausted _ => False
        end)) w.
Proof.
  intros Hlen Hcode. unfold for_range.
  assert (places ≠ []) as Hne by (intros ->; simpl in Hlen; lia).
  eapply wp_mono;
    [|apply (wp_for_from_indexed (address_attempt rand state places)
               (λ k w', (k ≤ S (length places))%nat ∧ after_collisions k w w')
               (λ place w',
                  ∃ k, (k ≤ S (length places))%nat ∧ address_served code places w place k w')
               (λ _ _, False))].
  - intros [[place|last]|err] w'; cbn beta iota; [done| |done].
    intros [Hk _]. lia.
  - intros k w1 [Hk Hq]. eapply wp_mono; [|by apply address_attempt_work].
    intros [[place|[]]|err] w'; cbn beta iota; try done.
    + intros H. by exists k.
    + intros [Hq' Hi]. split; [lia|done].
  - split; [lia|]. unfold after_collisions. repeat split; (done || lia).
Qed.

Lemma generate_unique_address_work state places code w :
  dict_lookup Catalog.public_places state = Some places →
  dict_lookup Catalog.state_codes state = Some code →
  (2 ≤ length places)%nat →
  ∃ place w' k,
    for_range (length places * 2) (address_attempt rand state places) w
    = (Ok (Returned place), w') ∧
    generate_unique_address rand state w = (Ok place, w') ∧
    (k ≤ S (length places))%nat ∧ address_served code places w place k w'.
Proof.
  intros Hplaces Hcode Hlen.
  pose proof (address_loop_work state places code w Hlen Hcode) as H.
  apply wp_returns in H as ([place|last] & w' & Hrun & H); [|done].
  destruct H as (k & Hk & Hs).
  exists place, w', k. split; [done|]. split; [|done].
  unfold generate_unique_address, dict_item. rewrite Hplaces.
  rewrite ret_bind_run. unfold mbind, M_bind. by rewrite Hrun.
Qed.

End AddressWork.

(** X6: for a state of the catalog the retry loop of the address selector
    always returns, so the draw after the loop is never made; the selector
    makes [k + 1] draws and counts [k] collisions for some [k] of at most 6,
    and it hands out an address that was already tracked only at its seventh
    attempt, after six collisions. *)
Theorem address_selector_work rand state places w :
  dict_lookup Catalog.public_places state = Some places →
  ∃ place w' code k,
    for_range (length places * 2) (address_attempt rand state places) w
    = (Ok (Returned place), w') ∧
    generate_unique_address rand state w = (Ok place, w') ∧
    dict_lookup Catalog.state_codes state = Some code ∧
    (k ≤ 6)%nat ∧
    collision_attempts (stats w') = (collision_attempts (stats w) + k)%nat ∧
    rng_pos w' = (rng_pos w + N.of_nat k + 1)%N ∧
    (full_address_of place code ∈ addresses (tracker w) → k = 6%nat).
Proof.
  intros Hplaces.
  pose proof (dict_lookup_Forall (λ _ v, length v = 5%nat) _ _ _
                public_places_five Hplaces) as Hfive.
  pose proof (dict_lookup_Forall (λ k _, is_Some (dict_lookup Catalog.state_codes k))
                _ _ _ public_places_coded Hplaces) as [code Hcode].
  cbn beta in Hfive, Hcode.
  assert (2 ≤ length places)%nat as Hlen by lia.
  destruct (generate_unique_address_work rand state places code w Hplaces Hcode Hlen)
    as (place & w' & k & Hloop & Hrun & Hk & _ & _ & Hc & Hrng & Hused).
  exists place, w', code, k. rewrite Hfive in Hk, Hused.
  repeat (split; [done|]). intros Hin. specialize (Hused Hin). unfold gt in Hused. lia.
Qed.

(** X6 at the sixth request for Wyoming: all five addresses are tracked. *)
Lemma address_selector_work_witness :
  ∃ place w' code k,
    for_range (length wyoming_places * 2)
      (address_attempt counting_draws "Wyoming" wyoming_places) wyoming_exhausted
    = (Ok (Returned place), w') ∧
    generate_unique_address counting_draws "Wyoming" wyoming_exhausted = (Ok place, w') ∧
    dict_lookup Catalog.state_codes "Wyoming" = Some code ∧
    (k ≤ 6)%nat ∧
    collision_attempts (stats w')
    = (collision_attempts (stats wyoming_exhausted) + k)%nat ∧
    rng_pos w' = (rng_pos wyoming_exhausted + N.of_nat k + 1)%N ∧
    (full_address_of place code ∈ addresses (tracker wyoming_exhausted) → k = 6%nat).
Proof.
  apply (address_selector_work counting_draws "Wyoming" wyoming_places wyoming_exhausted).
  vm_compute. reflexivity.
Defined.

(** ** The work of one call is bounded *)

(** [m] makes at most [d] draws, reads the clock at most [t] times and
    counts at most [c] collisions, whether it returns or raises. *)
Definition work (d t : N) (c : nat) {A} (m : M A) : Prop :=
  ∀ w,
    (rng_pos (m w).2 ≤ rng_pos w + d)%N ∧
    (clock_pos (m w).2 ≤ clock_pos w + t)%N ∧
    (collision_attempts (stats (m w).2) ≤ collision_attempts (stats w) + c)%nat.

Lemma work_weaken {A} (m : M A) d t c d' t' c' :
  work d t c m → (d ≤ d')%N → (t ≤ t')%N → (c ≤ c')%nat → work d' t' c' m.
Proof. intros H ? ? ? w. destruct (H w) as (? & ? & ?). repeat split; lia. Qed.

Lemma work_ret {A} (a : A) d t c : work d t c (mret a).
Proof. intros w. cbn. repeat split; lia. Qed.

Lemma work_raise {A} e d t c : work d t c (raise (A:=A) e).
Proof. intros w. cbn. repeat split; lia. Qed.

Lemma work_get d t c : work d t c get.
Proof. intros w. cbn. repeat split; lia. Qed.

Lemma work_dict_item {V} (dict : list (string * V)) key d t c :
  work d t c (dict_item dict key).
Proof. unfold dict_item. destruct (dict_lookup dict key); [apply work_ret|apply work_raise]. Qed.

Lemma work_base_first_name f d t c : work d t c (base_first_name f).
Proof.
  unfold base_first_name. destruct (Py.split_first f); [apply work_ret|apply work_raise].
Qed.

Lemma work_modify_tracker f d t c : work d t c (modify (with_tracker f)).
Proof. intros w. cbn. repeat split; lia. Qed.

Lemma work_bump_collisions : work 0 0 1 (modify (with_stats bump_collisions)).
Proof. intros w. cbn. repeat split; lia. Qed.

Lemma work_bump_regenerations d t c : work d t c (modify (with_stats bump_regenerations)).
Proof. intros w. cbn. repeat split; lia. Qed.

Lemma work_bump_total d t c : work d t c (modify (with_stats bump_total)).
Proof. intros w. cbn. repeat split; lia. Qed.

(** The work of a sequence is the sum of the work of its parts. *)
Lemma work_bind {A B} (m : M A) (k : A → M B) d1 t1 c1 d2 t2 c2 :
  work d1 t1 c1 m → (∀ a, work d2 t2 c2 (k a)) →
  work (d1 + d2) (t1 + t2) (c1 + c2) (m ≫= k).
Proof.
  intros Hm Hk w. destruct (Hm w) as (Hd & Ht & Hc). unfold mbind, M_bind.
  destruct (m w) as [[a|e] w1]; cbn [snd] in *.
  - destruct (Hk a w1) as (? & ? & ?). repeat split; lia.
  - repeat split; lia.
Qed.

(** The same, with the budget of the whole given. *)
Lemma work_bind_within {A B} (m : M A) (k : A → M B) d1 t1 c1 d t c :
  work d1 t1 c1 m → (∀ a, work (d - d1) (t - t1) (c - c1) (k a)) →
  (d1 ≤ d)%N → (t1 ≤ t)%N → (c1 ≤ c)%nat →
  work d t c (m ≫= k).
Proof.
  intros Hm Hk ? ? ?. eapply work_weaken; [by apply work_bind|lia..].
Qed.

Lemma work_for_from {R L} (body : nat → M (R + L)) d t c :
  (∀ i, work d t c (body i)) →
  ∀ n i last, work (N.of_nat n * d) (N.of_nat n * t) (n * c) (for_from body i n last).
Proof.
  intros Hbody n. induction n as [|n IH]; intros i last; cbn [for_from].
  - apply work_ret.
  - eapply work_weaken; [apply (work_bind _ _ d t c (N.of_nat n * d) (N.of_nat n * t) (n * c))
                        |lia..].
    + apply Hbody.
    + intros [x|l]; [apply work_ret|apply IH].
Qed.

Section Work.

Variable rand : N → N.
Variable clock : N → N.

Lemma work_draw : work 1 0 0 (draw rand).
Proof. intros w. cbn. repeat split; lia. Qed.

Lemma work_now_ms : work 0 1 0 (now_ms clock).
Proof. intros w. cbn. repeat split; lia. Qed.

Lemma work_choice {A} (l : list A) : work 1 0 0 (choice rand l).
Proof.
  destruct l as [|x l]; [apply work_raise|].
  apply (work_bind _ _ 1 0 0 0 0 0); [apply work_draw|]. intros r. apply work_ret.
Qed.

Lemma work_randint a b : work 1 0 0 (randint rand a b).
Proof. apply (work_bind _ _ 1 0 0 0 0 0); [apply work_draw|]. intros r. apply work_ret. Qed.

Ltac work_part :=
  lazymatch goal with
  | |- work _ _ _ (choice _ _) => apply work_choice
  | |- work _ _ _ (randint _ _ _) => apply work_randint
  | |- work _ _ _ (now_ms _) => apply work_now_ms
  | |- work _ _ _ (modify (with_stats bump_collisions)) => apply work_bump_collisions
  | |- work _ _ _ (modify (with_stats bump_regenerations)) =>
      apply (work_bump_regenerations 0 0 0)
  | |- work _ _ _ (modify (with_stats bump_total)) => apply (work_bump_total 0 0 0)
  | |- work _ _ _ (modify (with_tracker _)) => apply (work_modify_tracker _ 0 0 0)
  | |- work _ _ _ get => apply (work_get 0 0 0)
  | |- work _ _ _ (dict_item _ _) => apply (work_dict_item _ _ 0 0 0)
  | |- work _ _ _ (base_first_name _) => apply (work_base_first_name _ 0 0 0)
  | |- work _ _ _ (mret _) => apply (work_ret _ 0 0 0)
  | |- work _ _ _ (raise _) => apply (work_raise _ 0 0 0)
  end.

Ltac work_step :=
  lazymatch goal with
  | |- work _ _ _ (mret _) => apply work_ret
  | |- work _ _ _ (raise _) => apply work_raise
  | |- work _ _ _ (_ ≫= _) =>
      eapply work_bind_within; [work_part|intros ?|lia|lia|lia]
  | |- work _ _ _ (if ?b then _ else _) => destruct b
  | |- work _ _ _ (match ?x with _ => _ end) => destruct x
  | |- work _ _ _ _ => eapply work_weaken; [work_part|lia|lia|lia]
  end.

Lemma work_phone_attempt state i : work 3 0 1 (phone_attempt rand state i).
Proof. unfold phone_attempt. repeat work_step. Qed.

Lemma work_generate_phone_number state : work 300 0 100 (generate_phone_number rand state).
Proof.
  unfold generate_phone_number, for_range.
  eapply work_bind_within;
    [apply (work_for_from _ 3 0 1), work_phone_attempt|intros ?|lia|lia|lia].
  repeat work_step.
Qed.

Lemma work_email_candidate first_name last_name i :
  work 3 0 0 (email_candidate rand first_name last_name i).
Proof.
  unfold email_candidate, email_patterns.
  destruct (Py.head_char first_name), (Py.head_char last_name); repeat work_step.
Qed.

Lemma work_email_attempt first_name last_name i :
  work 3 0 1 (email_attempt rand first_name last_name i).
Proof.
  unfold email_attempt.
  eapply work_bind_within; [apply work_email_candidate|intros ?|lia|lia|lia].
  repeat work_step.
Qed.

Lemma work_generate_unique_email first_name last_name :
  work 150 1 50 (generate_unique_email rand clock first_name last_name).
Proof.
  unfold generate_unique_email, for_range.
  eapply work_bind_within;
    [apply (work_for_from _ 3 0 1), work_email_attempt|intros ?|lia|lia|lia].
  repeat work_step.
Qed.

Lemma work_name_attempt i : work 3 0 1 (name_attempt rand i).
Proof. unfold name_attempt. repeat work_step. Qed.

Lemma work_generate_unique_name : work 600 0 200 (generate_unique_name rand).
Proof.
  unfold generate_unique_name, for_range.
  eapply work_bind_within;
    [apply (work_for_from _ 3 0 1), work_name_attempt|intros ?|lia|lia|lia].
  repeat work_step.
Qed.

Lemma work_generate_unique_address state : work 7 0 6 (generate_unique_address rand state).
Proof.
  intros w. destruct (dict_lookup Catalog.public_places state) as [places|] eqn:Hplaces.
  - pose proof (dict_lookup_Forall (λ _ v, length v = 5%nat) _ _ _
                  public_places_five Hplaces) as Hfive.
    pose proof (dict_lookup_Forall (λ k _, is_Some (dict_lookup Catalog.state_codes k))
                  _ _ _ public_places_coded Hplaces) as [code Hcode].
    cbn beta in Hfive, Hcode.
    assert (2 ≤ length places)%nat as Hlen by lia.
    destruct (generate_unique_address_work rand state places code w Hplaces Hcode Hlen)
      as (place & w' & k & _ & Hrun & Hk & _ & Ht & Hc & Hrng & _).
    rewrite Hrun.
    cbn [snd]. rewrite Hc, Hrng.
    assert (clock_pos w' = clock_pos w) as ->.
    { pose proof (generate_unique_address_spec rand state places code w
                    Hplaces Hcode Hlen) as H.
      eapply wp_run in H; [|done]. apply H. }
    repeat split; lia.
  - rewrite generate_unique_address_unknown by done. cbn. repeat split; lia.
Qed.

Lemma work_generate_persona state :
  work 1209 3 406 (generate_persona rand clock state).
Proof.
  unfold generate_persona.
  eapply work_bind_within; [|intros ?|..].
  { destruct (state_given state); [apply (work_ret _ 1 0 0)|apply work_choice]. }
  2-4: lia.
  eapply work_bind_within; [apply work_generate_unique_name|intros [? ?]|lia..].
  eapply work_bind_within; [work_part|intros ?|lia..].
  eapply work_bind_within; [apply work_generate_unique_email|intros ?|lia..].
  eapply work_bind_within; [apply work_generate_phone_number|intros ?|lia..].
  eapply work_bind_within; [apply work_generate_unique_address|intros ?|lia..].
  do 3 (eapply work_bind_within; [work_part|intros ?|lia..]).
  cbv zeta. eapply work_bind_within; [work_part|intros ?|lia..].
  eapply work_bind_within; [|intros [? ?]|..].
  { case_decide.
    - apply (work_bind _ _ 0 0 0 151 1 50); [work_part|]. intros _.
      apply (work_bind _ _ 0 0 0 151 1 50); [work_part|]. intros ?.
      apply (work_bind _ _ 1 0 0 150 1 50); [work_part|]. intros ?.
      apply (work_bind _ _ 150 1 50 0 0 0); [apply work_generate_unique_email|].
      intros ?. apply work_ret.
    - apply work_ret. }
  2-4: lia.
  repeat work_step.
Qed.

End Work.

(** X8: one persona request makes at most 1209 draws, reads the clock at
    most 3 times and counts at most 406 collisions, whatever the state
    asked for, the draws and the tracker, and whether it returns or raises:
    the retry budgets of 200, 50, 100 and 7 attempts, and those of the
    corrective pass, add up. *)
Theorem persona_work_bounded rand clock state w :
  let w' := (generate_persona rand clock state w).2 in
  (rng_pos w' ≤ rng_pos w + 1209)%N ∧
  (clock_pos w' ≤ clock_pos w + 3)%N ∧
  (collision_attempts (stats w') ≤ collision_attempts (stats w) + 406)%nat.
Proof. apply work_generate_persona. Qed.

(** ** Reading a full name back *)

Definition is_word_char (c : ascii) : bool := negb (Py.isspace c).

Lemma no_space_all_chars s : all_chars is_word_char s = no_space s.
Proof. induction s as [|c s IH]; [done|]. cbn. by rewrite IH. Qed.

Lemma full_name_inj f l f' l' :
  no_space f = true → no_space f' = true →
  full_name_of f l = full_name_of f' l' → f = f' ∧ l = l'.
Proof.
  intros Hf Hf'. unfold full_name_of.
  change (f +:+ " " +:+ l) with (f +:+ String " " l).
  change (f' +:+ " " +:+ l') with (f' +:+ String " " l').
  intros Heq.
  apply (class_prefix_unique is_word_char) in Heq as [-> Heq];
    [|by rewrite no_space_all_chars..|done|done].
  by injection Heq as ->.
Qed.

Lemma no_space_app_space a b : no_space (a +:+ String " " b) = false.
Proof.
  induction a as [|c a IH]; [done|].
  change (String c a +:+ String " " b) with (String c (a +:+ String " " b)).
  cbn [no_space]. rewrite IH. apply andb_false_r.
Qed.

(** The full name of a first name with a middle initial. *)
Lemma full_name_of_initial c i l :
  full_name_of (c +:+ " " +:+ i) l = full_name_of c (i +:+ String " " l).
Proof.
  unfold full_name_of. rewrite string_app_assoc.
  change (" " +:+ i) with (String " " i).
  change (String " " i +:+ " " +:+ l) with (String " " (i +:+ String " " l)). done.
Qed.

(** A name with a middle initial is the full name of no catalog pair. *)
Lemma initial_leaves_catalog c l i f' l' :
  catalog_name c l → catalog_name f' l' →
  full_name_of (c +:+ " " +:+ i) l ≠ full_name_of f' l'.
Proof.
  intros Hc Hc' Heq. rewrite full_name_of_initial in Heq.
  destruct (catalog_name_words _ _ Hc) as [Hw _].
  destruct (catalog_name_words _ _ Hc') as [Hw' Hl'].
  assert (∀ s, is_word s = true → no_space s = true) as Hns by (by intros []).
  apply full_name_inj in Heq as [_ <-]; [|by apply Hns..].
  apply Hns in Hl'. by rewrite no_space_app_space in Hl'.
Qed.

Lemma chr_initial_inj j k :
  (j < 26)%N → (k < 26)%N → Py.chr (65 + j) = Py.chr (65 + k) → j = k.
Proof.
  intros Hj Hk Heq. unfold Py.chr in Heq.
  apply (f_equal Ascii.N_of_ascii) in Heq.
  rewrite !Ascii.N_ascii_embedding in Heq by lia. lia.
Qed.

(** Every tracked full name is that of a catalog pair, or that of a catalog
    pair with the middle initial of a count below the current count of
    tracked names. *)
Definition names_well_formed (X : gset string) : Prop :=
  ∀ n, n ∈ X →
    (∃ f l, catalog_name f l ∧ n = full_name_of f l)
    ∨ (∃ c l k, catalog_name c l ∧ (k < size X)%nat ∧
         n = full_name_of (c +:+ " " +:+ String (Py.chr (65 + N.of_nat k `mod` 26)) "") l).

Lemma names_well_formed_empty : names_well_formed ∅.
Proof. intros n Hn. by apply not_elem_of_empty in Hn. Qed.

Lemma name_outcome_well_formed t f l b :
  names_well_formed (full_names t) → name_outcome t f l b →
  names_well_formed (set_add (full_name_of f l) (full_names t)).
Proof.
  intros Hinv Hout n Hn.
  pose proof (size_set_add_le (full_name_of f l) (full_names t)) as Hle.
  destruct (decide (n ∈ full_names t)) as [Hold|Hnew].
  - destruct (Hinv n Hold) as [?|(c & l' & k & Hc & Hk & ->)]; [by left|].
    right. exists c, l', k. split; [done|]. split; [lia|done].
  - apply elem_of_set_add in Hn as [->|?]; [|done].
    destruct b; cbn in Hout.
    + destruct Hout as (c & Hc & ->). right.
      exists c, l, (size (full_names t)). split; [done|]. split; [|done].
      rewrite size_set_add. rewrite decide_False by done. lia.
    + destruct Hout as (Hc & _). left. by exists f, l.
Qed.

(** While fewer than 26 names are tracked, the name handed out is new. *)
Lemma name_outcome_new t f l b :
  names_well_formed (full_names t) →
  (size (full_names t) < 26)%nat →
  name_outcome t f l b → full_name_of f l ∉ full_names t.
Proof.
  intros Hinv Hsize Hout. destruct b; cbn in Hout; [|apply Hout].
  destruct Hout as (c & Hc & ->). intros Hin. unfold middle_initial_of in Hin.
  destruct (Hinv _ Hin) as [(f' & l' & Hc' & Heq)|(c' & l' & k & Hc' & Hk & Heq)].
  - exact (initial_leaves_catalog _ _ _ _ _ Hc Hc' Heq).
  - rewrite !full_name_of_initial in Heq.
    destruct (catalog_name_words _ _ Hc) as [Hw _].
    destruct (catalog_name_words _ _ Hc') as [Hw' _].
    assert (∀ s, is_word s = true → no_space s = true) as Hns by (by intros []).
    apply full_name_inj in Heq as [_ Heq]; [|by apply Hns..].
    injection Heq as Heq _.
    rewrite !N.mod_small in Heq by lia.
    apply chr_initial_inj in Heq; lia.
Qed.

(** The set of full names is left alone, or a name the generator made for
    it is added. *)
Definition names_issue_step (t t' : Tracker) : Prop :=
  full_names t' = full_names t
  ∨ ∃ f l b, name_outcome t f l b ∧
             full_names t' = set_add (full_name_of f l) (full_names t).

Lemma names_well_formed_step t t' :
  names_well_formed (full_names t) → names_issue_step t t' →
  names_well_formed (full_names t').
Proof.
  intros Hinv [->|(f & l & b & Hout & ->)]; [done|]. by eapply name_outcome_well_formed.
Qed.

Section NamesFrame.

Variable rand : N → N.
Variable clock : N → N.

(** The name generator never raises; it hands out a catalog pair that was
    not tracked, or a catalog pair with a middle initial. *)
Lemma generate_unique_name_outcome w :
  ∃ f l w' (b : bool),
    generate_unique_name rand w = (Ok (f, l), w') ∧
    name_outcome (tracker w) f l b ∧
    tracker w' = record_name f l (tracker w) ∧
    unique_regenerations (stats w')
    = (unique_regenerations (stats w) + if b then 1 else 0)%nat.
Proof.
  pose proof (generate_unique_name_spec rand w) as H.
  apply wp_returns in H as ([f l] & w' & Hrun & Ht & _ & _ & Hcase).
  exists f, l, w'.
  destruct Hcase as [(Hc & Hnew & Hkey & Hr)|(c & Hc & -> & Hr)].
  - exists false. cbn. rewrite Hr. repeat (split; [done|]). lia.
  - exists true. cbn. rewrite Hr. split; [done|]. split; [by exists c|]. split; [done|lia].
Qed.

Lemma generate_unique_name_names w :
  names_issue_step (tracker w) (tracker (generate_unique_name rand w).2).
Proof.
  destruct (generate_unique_name_outcome w) as (f & l & w' & b & -> & Hout & Ht & _).
  right. exists f, l, b. split; [done|]. cbn [snd]. by rewrite Ht.
Qed.

Lemma generate_unique_email_names first_name last_name w :
  names_issue_step (tracker w)
                   (tracker (generate_unique_email rand clock first_name last_name w).2).
Proof.
  left. destruct first_name as [|a first']; [done|].
  destruct last_name as [|b last']; [done|].
  pose proof (generate_unique_email_spec rand clock (String a first') (String b last') w) as H.
  apply wp_returns in H as (e & w' & -> & Ht & _); [|done..]. cbn [snd]. by rewrite Ht.
Qed.

Lemma generate_phone_number_names state w :
  names_issue_step (tracker w) (tracker (generate_phone_number rand state w).2).
Proof.
  left. pose proof (generate_phone_number_spec rand state w) as H.
  apply wp_returns in H as (p & w' & -> & Ht & _). cbn [snd]. by rewrite Ht.
Qed.

Lemma generate_unique_address_names state w :
  names_issue_step (tracker w) (tracker (generate_unique_address rand state w).2).
Proof.
  left. destruct (dict_lookup Catalog.public_places state) as [places|] eqn:Hplaces.
  - pose proof (dict_lookup_Forall (λ _ v, length v = 5%nat) _ _ _
                  public_places_five Hplaces) as Hfive.
    pose proof (dict_lookup_Forall (λ k _, is_Some (dict_lookup Catalog.state_codes k))
                  _ _ _ public_places_coded Hplaces) as [code Hcode].
    cbn beta in Hfive, Hcode.
    assert (2 ≤ length places)%nat as Hlen by lia.
    pose proof (generate_unique_address_spec rand state places code w
                  Hplaces Hcode Hlen) as H.
    apply wp_returns in H as (place & w' & -> & _ & Ht & _). cbn [snd]. by rewrite Ht.
  - by rewrite generate_unique_address_unknown.
Qed.

Lemma generate_persona_names state w :
  names_issue_step (tracker w) (tracker (generate_persona rand clock state w).2).
Proof.
  right. destruct (state_cases state) as [Hvalid|(s & Hs & Hnone)].
  - pose proof (generate_persona_spec rand clock state w Hvalid) as H.
    apply wp_returns in H as (p & w' & Hrun & _). rewrite Hrun. cbn [snd].
    apply generate_persona_produced in Hrun as (c & b & corrected & Hp).
    pose proof (persona_produced_sets _ _ _ _ _ _ _ Hp) as (_ & _ & _ & Hnames & _).
    exists (c_first c), (c_last c), b. split; [apply Hp|done].
  - destruct (generate_persona_unknown rand clock state s w Hs Hnone)
      as (w' & f & l & base & e & p & -> & Ht & _ & _ & _ & _ & _ & _ & _ & b & Hname & _).
    cbn [snd]. exists f, l, b. split; [done|]. by rewrite Ht.
Qed.

Lemma personas_loop_names n state acc w :
  names_well_formed (full_names (tracker w)) →
  names_well_formed (full_names (tracker (personas_loop rand clock n state acc w).2)).
Proof.
  revert acc w. induction n as [|n IH]; intros acc w Hw; [done|].
  cbn [personas_loop]. unfold mbind, M_bind.
  pose proof (generate_persona_names state w) as Hstep.
  destruct (generate_persona rand clock state w) as [[p|e] w1]; cbn [snd] in *.
  - apply IH. by eapply names_well_formed_step.
  - by eapply names_well_formed_step.
Qed.

Lemma perform_names c w :
  names_well_formed (full_names (tracker w)) →
  names_well_formed (full_names (tracker (perform rand clock c w))).
Proof.
  intros Hw. destruct c; cbn [perform].
  - eapply names_well_formed_step; [exact Hw|]. apply generate_unique_name_names.
  - eapply names_well_formed_step; [exact Hw|]. apply generate_unique_email_names.
  - eapply names_well_formed_step; [exact Hw|]. apply generate_phone_number_names.
  - eapply names_well_formed_step; [exact Hw|]. apply generate_unique_address_names.
  - eapply names_well_formed_step; [exact Hw|]. apply generate_persona_names.
  - by apply personas_loop_names.
Qed.

Lemma after_calls_names calls rng_start clock_start :
  names_well_formed
    (full_names (tracker (after_calls rand clock calls rng_start clock_start))).
Proof.
  unfold after_calls.
  assert (names_well_formed
            (full_names (tracker (mkWorld new_generator rng_start clock_start))))
    as H by apply names_well_formed_empty.
  revert H. generalize (mkWorld new_generator rng_start clock_start).
  induction calls as [|c calls IH]; intros w Hw; [done|].
  cbn [foldl]. apply IH. by apply perform_names.
Qed.

End NamesFrame.

(** X4: the name generator never raises, whatever is tracked.  It returns
    a pair of the catalog whose full name and hash were not tracked, leaving
    the regeneration counter alone, or, bumping that counter, a first name
    of the catalog followed by a blank and a middle initial A-Z, with a last
    name of the catalog: a full name that no pair of the catalog has.  Either
    way the full name and the hash of the pair are tracked afterwards. *)
Theorem name_generator_outcomes rand w :
  ∃ f l w',
    generate_unique_name rand w = (Ok (f, l), w') ∧
    full_names (tracker w') = {[full_name_of f l]} ∪ full_names (tracker w) ∧
    name_hashes (tracker w') = {[generate_unique_hash [f; l]]} ∪ name_hashes (tracker w) ∧
    ((f ∈ Catalog.male_names ++ Catalog.female_names ∧ l ∈ Catalog.last_names ∧
      (full_name_of f l ∉ full_names (tracker w)) ∧
      (generate_unique_hash [f; l] ∉ name_hashes (tracker w)) ∧
      unique_regenerations (stats w') = unique_regenerations (stats w))
     ∨
     ((∃ c k, c ∈ Catalog.male_names ++ Catalog.female_names ∧ l ∈ Catalog.last_names ∧
              (k < 26)%N ∧ f = c +:+ " " +:+ String (Py.chr (65 + k)) "") ∧
      (∀ f' l', f' ∈ Catalog.male_names ++ Catalog.female_names → l' ∈ Catalog.last_names →
                full_name_of f l ≠ full_name_of f' l') ∧
      unique_regenerations (stats w') = S (unique_regenerations (stats w)))).
Proof.
  destruct (generate_unique_name_outcome rand w) as (f & l & w' & b & Hrun & Hout & Ht & Hr).
  exists f, l, w'. split; [done|]. rewrite Ht.
  split; [apply set_add_union|]. split; [apply set_add_union|].
  destruct b; cbn in Hout.
  - right. destruct Hout as (c & [Hc Hl] & ->). split; [|split; [|lia]].
    + exists c, (N.of_nat (size (full_names (tracker w))) `mod` 26)%N.
      repeat (split; [done|]). split; [|done]. apply N.mod_upper_bound. lia.
    + intros f' l' Hf' Hl'. by apply initial_leaves_catalog.
  - left. destruct Hout as ([Hf Hl] & Hnew & Hkey). repeat (split; [done|]). lia.
Qed.

(** X5: in every world reachable from a fresh generator in which fewer
    than 26 full names are tracked, the name generator returns a pair whose
    full name was not tracked, and the count of tracked names grows by one. *)
Theorem name_is_new_below_26 rand clock calls rng_start clock_start :
  let w := after_calls rand clock calls rng_start clock_start in
  (size (full_names (tracker w)) < 26)%nat →
  ∃ f l w',
    generate_unique_name rand w = (Ok (f, l), w') ∧
    (full_name_of f l ∉ full_names (tracker w)) ∧
    size (full_names (tracker w')) = S (size (full_names (tracker w))).
Proof.
  intros w Hsize.
  pose proof (after_calls_names rand clock calls rng_start clock_start) as Hinv.
  fold w in Hinv.
  destruct (generate_unique_name_outcome rand w) as (f & l & w' & b & Hrun & Hout & Ht & _).
  assert (full_name_of f l ∉ full_names (tracker w)) as Hnew
    by (by eapply name_outcome_new).
  exists f, l, w'. split; [done|]. split; [done|].
  rewrite Ht.
  change (full_names (record_name f l (tracker w)))
    with (set_add (full_name_of f l) (full_names (tracker w))).
  rewrite size_set_add. by rewrite decide_False.
Qed.

(** X5 at the second call under draws that repeat James Smith in all 200
    attempts: the fallback name "James B" Smith is new. *)
Lemma name_is_new_below_26_witness :
  ∃ f l w',
    generate_unique_name zero_draws
      (after_calls zero_draws stopped_clock [CallName] 0 0) = (Ok (f, l), w') ∧
    (full_name_of f l
     ∉ full_names (tracker (after_calls zero_draws stopped_clock [CallName] 0 0))) ∧
    size (full_names (tracker w'))
    = S (size (full_names (tracker (after_calls zero_draws stopped_clock [CallName] 0 0)))).
Proof.
  apply (name_is_new_below_26 zero_draws stopped_clock [CallName] 0 0).
  vm_compute. lia.
Defined.

(** ** The shape of a hash *)

Definition is_hex_digit (c : ascii) : bool :=
  bool_decide (c ∈ String.list_ascii_of_string "0123456789abcdef").

Lemma hex_digit_is_hex x : is_hex_digit (MD5.hex_digit x) = true.
Proof. unfold MD5.hex_digit. by repeat case_match. Qed.

Lemma hex_shape bs :
  String.length (MD5.hex bs) = (2 * length bs)%nat ∧
  all_chars is_hex_digit (MD5.hex bs) = true.
Proof.
  induction bs as [|b bs [IHl IHc]]; [done|]. cbn [MD5.hex String.length all_chars length].
  rewrite IHl, IHc, !hex_digit_is_hex. split; [lia|done].
Qed.

Lemma le_bytes_length k x : length (MD5.le_bytes k x) = k.
Proof. revert x. induction k as [|k IH]; intros x; [done|]. cbn. by rewrite IH. Qed.

Lemma digest_length msg : length (MD5.digest msg) = 16%nat.
Proof.
  unfold MD5.digest.
  destruct (foldl MD5.compress _ _) as [[[a b] c] d].
  by rewrite !length_app, !le_bytes_length.
Qed.

(** X13: whatever the arguments, the hash is a string of 32 lowercase
    hexadecimal digits. *)
Theorem hash_is_32_hex_digits args :
  String.length (generate_unique_hash args) = 32%nat ∧
  all_chars is_hex_digit (generate_unique_hash args) = true.
Proof.
  unfold generate_unique_hash, MD5.hexdigest.
  destruct (hex_shape (MD5.digest (MD5.bytes_of_string (Py.join_bar args)))) as [Hl Hc].
  by rewrite Hl, Hc, digest_length.
Qed.

(** ** When a batch raises *)

(** X14: a batch raises exactly when its count is positive and it names a
    state, other than "" and "Mixed", that is not in the catalog.  It then
    raises [KeyError] for that state at its first persona: no persona is
    returned or counted, yet the name, the email and the phone number
    generated for that persona stay in the tracker.  In every other case the
    batch returns [count] personas (none for a count below 1). *)
Theorem batch_raises_iff_unknown_state rand clock count state w :
  let unknown :=
    ∃ s, state = Some s ∧ s ≠ "" ∧ s ≠ "Mixed" ∧
         dict_lookup Catalog.public_places s = None in
  ((0 < count)%Z ∧ unknown →
   ∃ s w' f l e p,
     state = Some s ∧
     generate_multiple_personas rand clock count state w = (Raise (KeyError s), w') ∧
     tracker w' = add_phone p (add_email e (record_name f l (tracker w))) ∧
     total_generated (stats w') = total_generated (stats w))
  ∧
  (¬ ((0 < count)%Z ∧ unknown) →
   ∃ ps w',
     generate_multiple_personas rand clock count state w = (Ok ps, w') ∧
     length ps = Z.to_nat count).
Proof.
  intros unknown. split.
  - intros [Hcount (s & -> & Hne & Hmixed & Hnone)].
    assert (state_given (Some s) = Some s) as Hs.
    { unfold state_given. by rewrite decide_True. }
    destruct (generate_persona_unknown rand clock _ _ w Hs Hnone)
      as (w' & f & l & base & e & p & Hrun & Ht & Hn & _).
    exists s, w', f, l, e, p. split; [done|]. split; [|done].
    unfold generate_multiple_personas.
    destruct (Z.to_nat count) as [|n] eqn:En; [lia|].
    cbn [personas_loop]. unfold mbind, M_bind. by rewrite Hrun.
  - intros Hnot. destruct (decide (0 < count)%Z) as [Hcount|Hcount].
    + destruct (state_cases state) as [Hvalid|(s & Hs & Hnone)].
      * destruct (batch_served rand clock count state w Hvalid) as (ps & w' & Hrun & Hlen & _).
        by exists ps, w'.
      * exfalso. apply Hnot. split; [done|]. exists s.
        unfold state_given in Hs. destruct state as [s'|]; [|done].
        case_decide as Hd; [|done]. injection Hs as ->. by destruct Hd.
    + exists [], w. rewrite batch_nonpositive by lia.
      split; [done|]. simpl. lia.
Qed.

(** X14 at a batch of two personas for "Atlantis", and at one for Wyoming. *)
Lemma batch_raises_iff_unknown_state_witness :
  (∃ s w' f l e p,
     Some "Atlantis" = Some s ∧
     generate_multiple_personas zero_draws stopped_clock 2 (Some "Atlantis") fresh_world
     = (Raise (KeyError s), w') ∧
     tracker w' = add_phone p (add_email e (record_name f l (tracker fresh_world))) ∧
     total_generated (stats w') = total_generated (stats fresh_world))
  ∧
  (∃ ps w',
     generate_multiple_personas zero_draws stopped_clock 2 (Some "Wyoming") fresh_world
     = (Ok ps, w') ∧
     length ps = Z.to_nat 2).
Proof.
  split.
  - apply (proj1 (batch_raises_iff_unknown_state zero_draws stopped_clock 2
                    (Some "Atlantis") fresh_world)).
    split; [lia|]. exists "Atlantis". repeat split; try discriminate.
  - apply (proj2 (batch_raises_iff_unknown_state zero_draws stopped_clock 2
                    (Some "Wyoming") fresh_world)).
    intros [_ (s & [= <-] & _ & _ & Hnone)]. vm_compute in Hnone. discriminate.
Defined.
